(** * Resource-management core of the device plugin: allocation, NVML
      queries and the plugin supervisor.

    The Go sources embedded here are [internal/rm/allocate.go] and
    [internal/rm/nvml.go] (which also carries the [main] package with
    [start], [stopPlugins] and [startPlugins]).  Go values are modelled as
    follows: [int], [uint32] and [uint64] are [Z] (wrap-around written out
    where the code does unsigned arithmetic), [string] is [string], a slice
    is a [list] (the nil slice is [[]]; the slices of the configuration,
    which the code sets to nil, are an [option] of a [list]), a nil-able
    pointer or error is an [option], and a Go function returning
    [(v, err)] returns a pair. *)

From Stdlib Require Import List String Ascii ZArith Lia Bool Arith.
From Stdlib Require Import DecimalString DecimalZ Permutation.
Import ListNotations.

Open Scope string_scope.
Open Scope list_scope.
Open Scope Z_scope.

(* ================================================================= *)
(** ** Go runtime and standard-library pieces used by the sources *)

Module Go.

(** A Go [error] value; [None] is the nil error. *)
Definition error := string.

(** A call either returns or panics (slice bounds).  *)
Inductive outcome (A : Type) : Type :=
| Returns (a : A)
| Panics (msg : string).
Arguments Returns {A} a.
Arguments Panics {A} msg.

Definition wrap32 (x : Z) : Z := x mod 2 ^ 32.
Definition wrap64 (x : Z) : Z := x mod 2 ^ 64.

(** [fmt.Sprintf("%d", n)] for a non-negative or negative integer. *)
Definition fmt_d (n : Z) : string := NilEmpty.string_of_int (Z.to_int n).

(** [strings.HasPrefix] and [strings.TrimPrefix]. *)
Fixpoint HasPrefix (s p : string) : bool :=
  match p, s with
  | EmptyString, _ => true
  | String _ _, EmptyString => false
  | String b p', String a s' => Ascii.eqb a b && HasPrefix s' p'
  end.

Fixpoint drop (n : nat) (s : string) : string :=
  match n, s with
  | O, _ => s
  | S n', String _ s' => drop n' s'
  | S _, EmptyString => EmptyString
  end.

Definition TrimPrefix (s p : string) : string :=
  if HasPrefix s p then drop (String.length p) s else s.

(** [strings.ToLower] on ASCII text: 'A'..'Z' are mapped to 'a'..'z' and
    every other byte below 0x80 is kept.  Bytes from 0x80 on go through
    Unicode case mapping in Go and are outside this model, see
    [isASCII]. *)
Definition lower_ascii (a : ascii) : ascii :=
  let n := nat_of_ascii a in
  if (Nat.leb 65 n && Nat.leb n 90)%bool then ascii_of_nat (n + 32) else a.

Fixpoint ToLower (s : string) : string :=
  match s with
  | EmptyString => EmptyString
  | String a s' => String (lower_ascii a) (ToLower s')
  end.

Fixpoint isASCII (s : string) : bool :=
  match s with
  | EmptyString => true
  | String a s' => Nat.ltb (nat_of_ascii a) 128 && isASCII s'
  end.

(** [bytes.TrimSpace]: leading and trailing white space, as defined by
    Unicode, is removed from the UTF-8 bytes.  [unicode.IsSpace] holds of
    '\t' '\n' '\v' '\f' '\r' ' ', of U+0085 and U+00A0, and of U+1680,
    U+2000..U+200A, U+2028, U+2029, U+202F, U+205F and U+3000; a byte
    sequence that is no valid encoding decodes to U+FFFD, which is no
    white space. *)
Definition isSpace (a : ascii) : bool :=
  let n := nat_of_ascii a in
  ((Nat.leb 9 n && Nat.leb n 13) || Nat.eqb n 32)%bool.

(** The two-byte encodings C2 85 (U+0085) and C2 A0 (U+00A0). *)
Definition isSpace2 (a b : ascii) : bool :=
  let x := nat_of_ascii a in
  let y := nat_of_ascii b in
  (Nat.eqb x 194 && (Nat.eqb y 133 || Nat.eqb y 160))%bool.

(** The three-byte encodings E1 9A 80 (U+1680), E2 80 80..8A
    (U+2000..U+200A), E2 80 A8, E2 80 A9, E2 80 AF (U+2028, U+2029,
    U+202F), E2 81 9F (U+205F) and E3 80 80 (U+3000). *)
Definition isSpace3 (a b c : ascii) : bool :=
  let x := nat_of_ascii a in
  let y := nat_of_ascii b in
  let z := nat_of_ascii c in
  ((Nat.eqb x 225 && Nat.eqb y 154 && Nat.eqb z 128)
   || (Nat.eqb x 226 && Nat.eqb y 128
       && ((Nat.leb 128 z && Nat.leb z 138)
           || Nat.eqb z 168 || Nat.eqb z 169 || Nat.eqb z 175))
   || (Nat.eqb x 226 && Nat.eqb y 129 && Nat.eqb z 159)
   || (Nat.eqb x 227 && Nat.eqb y 128 && Nat.eqb z 128))%bool.

(** Leading white-space runes are dropped. *)
Fixpoint trimLeft (s : string) : string :=
  match s with
  | EmptyString => EmptyString
  | String a s1 =>
      if isSpace a then trimLeft s1
      else
        match s1 with
        | EmptyString => s
        | String b s2 =>
            if isSpace2 a b then trimLeft s2
            else
              match s2 with
              | EmptyString => s
              | String c s3 => if isSpace3 a b c then trimLeft s3 else s
              end
        end
  end.

Fixpoint revOnto (s acc : string) : string :=
  match s with
  | EmptyString => acc
  | String a s' => revOnto s' (String a acc)
  end.

Definition reverse (s : string) : string := revOnto s EmptyString.

(** Trailing white-space runes are dropped; the bytes come last first. *)
Fixpoint trimReversed (s : string) : string :=
  match s with
  | EmptyString => EmptyString
  | String c s1 =>
      if isSpace c then trimReversed s1
      else
        match s1 with
        | EmptyString => s
        | String b s2 =>
            if isSpace2 b c then trimReversed s2
            else
              match s2 with
              | EmptyString => s
              | String a s3 => if isSpace3 a b c then trimReversed s3 else s
              end
        end
  end.

Definition trimRight (s : string) : string := reverse (trimReversed (reverse s)).

Definition TrimSpace (s : string) : string := trimRight (trimLeft s).

(** [strconv.ParseInt(s, 10, bitSize)]: an optional sign followed by at
    least one decimal digit; a value outside the signed [bitSize]-bit
    range is a range error.  [None] stands for either error. *)
Definition digit (a : ascii) : option Z :=
  let n := nat_of_ascii a in
  if (Nat.leb 48 n && Nat.leb n 57)%bool then Some (Z.of_nat (n - 48)) else None.

Fixpoint digits (acc : Z) (s : string) : option Z :=
  match s with
  | EmptyString => Some acc
  | String a s' =>
      match digit a with
      | Some d => digits (10 * acc + d) s'
      | None => None
      end
  end.

Definition parseUnsigned (s : string) : option Z :=
  match s with
  | EmptyString => None
  | _ => digits 0 s
  end.

Definition ParseInt10 (s : string) (bitSize : Z) : option Z :=
  let cutoff := 2 ^ (bitSize - 1) in
  match s with
  | EmptyString => None
  | String a s' =>
      if Ascii.eqb a "+" then
        match parseUnsigned s' with
        | Some un => if cutoff <=? un then None else Some un
        | None => None
        end
      else if Ascii.eqb a "-" then
        match parseUnsigned s' with
        | Some un => if cutoff <? un then None else Some (- un)
        | None => None
        end
      else
        match parseUnsigned s with
        | Some un => if cutoff <=? un then None else Some un
        | None => None
        end
  end.

(** A counted loop [for i := 0; i < n; i++] whose body may leave with an
    error; [continue] is a body that returns [(st, None)]. *)
Fixpoint forEach {St I : Type} (body : I -> St -> St * option error)
         (idx : list I) (st : St) : St * option error :=
  match idx with
  | [] => (st, None)
  | i :: idx' =>
      match body i st with
      | (st', Some e) => (st', Some e)
      | (st', None) => forEach body idx' st'
      end
  end.

(** [len] of a slice that may be nil ([None]). *)
Definition len {A : Type} (s : option (list A)) : Z :=
  match s with
  | None => 0
  | Some l => Z.of_nat (List.length l)
  end.

(** The indices [0 .. n-1] of a loop bound held in a Go [int]. *)
Definition upto (n : Z) : list Z := map Z.of_nat (seq 0 (Z.to_nat n)).

End Go.

(* ================================================================= *)
(** ** The NVML binding (go-nvml) as seen by package rm *)

Module Nvml.
Import Go.

Inductive Return : Type :=
| SUCCESS
| ERROR_NOT_SUPPORTED
| ERROR_INVALID_ARGUMENT
| ERROR_NOT_FOUND
| ERROR_TIMEOUT
| ERROR_UNKNOWN.

Definition isSuccess (r : Return) : bool :=
  match r with SUCCESS => true | _ => false end.

Definition ErrorString (r : Return) : string :=
  match r with
  | SUCCESS => "SUCCESS"
  | ERROR_NOT_SUPPORTED => "ERROR_NOT_SUPPORTED"
  | ERROR_INVALID_ARGUMENT => "ERROR_INVALID_ARGUMENT"
  | ERROR_NOT_FOUND => "ERROR_NOT_FOUND"
  | ERROR_TIMEOUT => "ERROR_TIMEOUT"
  | ERROR_UNKNOWN => "ERROR_UNKNOWN"
  end.

(** A device handle is opaque; the library answers queries about it. *)
Definition Device := nat.

Definition DEVICE_MIG_ENABLE : Z := 1.

(** [nvml.DeviceAttributes]: the slice counts are [uint32], the memory
    size is [uint64]. *)
Record DeviceAttributes : Type := mkAttributes {
  GpuInstanceSliceCount : Z;
  ComputeInstanceSliceCount : Z;
  MemorySizeMB : Z
}.

(** [nvml.GpuInstanceProfileInfo]: [SliceCount] is [uint32],
    [MemorySizeMB] is [uint64]. *)
Record GpuInstanceProfileInfo : Type := mkProfileInfo {
  SliceCount : Z;
  ProfileMemorySizeMB : Z
}.

(** [nvml.PciInfo]: [BusId] is a NUL-terminated [[32]int8]. *)
Record PciInfo : Type := mkPciInfo {
  BusId : list Z
}.

(** [nvml.EventData]; the two instance ids are [uint32]. *)
Record EventData : Type := mkEventData {
  EventDevice : Device;
  EventType : Z;
  EventPayload : Z;
  GpuInstanceId : Z;
  ComputeInstanceId : Z
}.

(** What the library answers for one handle. *)
Record DeviceState : Type := mkDeviceState {
  GetUUID : string * Return;
  IsMigDeviceHandle : bool * Return;
  GetMigMode : Z * Z * Return;
  GetAttributes : DeviceAttributes * Return;
  GetGpuInstanceProfileInfo : Z -> GpuInstanceProfileInfo * Return;
  GetDeviceHandleFromMigDeviceHandle : Device * Return;
  GetPciInfo : PciInfo * Return
}.

(** The dynamic library behind [dl.New("libnvidia-ml.so.1", ...)]. *)
Record DynamicLibrary : Type := mkDL {
  dl_New : bool;
  dl_Open : option error;
  dl_Lookup : string -> option error
}.

(** One hardware-query session. *)
Record Library : Type := mkLibrary {
  dl : DynamicLibrary;
  DeviceGetCount : Z * Return;
  DeviceGetHandleByIndex : Z -> Device * Return;
  dev : Device -> DeviceState
}.

(** [es.Wait(timeout)] of an event set. *)
Definition EventSet := Z -> EventData * Return.

(** Further answers of the library for one handle; [RegisterEvents]
    is given the event mask. *)
Record DeviceQueries : Type := mkDeviceQueries {
  GetMaxMigDeviceCount : Z * Return;
  GetMigDeviceHandleByIndex : Z -> Device * Return;
  GetMinorNumber : Z * Return;
  RegisterEvents : Z -> Return
}.

Definition Queries := Device -> DeviceQueries.

End Nvml.

(** [os.ReadFile]: the content, or the cause of the failure. *)
Module Os.
Inductive PathError : Type :=
| ENOENT   (* no such file *)
| EACCES   (* present, permission denied *)
| EIO      (* present, read fails *)
| EISDIR.  (* present, not a regular file *)

Inductive ReadResult : Type :=
| Content (b : string)
| Fails (e : PathError).

Definition present (r : ReadResult) : bool :=
  match r with
  | Fails ENOENT => false
  | _ => true
  end.

Definition FileSystem := string -> ReadResult.
End Os.

(* ================================================================= *)
(** ** Package rm: devices, allocate.go, nvml.go *)

Module Rm.
Import Go Nvml.

(** The device record of the specification's data model. *)
Record Device : Type := mkDevice {
  ID : string;
  Index : string;
  isPartition : bool;
  parentID : option string;
  profile : string;
  nodePaths : list string;
  numaNode : option Z
}.

(** An order-preserving collection of devices keyed by id. *)
Definition Devices := list Device.

Definition lookup (ds : Devices) (id : string) : option Device :=
  find (fun d => String.eqb (ID d) id) ds.

Definition Contains (ds : Devices) (id : string) : bool :=
  match lookup ds id with Some _ => true | None => false end.

(** Modelled from the spec: [Devices.Subset] is declared outside
    allocate.go and nvml.go.  "Subset-by-id" of an order-preserving
    collection keyed by id: the members of [ds] named by [ids], in the
    order of [ids], each id kept once. *)
Definition Subset (ds : Devices) (ids : list string) : Devices :=
  fold_left
    (fun res id =>
       match lookup ds id with
       | Some d => if Contains res id then res else res ++ [d]
       | None => res
       end)
    ids [].

(** Modelled from the spec: [Devices.Difference] is declared outside
    allocate.go and nvml.go.  "Set difference by id", keeping the order
    of the receiver. *)
Definition Difference (ds ods : Devices) : Devices :=
  filter (fun d => negb (Contains ods (ID d))) ds.

(** Modelled from the spec: [Devices.GetIDs] is declared outside
    allocate.go and nvml.go.  "Id projection". *)
Definition GetIDs (ds : Devices) : list string := map ID ds.

(** Modelled from the spec: [Devices.ContainsMigDevices] is declared
    outside allocate.go and nvml.go.  "The current DeviceSet contains
    partitions": some member is a partition. *)
Definition ContainsMigDevices (ds : Devices) : bool :=
  existsb isPartition ds.

Record resourceManager : Type := mkRM {
  devices : Devices
}.

(** [r.Devices()] reads the manager's device set. *)
Definition Devices_of (r : resourceManager) : Devices := devices r.

Section Allocation.

(** The qualifier test of one annotated id.  How a qualifier is encoded
    in the id string is fixed outside allocate.go and nvml.go. *)
Variable HasAnnotations : string -> bool.

(** Modelled from the spec: [AnnotatedIDs.AnyHasAnnotations] is
    declared outside allocate.go and nvml.go.  "A set of such ids has
    annotations if any element carries a qualifier". *)
Definition AnyHasAnnotations (ids : list string) : bool :=
  existsb HasAnnotations ids.

(** The gpuallocator library: its device type, [NewDevicesFrom] and the
    best-effort policy's [Allocate]. *)
Variable GDevice : Type.
Variable GDevice_UUID : GDevice -> string.
Variable NewDevicesFrom : list string -> list GDevice * option error.
Variable Allocate : list GDevice -> list GDevice -> Z -> list GDevice.

Definition alignedAlloc (r : resourceManager)
           (available required : list string) (size : Z)
  : list string * option error :=
  match NewDevicesFrom available with
  | (_, Some err) =>
      ([], Some ("unable to retrieve list of available devices: " ++ err)%string)
  | (availableDevices, None) =>
      match NewDevicesFrom required with
      | (_, Some err) =>
          ([], Some ("unable to retrieve list of required devices: " ++ err)%string)
      | (requiredDevices, None) =>
          let allocatedDevices :=
            Allocate availableDevices requiredDevices size in
          (map GDevice_UUID allocatedDevices, None)
      end
  end.

(** The candidate list of the fallback policy. *)
Definition remainder (r : resourceManager)
           (available required : list string) : list string :=
  GetIDs (Difference (Subset (devices r) available)
                     (Subset (devices r) required)).

Definition candidates (r : resourceManager)
           (available required : list string) : list string :=
  required ++ remainder r available required.

Definition insufficient : error :=
  "not enough available devices to satisfy allocation".

(** [devices[:size]] panics for a negative [size]. *)
Definition alloc (r : resourceManager)
           (available required : list string) (size : Z)
  : outcome (list string * option error) :=
  let devices := candidates r available required in
  if Z.of_nat (List.length devices) <? size then
    Returns ([], Some insufficient)
  else if size <? 0 then
    Panics "slice bounds out of range"
  else
    Returns (firstn (Z.to_nat size) devices, None).

Definition getPreferredAllocation (r : resourceManager)
           (available required : list string) (size : Z)
  : outcome (list string * option error) :=
  if negb (ContainsMigDevices (Devices_of r))
     && negb (AnyHasAnnotations available)
  then Returns (alignedAlloc r available required size)
  else alloc r available required size.

End Allocation.

(* --------------------------------------------------------------- *)
(** *** nvml.go *)

Definition nvmlDevice := Nvml.Device.

(** [nvmlEvent]: the three pointer fields are nil-able. *)
Record nvmlEvent : Type := mkEvent {
  UUID : option string;
  GpuInstanceID : option Z;
  ComputeInstanceID : option Z;
  Etype : Z;
  Edata : Z
}.

(** The zero value [nvmlEvent{}]. *)
Definition nvmlEvent_zero : nvmlEvent := mkEvent None None None 0 0.

Definition nvmlLookupSymbol (lib : Library) (symbol : string) : option error :=
  if negb (dl_New (dl lib)) then
    Some "error instantiating DynamicLibrary for NVML"
  else
    match dl_Open (dl lib) with
    | Some err => Some ("error opening DynamicLibrary for NVML: " ++ err)%string
    | None => dl_Lookup (dl lib) symbol
    end.

Section EventDecoding.

(** [uintPtr], declared outside allocate.go and nvml.go: it is given a
    [uint32] and its result fills a [*uint] field of the event. *)
Variable uintPtr : Z -> option Z.

Definition nvmlWaitForEvent (lib : Library) (es : EventSet) (timeout : Z)
  : nvmlEvent * option error :=
  let '(data, ret) := es (wrap32 timeout) in
  if negb (isSuccess ret) then (nvmlEvent_zero, Some (ErrorString ret)) else
  let '(uuid, ret) := GetUUID (dev lib (EventDevice data)) in
  if negb (isSuccess ret) then (nvmlEvent_zero, Some (ErrorString ret)) else
  let '(isMig, ret) := IsMigDeviceHandle (dev lib (EventDevice data)) in
  if negb (isSuccess ret) then (nvmlEvent_zero, Some (ErrorString ret)) else
  let gi := if negb isMig then 4294967295 else GpuInstanceId data in
  let ci := if negb isMig then 4294967295 else ComputeInstanceId data in
  (mkEvent (Some uuid) (uintPtr gi) (uintPtr ci)
           (EventType data) (EventPayload data), None).

End EventDecoding.

(** [walkGPUDevices] with the callback's state threaded through. *)
Definition walkGPUDevices {St : Type} (lib : Library)
           (f : Z -> Nvml.Device -> St -> St * option error) (st : St)
  : St * option error :=
  let '(count, ret) := DeviceGetCount lib in
  if negb (isSuccess ret) then
    (st, Some ("error getting device count: " ++ ErrorString ret)%string)
  else
    forEach
      (fun i st =>
         let '(device, ret) := DeviceGetHandleByIndex lib i in
         if negb (isSuccess ret) then
           (st, Some ("error getting device handle for index '" ++ fmt_d i
                      ++ "': " ++ ErrorString ret)%string)
         else f i device st)
      (upto count) st.

Definition isMigCapable (lib : Library) (d : nvmlDevice) : bool * option error :=
  match nvmlLookupSymbol lib "nvmlDeviceGetMigMode" with
  | Some _ => (false, None)
  | None =>
      let '(_, _, ret) := GetMigMode (dev lib d) in
      match ret with
      | ERROR_NOT_SUPPORTED => (false, None)
      | SUCCESS => (true, None)
      | _ => (false, Some ("error getting MIG mode: " ++ ErrorString ret)%string)
      end
  end.

Definition isMigDevice (lib : Library) (d : nvmlDevice) : bool * option error :=
  match nvmlLookupSymbol lib "nvmlDeviceIsMigDeviceHandle" with
  | Some _ => (false, None)
  | None =>
      let '(isMig, ret) := IsMigDeviceHandle (dev lib d) in
      if negb (isSuccess ret) then (false, Some (ErrorString ret))
      else (isMig, None)
  end.

(** [(memMB + 1024 - 1) / 1024] in [uint64]. *)
Definition memGB (memMB : Z) : Z := wrap64 (wrap64 (memMB + 1024) - 1) / 1024.

Definition mem_member (p : string) (visited : list string) : bool :=
  existsb (String.eqb p) visited.

Section WalkMigProfiles.

(** [nvml.GPU_INSTANCE_PROFILE_COUNT] of the binding in use. *)
Variable GPU_INSTANCE_PROFILE_COUNT : Z.

(** The callback [f] with the state it acts on. *)
Context {St : Type}.
Variable f : string -> St -> St * option error.

(** One GPU-instance profile slot; the state carries [visited]. *)
Definition walkProfileSlot (lib : Library) (gpu : Nvml.Device) (i : Z)
           (vs : list string * St) : (list string * St) * option error :=
  let '(visited, st) := vs in
  let '(giProfileInfo, ret) := GetGpuInstanceProfileInfo (dev lib gpu) i in
  match ret with
  | ERROR_NOT_SUPPORTED => (vs, None)
  | ERROR_INVALID_ARGUMENT => (vs, None)
  | SUCCESS =>
      let g := SliceCount giProfileInfo in
      let gb := memGB (ProfileMemorySizeMB giProfileInfo) in
      let p := (fmt_d g ++ "g." ++ fmt_d gb ++ "gb")%string in
      if mem_member p visited then (vs, None)
      else
        match f p st with
        | (st', Some err) => ((visited, st'), Some err)
        | (st', None) => ((p :: visited, st'), None)
        end
  | _ =>
      (vs, Some ("error getting GPU instance profile info for '" ++ fmt_d i
                 ++ "': " ++ ErrorString ret)%string)
  end.

Definition walkMigProfiles (lib : Library) (st : St) : St * option error :=
  let '((_, st'), err) :=
    walkGPUDevices lib
      (fun i gpu vs =>
         match isMigCapable lib gpu with
         | (_, Some err) =>
             (vs, Some ("error checking if GPU " ++ fmt_d i
                        ++ " is MIG capable: " ++ err)%string)
         | (false, None) => (vs, None)
         | (true, None) =>
             forEach (walkProfileSlot lib gpu)
                     (upto GPU_INSTANCE_PROFILE_COUNT) vs
         end)
      ([], st) in
  (st', err).

End WalkMigProfiles.

(** A callback instrumented with the list of profiles it was called on,
    most recent first. *)
Definition logged {St : Type} (f : string -> St -> St * option error)
  : string -> list string * St -> (list string * St) * option error :=
  fun p '(log, st) => let '(st', err) := f p st in ((p :: log, st'), err).

Definition getMigProfile (lib : Library) (d : nvmlDevice) : string * option error :=
  match isMigDevice lib d with
  | (_, Some err) =>
      ("", Some ("error checking if device is a MIG device: " ++ err)%string)
  | (false, None) => ("", Some "device handle is not a MIG device")
  | (true, None) =>
      let '(attr, ret) := GetAttributes (dev lib d) in
      if negb (isSuccess ret) then
        ("", Some ("error getting MIG device attributes: " ++ ErrorString ret)%string)
      else
        let g := GpuInstanceSliceCount attr in
        let c := ComputeInstanceSliceCount attr in
        let gb := memGB (MemorySizeMB attr) in
        if g =? c then
          ((fmt_d g ++ "g." ++ fmt_d gb ++ "gb")%string, None)
        else
          ((fmt_d c ++ "c." ++ fmt_d g ++ "g." ++ fmt_d gb ++ "gb")%string, None)
  end.

(** Modelled from the spec: [int8Slice] and its [String] method are
    declared outside allocate.go and nvml.go.  "The device's bus
    address" as text: the bytes of the C string up to its NUL. *)
Fixpoint int8Slice_String (s : list Z) : string :=
  match s with
  | [] => EmptyString
  | c :: s' =>
      if c =? 0 then EmptyString
      else String (ascii_of_nat (Z.to_nat (c mod 256))) (int8Slice_String s')
  end.

(** The bus id under which the PCI-topology file is looked up. *)
Definition numaBusID (info : PciInfo) : string :=
  ToLower (TrimPrefix (int8Slice_String (BusId info)) "0000").

Definition numaNodePath (busID : string) : string :=
  ("/sys/bus/pci/devices/" ++ busID ++ "/numa_node")%string.

(** [getNumaNode]; [nil] is [None].  The text of the [strconv] error is
    left out of the message of a parse failure. *)
Definition getNumaNode (lib : Library) (fs : Os.FileSystem) (d : nvmlDevice)
  : option Z * option error :=
  match isMigDevice lib d with
  | (_, Some err) =>
      (None, Some ("error checking if device is a MIG device: " ++ err)%string)
  | (isMig, None) =>
      let parentStep :=
        if isMig then
          let '(parent, ret) := GetDeviceHandleFromMigDeviceHandle (dev lib d) in
          if negb (isSuccess ret) then
            inr ("error getting parent GPU device from MIG device: "
                 ++ ErrorString ret)%string
          else inl parent
        else inl d in
      match parentStep with
      | inr err => (None, Some err)
      | inl d =>
          let '(info, ret) := GetPciInfo (dev lib d) in
          if negb (isSuccess ret) then
            (None, Some ("error getting PCI Bus Info of device: "
                         ++ ErrorString ret)%string)
          else
            let busID := numaBusID info in
            match fs (numaNodePath busID) with
            | Os.Fails _ => (None, None)
            | Os.Content b =>
                match ParseInt10 (TrimSpace b) 8 with
                | None => (None, Some "eror parsing value for NUMA node")
                | Some node =>
                    if node <? 0 then (None, None) else (Some node, None)
                end
            end
      end
  end.

(* --------------------------------------------------------------- *)
(** *** nvml.go: registration, MIG devices, device nodes *)

(** The scan of [nvmlRegisterEventForDevice] over the device indices:
    the calls of [RegisterEvents] made, as device and mask, and the
    error returned. *)
Fixpoint registerScan (lib : Library) (q : Queries) (event : Z) (uuid : string)
         (idx : list Z) : list (Nvml.Device * Z) * option error :=
  match idx with
  | [] => ([], Some "nvml: device not found")
  | i :: idx' =>
      let '(d, ret) := DeviceGetHandleByIndex lib i in
      if negb (isSuccess ret) then ([], Some (ErrorString ret)) else
      let '(duuid, ret) := GetUUID (dev lib d) in
      if negb (isSuccess ret) then ([], Some (ErrorString ret)) else
      if negb (String.eqb duuid uuid) then registerScan lib q event uuid idx'
      else
        let ret := RegisterEvents (q d) (wrap64 event) in
        if negb (isSuccess ret) then ([(d, wrap64 event)], Some (ErrorString ret))
        else ([(d, wrap64 event)], None)
  end.

Definition nvmlRegisterEventForDevice (lib : Library) (q : Queries)
           (event : Z) (uuid : string)
  : list (Nvml.Device * Z) * option error :=
  let '(count, ret) := DeviceGetCount lib in
  if negb (isSuccess ret) then ([], Some (ErrorString ret))
  else registerScan lib q event uuid (upto count).

(** The method [nvmlDevice.walkMigDevices]. *)
Definition nvmlDevice_walkMigDevices {St : Type} (q : Queries) (d : nvmlDevice)
           (f : Z -> Nvml.Device -> St -> St * option error) (st : St)
  : St * option error :=
  let '(count, ret) := GetMaxMigDeviceCount (q d) in
  if negb (isSuccess ret) then
    (st, Some ("error getting max MIG device count: " ++ ErrorString ret)%string)
  else
    forEach
      (fun i st =>
         let '(device, ret) := GetMigDeviceHandleByIndex (q d) i in
         match ret with
         | ERROR_NOT_FOUND => (st, None)
         | ERROR_INVALID_ARGUMENT => (st, None)
         | SUCCESS => f i device st
         | _ =>
             (st, Some ("error getting MIG device handle at index '" ++ fmt_d i
                        ++ "': " ++ ErrorString ret)%string)
         end)
      (upto count) st.

Definition isMigEnabled (lib : Library) (d : nvmlDevice) : bool * option error :=
  match nvmlLookupSymbol lib "nvmlDeviceGetMigMode" with
  | Some _ => (false, None)
  | None =>
      let '(mode, _, ret) := GetMigMode (dev lib d) in
      match ret with
      | ERROR_NOT_SUPPORTED => (false, None)
      | SUCCESS => (mode =? DEVICE_MIG_ENABLE, None)
      | _ => (false, Some ("error getting MIG mode: " ++ ErrorString ret)%string)
      end
  end.

(** The function [walkMigDevices] over all GPUs. *)
Definition walkMigDevices {St : Type} (lib : Library) (q : Queries)
           (f : Z -> Z -> Nvml.Device -> St -> St * option error) (st : St)
  : St * option error :=
  let '(count, ret) := DeviceGetCount lib in
  if negb (isSuccess ret) then
    (st, Some ("error getting GPU device count: " ++ ErrorString ret)%string)
  else
    forEach
      (fun i st =>
         let '(device, ret) := DeviceGetHandleByIndex lib i in
         if negb (isSuccess ret) then
           (st, Some ("error getting device handle for GPU with index '"
                      ++ fmt_d i ++ "': " ++ ErrorString ret)%string)
         else
           match isMigEnabled lib device with
           | (_, Some err) =>
               (st, Some ("error checking if MIG is enabled on GPU with index '"
                          ++ fmt_d i ++ "': " ++ err)%string)
           | (false, None) => (st, None)
           | (true, None) =>
               match nvmlDevice_walkMigDevices q device
                       (fun j device => f i j device) st with
               | (st', Some err) =>
                   (st', Some ("error walking MIG devices on GPU with index '"
                               ++ fmt_d i ++ "': " ++ err)%string)
               | (st', None) => (st', None)
               end
           end)
      (upto count) st.

Section Paths.

(** [mig.GetMigDeviceNodePaths] of package internal/mig. *)
Variable GetMigDeviceNodePaths : string -> list string * option error.

Definition getPaths (lib : Library) (q : Queries) (d : nvmlDevice)
  : list string * option error :=
  match isMigDevice lib d with
  | (_, Some err) =>
      ([], Some ("error checking if device is a MIG device: " ++ err)%string)
  | (false, None) =>
      let '(minor, ret) := GetMinorNumber (q d) in
      if negb (isSuccess ret) then
        ([], Some ("error getting GPU device minor number: "
                   ++ ErrorString ret)%string)
      else ([("/dev/nvidia" ++ fmt_d minor)%string], None)
  | (true, None) =>
      let '(uuid, ret) := GetUUID (dev lib d) in
      if negb (isSuccess ret) then
        ([], Some ("error getting UUID of MIG device: " ++ ErrorString ret)%string)
      else
        match GetMigDeviceNodePaths uuid with
        | (_, Some err) =>
            ([], Some ("error getting MIG device paths: " ++ err)%string)
        | (paths, None) => (paths, None)
        end
  end.

End Paths.

(** Callbacks of the walks instrumented with the calls made, oldest
    first; for [walkGPUDevices] each call comes with the error the
    callback answered. *)
Definition loggedGPU {St : Type}
           (f : Z -> Nvml.Device -> St -> St * option error)
  : Z -> Nvml.Device -> list (Z * Nvml.Device * option error) * St
    -> (list (Z * Nvml.Device * option error) * St) * option error :=
  fun i d '(log, st) =>
    let '(st', err) := f i d st in ((log ++ [(i, d, err)], st'), err).

Definition loggedMig {St : Type}
           (f : Z -> Z -> Nvml.Device -> St -> St * option error)
  : Z -> Z -> Nvml.Device -> list (Z * Z * Nvml.Device) * St
    -> (list (Z * Z * Nvml.Device) * St) * option error :=
  fun i j d '(log, st) =>
    let '(st', err) := f i j d st in ((log ++ [(i, j, d)], st'), err).

End Rm.

(* ================================================================= *)
(** ** Package api/config/v1 ([spec]): the configuration fields that
       [disableResourceRenamingInConfig] reads and writes *)

Module Spec.

(** [List] is a slice, nil ([None]) or not. *)
Record TimeSlicedDevices : Type := mkTimeSlicedDevices {
  All : bool;
  Count : Z;
  List : option (list string)
}.

Record TimeSlicedResource : Type := mkTimeSlicedResource {
  Name : string;
  Rename : string;
  Devices : TimeSlicedDevices;
  Replicas : Z
}.

(** [config.Resources.GPUs] and [.MIGs] are slices, nil ([None]) or not,
    of entries of a type [R] that the function does not look into;
    [RenameByDefault] and [Resources] are those of
    [config.Sharing.TimeSlicing]. *)
Record Config (R : Type) : Type := mkConfig {
  GPUs : option (list R);
  MIGs : option (list R);
  RenameByDefault : bool;
  Resources : list TimeSlicedResource
}.
Arguments mkConfig {R} _ _ _ _.
Arguments GPUs {R} _.
Arguments MIGs {R} _.
Arguments RenameByDefault {R} _.
Arguments Resources {R} _.

End Spec.

(* ================================================================= *)
(** ** Package main: the plugin supervisor ([start], [stopPlugins],
       [startPlugins]) *)

Module Main.
Import Go.

(** One [*NvidiaDevicePlugin] handed out by [migStrategy.GetPlugins()]:
    the devices it serves and what its [Start()] answers. *)
Record NvidiaDevicePlugin : Type := mkPlugin {
  Devices : list string;
  Start : option error
}.

(** What [startPlugins] meets before its start loop. *)
Inductive Setup : Type :=
| SetupFails (err : error)       (* config, fail-fast NVML init, strategy *)
| InitBlocks                     (* NVML init failed, [select {}] *)
| Plugins (ps : list NvidiaDevicePlugin).

(** The surroundings of one run of [start]: the [n]-th call of
    [startPlugins] and the [n]-th call of [nvml.Shutdown()]. *)
Record Env : Type := mkEnv {
  setup : nat -> Setup;
  Shutdown : nat -> option error
}.

Inductive Signal : Type := SIGHUP | SIGINT | SIGTERM | SIGQUIT.

(** What the [select] of [start] can receive. *)
Inductive Event : Type :=
| TimerFired
| FsEvent (name : string) (create : bool)
| FsError (err : error)
| OsSignal (s : Signal).

(** Calls made on the collaborators.  A handle is named by the cycle
    that created it and its position in that cycle's plugin list. *)
Inductive Action : Type :=
| ActStart (cycle k : nat) (ok : bool)
| ActStop (cycle k : nat)
| ActShutdown
| ActArmTimer (seconds : Z).

(** [pluginapi.KubeletSocket]. *)
Definition KubeletSocket : string :=
  "/var/lib/kubelet/device-plugins/kubelet.sock".

(** The variables of [start] that live across [goto restart], with the
    calls made so far, oldest first.  [restartTimeout] tells whether the
    channel still has its tick to deliver; [cycle] counts the calls of
    [startPlugins], [shutdowns] those of [nvml.Shutdown]. *)
Record Supervisor : Type := mkSup {
  restartTimeout : bool;
  plugins : list NvidiaDevicePlugin;
  cycle : nat;
  shutdowns : nat;
  trace : list Action
}.

Inductive Status : Type :=
| Waiting (s : Supervisor)                       (* in the [select] loop *)
| Exited (err : option error) (tr : list Action) (* [start] returned *)
| Blocked (tr : list Action).                    (* [select {}] *)

Definition initial : Supervisor := mkSup false [] 0 0 [].

(** The start loop of [startPlugins] from position [k] on: the calls
    made and whether a [Start] failed. *)
Fixpoint startLoop (c k : nat) (ps : list NvidiaDevicePlugin)
  : list Action * bool :=
  match ps with
  | [] => ([], false)
  | p :: ps' =>
      if Nat.eqb (List.length (Devices p)) 0 then startLoop c (S k) ps'
      else
        match Start p with
        | Some _ => ([ActStart c k false], true)
        | None =>
            let '(acts, restartPlugins) := startLoop c (S k) ps' in
            (ActStart c k true :: acts, restartPlugins)
        end
  end.

(** [startPlugins]: [None] when it blocks for ever. *)
Definition startPlugins (env : Env) (c : nat)
  : option (list Action * (list NvidiaDevicePlugin * bool * option error)) :=
  match setup env c with
  | SetupFails err => Some ([], ([], false, Some err))
  | InitBlocks => None
  | Plugins ps =>
      let '(acts, restartPlugins) := startLoop c 0 ps in
      Some (acts, (ps, restartPlugins, None))
  end.

(** [stopPlugins] on the handles of cycle [c]. *)
Definition stopPlugins (env : Env) (c : nat) (ps : list NvidiaDevicePlugin)
           (n : nat) : list Action * option error :=
  (map (ActStop c) (seq 0 (List.length ps)) ++ [ActShutdown],
   match Shutdown env n with
   | Some err => Some ("error shutting down NVML: " ++ err)%string
   | None => None
   end).

(** The code from the label [restart] up to the [select] loop. *)
Definition restart (env : Env) (restarting : bool) (s : Supervisor) : Status :=
  let '(stops, stopErr, n) :=
    if restarting then
      let '(acts, err) := stopPlugins env (cycle s - 1) (plugins s) (shutdowns s) in
      (acts, err, S (shutdowns s))
    else ([], None, shutdowns s) in
  match stopErr with
  | Some err =>
      Exited (Some ("error stopping plugins from previous run: " ++ err)%string)
             (trace s ++ stops)
  | None =>
      match startPlugins env (cycle s) with
      | None => Blocked (trace s ++ stops)
      | Some (acts, (_, _, Some err)) =>
          Exited (Some ("error starting plugins: " ++ err)%string)
                 (trace s ++ stops ++ acts)
      | Some (acts, (ps, restartPlugins, None)) =>
          Waiting
            (mkSup (if restartPlugins then true else restartTimeout s)
                   ps (S (cycle s)) n
                   (trace s ++ stops ++ acts
                      ++ (if restartPlugins then [ActArmTimer 30] else [])))
      end
  end.

(** The code from the label [exit] on. *)
Definition exit (env : Env) (s : Supervisor) : Status :=
  let '(acts, err) := stopPlugins env (cycle s - 1) (plugins s) (shutdowns s) in
  Exited (match err with
          | Some e => Some ("error stopping plugins: " ++ e)%string
          | None => None
          end)
         (trace s ++ acts).

Definition drained (s : Supervisor) : Supervisor :=
  mkSup false (plugins s) (cycle s) (shutdowns s) (trace s).

(** One round of the [select].  A nil channel and a channel whose tick
    was received deliver nothing: [TimerFired] has no effect then. *)
Definition step (env : Env) (s : Supervisor) (ev : Event) : Status :=
  match ev with
  | TimerFired =>
      if restartTimeout s then restart env true (drained s) else Waiting s
  | FsEvent name create =>
      if (String.eqb name KubeletSocket && create)%bool
      then restart env true s else Waiting s
  | FsError _ => Waiting s
  | OsSignal SIGHUP => restart env true s
  | OsSignal _ => exit env s
  end.

Fixpoint loop (env : Env) (st : Status) (evs : list Event) : Status :=
  match evs, st with
  | ev :: evs', Waiting s => loop env (step env s ev) evs'
  | _, _ => st
  end.

(** [start] on the events its [select] receives. *)
Definition start (env : Env) (evs : list Event) : Status :=
  loop env (restart env false initial) evs.

Definition trace_of (st : Status) : list Action :=
  match st with
  | Waiting s => trace s
  | Exited _ tr => tr
  | Blocked tr => tr
  end.

(** The handles whose [Start] succeeded and which were not stopped
    since, after the calls [tr]. *)
Definition handle_eqb (a b : nat * nat) : bool :=
  (Nat.eqb (fst a) (fst b) && Nat.eqb (snd a) (snd b))%bool.

Definition act (l : list (nat * nat)) (a : Action) : list (nat * nat) :=
  match a with
  | ActStart c k true => (c, k) :: l
  | ActStop c k => filter (fun h => negb (handle_eqb h (c, k))) l
  | _ => l
  end.

Definition started (tr : list Action) : list (nat * nat) :=
  fold_left act tr [].

Section DisableResourceRenaming.

(** [ResourceName.DefaultSharedRename] of package api/config/v1. *)
Variable DefaultSharedRename : string -> string.

Definition resourcesWarning : string :=
  "Customizing the 'resources' field is not yet supported in the config. Ignoring...".
Definition renameWarning : string :=
  "Setting the 'rename' field in sharing.timeSlicing.resources is not yet supported in the config. Ignoring...".
Definition devicesWarning : string :=
  "Customizing the 'devices' field in sharing.timeSlicing.resources is not yet supported in the config. Ignoring...".

(** One round of the loop over [config.Sharing.TimeSlicing.Resources]:
    the entries rewritten so far and the two flags. *)
Definition disableEntry (renameByDefault : bool)
           (st : list Spec.TimeSlicedResource * bool * bool)
           (r : Spec.TimeSlicedResource)
  : list Spec.TimeSlicedResource * bool * bool :=
  let '(done, setsNonDefaultRename, setsDevices) := st in
  let '(e, setsNonDefaultRename) :=
    if negb renameByDefault && negb (String.eqb (Spec.Rename r) "")
    then (Spec.mkTimeSlicedResource (Spec.Name r) "" (Spec.Devices r)
                                    (Spec.Replicas r), true)
    else (r, setsNonDefaultRename) in
  let '(e, setsNonDefaultRename) :=
    if renameByDefault
       && negb (String.eqb (Spec.Rename r) (DefaultSharedRename (Spec.Name r)))
    then (Spec.mkTimeSlicedResource (Spec.Name e)
                                    (DefaultSharedRename (Spec.Name r))
                                    (Spec.Devices e) (Spec.Replicas e), true)
    else (e, setsNonDefaultRename) in
  let '(e, setsDevices) :=
    if negb (Spec.All (Spec.Devices r))
    then (Spec.mkTimeSlicedResource (Spec.Name e) (Spec.Rename e)
                                    (Spec.mkTimeSlicedDevices true 0 None)
                                    (Spec.Replicas e), true)
    else (e, setsDevices) in
  (done ++ [e], setsNonDefaultRename, setsDevices).

(** [disableResourceRenamingInConfig]: the configuration it leaves and
    the lines it logs. *)
Definition disableResourceRenamingInConfig {R : Type} (config : Spec.Config R)
  : Spec.Config R * list string :=
  let log1 :=
    if (0 <? len (Spec.GPUs config)) || (0 <? len (Spec.MIGs config))
    then [resourcesWarning] else [] in
  let renameByDefault := Spec.RenameByDefault config in
  let '(resources, setsNonDefaultRename, setsDevices) :=
    fold_left (disableEntry renameByDefault) (Spec.Resources config)
              ([], false, false) in
  let log2 := if setsNonDefaultRename then [renameWarning] else [] in
  let log3 := if setsDevices then [devicesWarning] else [] in
  (Spec.mkConfig None None renameByDefault resources, log1 ++ log2 ++ log3).

End DisableResourceRenaming.

End Main.

(* ================================================================= *)
(** * Specification predicates and fixtures *)

Import Go Nvml Rm.

(** The loop body of [Subset]. *)
Definition pick (ds res : Devices) (id : string) : Devices :=
  match lookup ds id with
  | Some d => if Contains res id then res else res ++ [d]
  | None => res
  end.

(** No member of the device set is a partition. *)
Definition partitionFree (ds : Devices) : Prop :=
  forall d, In d ds -> isPartition d = false.

(** No element of [available] carries a qualifier. *)
Definition unannotated (HasAnnotations : string -> bool)
           (available : list string) : Prop :=
  forall a, In a available -> HasAnnotations a = false.

(** Two full devices and a best-effort policy that takes the required
    devices first, for evaluating the engine. *)
Definition fullDevice (id : string) : Device :=
  mkDevice id "0" false None "" [("/dev/nvidia0")] None.

Definition migDevice (id parent : string) : Device :=
  mkDevice id "0:0" true (Some parent) "1g.10gb" [] None.

Definition fleetAB : resourceManager := mkRM [fullDevice "A"; fullDevice "B"].

Definition qualified (id : string) : bool := String.eqb id "B::cdi".

Definition takeFirst (available required : list string) (size : Z) : list string :=
  firstn (Z.to_nat size)
         (required ++ filter (fun a => negb (existsb (String.eqb a) required)) available).

Definition decideAB :=
  getPreferredAllocation qualified string (fun u => u)
                         (fun ids => (ids, None)) takeFirst.

(** What the specification promises of a successful fallback allocation. *)
Definition fallback_postconditions (r : resourceManager)
           (available required : list string) (size : Z) : Prop :=
  exists res,
    alloc r available required size = Returns (res, None)
    /\ Z.of_nat (List.length res) = size
    /\ incl required res
    /\ firstn (List.length required) res = required
    /\ NoDup res.

(** The number of distinct ids in [available] and [required] together. *)
Definition union_size (available required : list string) : Z :=
  Z.of_nat (List.length (nodup string_dec (available ++ required))).

(* ----------------------------------------------------------------- *)
(** ** A small node for evaluating the NVML queries *)

Definition noDevice : DeviceState :=
  mkDeviceState ("", ERROR_INVALID_ARGUMENT) (false, ERROR_INVALID_ARGUMENT)
                (0, 0, ERROR_INVALID_ARGUMENT)
                (mkAttributes 0 0 0, ERROR_INVALID_ARGUMENT)
                (fun _ => (mkProfileInfo 0 0, ERROR_INVALID_ARGUMENT))
                (0%nat, ERROR_INVALID_ARGUMENT)
                (mkPciInfo [], ERROR_INVALID_ARGUMENT).

(** A [[n]int8] holding the C string [s]. *)
Fixpoint cString (s : string) (n : nat) : list Z :=
  match n with
  | O => []
  | S n' =>
      match s with
      | EmptyString => 0 :: cString EmptyString n'
      | String a s' => Z.of_nat (nat_of_ascii a) :: cString s' n'
      end
  end.

(** A full GPU in MIG mode with the given GPU-instance profile table. *)
Definition gpuState (uuid busId : string)
           (profiles : Z -> GpuInstanceProfileInfo * Return) : DeviceState :=
  mkDeviceState (uuid, SUCCESS) (false, SUCCESS) (1, 1, SUCCESS)
                (mkAttributes 0 0 0, ERROR_INVALID_ARGUMENT)
                profiles
                (0%nat, ERROR_INVALID_ARGUMENT)
                (mkPciInfo (cString busId 32), SUCCESS).

(** A MIG device of the GPU with handle [parent]. *)
Definition migState (uuid : string) (parent : Nvml.Device)
           (attr : DeviceAttributes) : DeviceState :=
  mkDeviceState (uuid, SUCCESS) (true, SUCCESS) (0, 0, ERROR_NOT_SUPPORTED)
                (attr, SUCCESS)
                (fun _ => (mkProfileInfo 0 0, ERROR_NOT_SUPPORTED))
                (parent, SUCCESS)
                (mkPciInfo [], ERROR_NOT_SUPPORTED).

Definition dlPresent : DynamicLibrary := mkDL true None (fun _ => None).

(** A node whose GPUs have the handles [0 .. len(gpus)-1], followed by
    the handles of its MIG devices. *)
Definition node (gpus migs : list DeviceState) : Library :=
  mkLibrary dlPresent
            (Z.of_nat (List.length gpus), SUCCESS)
            (fun i => (Z.to_nat i,
                       if (0 <=? i) && (i <? Z.of_nat (List.length gpus))
                       then SUCCESS else ERROR_INVALID_ARGUMENT))
            (fun h => nth h (gpus ++ migs) noDevice).

Definition oneProfile (g memMB : Z) : Z -> GpuInstanceProfileInfo * Return :=
  fun i => if i =? 0 then (mkProfileInfo g memMB, SUCCESS)
           else (mkProfileInfo 0 0, ERROR_NOT_SUPPORTED).

(** One GPU (handle 0) offering a single GPU-instance profile, and one
    MIG device (handle 1) with the given attributes. *)
Definition nodeWith (g c memMB : Z) : Library :=
  node [gpuState "GPU-0" "00000000:3B:00.0" (oneProfile g memMB)]
       [migState "MIG-0" 0%nat (mkAttributes g c memMB)].

(** The name [getMigProfile] gives to slice counts [g], [c] and a memory
    size whose rounded-up GiB value is [gb]. *)
Definition profileName (g c gb : Z) : string :=
  if g =? c then (fmt_d g ++ "g." ++ fmt_d gb ++ "gb")%string
  else (fmt_d c ++ "c." ++ fmt_d g ++ "g." ++ fmt_d gb ++ "gb")%string.


(** The name [walkMigProfiles] passes to its callback for a GPU-instance
    profile with slice count [g] and memory size [memMB]. *)
Definition giProfileName (g memMB : Z) : string :=
  (fmt_d g ++ "g." ++ fmt_d (memGB memMB) ++ "gb")%string.

(** [p] names a GPU-instance profile that some device of the node
    reports. *)
Definition offered (lib : Library) (p : string) : Prop :=
  exists gpu i info,
    GetGpuInstanceProfileInfo (dev lib gpu) i = (info, SUCCESS)
    /\ p = giProfileName (SliceCount info) (ProfileMemorySizeMB info).

(** While the walk runs ([vs] is [visited] with the callback's log and
    state): the callback was called once on each visited profile, and on
    offered profiles only. *)
Definition walking {St : Type} (lib : Library)
           (vs : list string * (list string * St)) : Prop :=
  NoDup (fst (snd vs)) /\ incl (fst (snd vs)) (fst vs)
  /\ Forall (offered lib) (fst (snd vs)).

(** When the walk is left: no profile was passed twice. *)
Definition walked {St : Type} (lib : Library)
           (vs : list string * (list string * St)) : Prop :=
  NoDup (fst (snd vs)) /\ Forall (offered lib) (fst (snd vs)).

(** A callback that accepts every profile and keeps no state. *)
Definition accept : string -> unit -> unit * option error :=
  fun _ st => (st, None).

(** [target] is the device whose PCI information [getNumaNode] reads for
    [d]: [d] itself, or its parent when [d] is a MIG device. *)
Definition pciTarget (lib : Library) (d target : nvmlDevice) : Prop :=
  (isMigDevice lib d = (false, None) /\ target = d)
  \/ (isMigDevice lib d = (true, None)
      /\ GetDeviceHandleFromMigDeviceHandle (dev lib d) = (target, SUCCESS)).

(** What [getNumaNode] makes of the read of the topology file. *)
Definition numaOfFile (file : Os.ReadResult) : option Z * option error :=
  match file with
  | Os.Fails _ => (None, None)
  | Os.Content b =>
      match ParseInt10 (TrimSpace b) 8 with
      | None => (None, Some "eror parsing value for NUMA node")
      | Some node => if node <? 0 then (None, None) else (Some node, None)
      end
  end.

(** A file system with one entry. *)
Definition fsWith (path : string) (r : Os.ReadResult) : Os.FileSystem :=
  fun p => if String.eqb p path then r else Os.Fails Os.ENOENT.

(** One GPU (handle 0) at the given bus address with one MIG device
    (handle 1). *)
Definition nodeAt (busId : string) : Library :=
  node [gpuState "GPU-0" busId (oneProfile 1 10240)]
       [migState "MIG-0" 0%nat (mkAttributes 1 1 10240)].

Definition newline : string := String (ascii_of_nat 10) EmptyString.

(** What the specification promises of a decoded event, for a given
    [uintPtr]: on a successful wait the two instance ids are populated
    when the reporting handle is a MIG device and nil when it is not. *)
Definition populated_iff_mig (uintPtr : Z -> option Z) : Prop :=
  forall lib es timeout ev data isMig,
    nvmlWaitForEvent uintPtr lib es timeout = (ev, None) ->
    es (wrap32 timeout) = (data, SUCCESS) ->
    IsMigDeviceHandle (dev lib (EventDevice data)) = (isMig, SUCCESS) ->
    (isMig = true -> GpuInstanceID ev <> None /\ ComputeInstanceID ev <> None)
    /\ (isMig = false -> GpuInstanceID ev = None /\ ComputeInstanceID ev = None).

(** An event set that delivers [data]. *)
Definition delivering (data : EventData) : EventSet :=
  fun _ => (data, SUCCESS).

(** The plugin list [startPlugins] builds in cycle [c]. *)
Definition pluginsOf (env : Main.Env) (c : nat) : list Main.NvidiaDevicePlugin :=
  match Main.setup env c with
  | Main.Plugins ps => ps
  | _ => []
  end.

(** The calls [stopPlugins] makes on the handles of the supervisor. *)
Definition teardown (s : Main.Supervisor) : list Main.Action :=
  map (Main.ActStop (Main.cycle s - 1)) (seq 0 (List.length (Main.plugins s)))
      ++ [Main.ActShutdown].

(** Some [Start] failed in the cycle the supervisor waits in. *)
Definition failedCycle (s : Main.Supervisor) : Prop :=
  snd (Main.startLoop (Main.cycle s - 1) 0 (Main.plugins s)) = true.

(** Whenever a handle is started, the handles started and not yet
    stopped belong to the same cycle. *)
Definition separated (tr : list Main.Action) : Prop :=
  forall tr1 c k ok tr2,
    tr = tr1 ++ Main.ActStart c k ok :: tr2 ->
    forall h, In h (Main.started tr1) -> fst h = c.

(** The same, checked along the calls from the started handles [live]. *)
Fixpoint orderly_from (live : list (nat * nat)) (tr : list Main.Action) : bool :=
  match tr with
  | [] => true
  | a :: tr' =>
      (match a with
       | Main.ActStart c _ _ => forallb (fun h => Nat.eqb (fst h) c) live
       | _ => true
       end) && orderly_from (Main.act live a) tr'
  end.

(** Every started handle serves at least one device. *)
Definition servesDevices (env : Main.Env) (tr : list Main.Action) : Prop :=
  forall c k ok,
    In (Main.ActStart c k ok) tr ->
    exists p, nth_error (pluginsOf env c) k = Some p /\ Main.Devices p <> [].

(** What holds of the supervisor whenever it waits in its loop. *)
Definition supervised (env : Main.Env) (s : Main.Supervisor) : Prop :=
  (1 <= Main.cycle s)%nat
  /\ Main.setup env (Main.cycle s - 1) = Main.Plugins (Main.plugins s)
  /\ Main.started (Main.trace s)
     = Main.started (fst (Main.startLoop (Main.cycle s - 1) 0 (Main.plugins s)))
  /\ orderly_from [] (Main.trace s) = true
  /\ servesDevices env (Main.trace s).

Definition backingOff (s : Main.Supervisor) : Prop :=
  failedCycle s ->
  Main.restartTimeout s = true
  /\ exists tr, Main.trace s = tr ++ [Main.ActArmTimer 30].

Definition supervisedStatus (env : Main.Env) (st : Main.Status) : Prop :=
  match st with
  | Main.Waiting s => supervised env s /\ backingOff s
  | Main.Exited _ tr => orderly_from [] tr = true /\ servesDevices env tr
  | Main.Blocked tr => orderly_from [] tr = true /\ servesDevices env tr
  end.

(** At the supervisor [s] the calls of the cycle it waits in come last:
    after the calls [pre] of the cycles before, the trace holds the calls
    of the start loop and, when a [Start] failed, the arming of the
    timer. *)
Definition cycleLast (s : Main.Supervisor) : Prop :=
  (1 <= Main.cycle s)%nat
  /\ exists pre,
      Main.trace s
      = pre ++ fst (Main.startLoop (Main.cycle s - 1) 0 (Main.plugins s))
            ++ (if snd (Main.startLoop (Main.cycle s - 1) 0 (Main.plugins s))
                then [Main.ActArmTimer 30] else [])
      /\ forall c k ok, In (Main.ActStart c k ok) pre -> (c < Main.cycle s - 1)%nat.

Definition cycleLastStatus (st : Main.Status) : Prop :=
  match st with
  | Main.Waiting s => cycleLast s
  | _ => True
  end.

(** A node with two plugins of which the second cannot reach the
    kubelet, and an NVML that cannot be shut down. *)
Definition twoPlugins : list Main.NvidiaDevicePlugin :=
  [Main.mkPlugin ["GPU-0"] None; Main.mkPlugin ["GPU-1"] (Some "dial kubelet.sock")].

Definition flakyEnv : Main.Env :=
  Main.mkEnv (fun _ => Main.Plugins twoPlugins) (fun _ => Some "driver not loaded").

(** A node with three plugins of which the second cannot reach the
    kubelet. *)
Definition threePlugins : list Main.NvidiaDevicePlugin :=
  [Main.mkPlugin ["GPU-0"] None; Main.mkPlugin ["GPU-1"] (Some "dial kubelet.sock");
   Main.mkPlugin ["GPU-2"] None].

(** That node with an NVML that cannot be shut down. *)
Definition stuckEnv : Main.Env :=
  Main.mkEnv (fun _ => Main.Plugins threePlugins) (fun _ => Some "driver not loaded").

(** The same node once the kubelet answers from the second cycle on;
    one resource has no device then. *)
Definition recoveringEnv : Main.Env :=
  Main.mkEnv
    (fun c => match c with
              | O => Main.Plugins threePlugins
              | _ => Main.Plugins [Main.mkPlugin ["GPU-0"] None;
                                   Main.mkPlugin [] None;
                                   Main.mkPlugin ["GPU-1"] None]
              end)
    (fun _ => None).

(** The supervisor of [recoveringEnv] after its first, failed cycle. *)
Definition failedOnce : Main.Supervisor :=
  Main.mkSup true threePlugins 1 0
             [Main.ActStart 0 0 true; Main.ActStart 0 1 false; Main.ActArmTimer 30].

(** A device the scan passes over: its handle and UUID are read and the
    UUID is another one. *)
Definition passedOver (lib : Library) (uuid : string) (j : Z) : Prop :=
  exists d u,
    DeviceGetHandleByIndex lib j = (d, SUCCESS)
    /\ GetUUID (dev lib d) = (u, SUCCESS) /\ u <> uuid.

(** Two GPUs (handles 0 and 1), the second in MIG mode with one MIG
    device (handle 2) in slot 1 of 3; every registration succeeds. *)
Definition twoGpus : Library :=
  mkLibrary dlPresent (2, SUCCESS)
            (fun i => (Z.to_nat i,
                       if (0 <=? i) && (i <? 2) then SUCCESS
                       else ERROR_INVALID_ARGUMENT))
            (fun h =>
               match h with
               | 0%nat =>
                   mkDeviceState ("GPU-0", SUCCESS) (false, SUCCESS)
                                 (0, 0, SUCCESS)
                                 (mkAttributes 0 0 0, ERROR_INVALID_ARGUMENT)
                                 (oneProfile 7 40960)
                                 (0%nat, ERROR_INVALID_ARGUMENT)
                                 (mkPciInfo (cString "00000000:3B:00.0" 32), SUCCESS)
               | 1%nat => gpuState "GPU-1" "00000000:AF:00.0" (oneProfile 1 5120)
               | 2%nat => migState "MIG-1-0" 1%nat (mkAttributes 1 1 5120)
               | _ => noDevice
               end).

Definition twoGpusQueries : Queries :=
  fun h =>
    match h with
    | 0%nat | 1%nat =>
        mkDeviceQueries (3, SUCCESS)
                        (fun j => if j =? 1 then (2%nat, SUCCESS)
                                  else (0%nat, ERROR_NOT_FOUND))
                        (Z.of_nat h, SUCCESS)
                        (fun _ => SUCCESS)
    | _ =>
        mkDeviceQueries (0, ERROR_INVALID_ARGUMENT)
                        (fun _ => (0%nat, ERROR_INVALID_ARGUMENT))
                        (0, ERROR_NOT_SUPPORTED)
                        (fun _ => ERROR_NOT_SUPPORTED)
    end.

(** The node [twoGpus] when slot 0 of a GPU answers "invalid argument",
    slot 1 holds the MIG device and slot 2 answers "not found". *)
Definition sparseQueries : Queries :=
  fun h =>
    match h with
    | 0%nat | 1%nat =>
        mkDeviceQueries (3, SUCCESS)
                        (fun j => if j =? 0 then (0%nat, ERROR_INVALID_ARGUMENT)
                                  else if j =? 1 then (2%nat, SUCCESS)
                                  else (0%nat, ERROR_NOT_FOUND))
                        (Z.of_nat h, SUCCESS)
                        (fun _ => SUCCESS)
    | _ =>
        mkDeviceQueries (0, ERROR_INVALID_ARGUMENT)
                        (fun _ => (0%nat, ERROR_INVALID_ARGUMENT))
                        (0, ERROR_NOT_SUPPORTED)
                        (fun _ => ERROR_NOT_SUPPORTED)
    end.

(** Nothing stops a walk over the MIG devices: every GPU below [count]
    is read, and each is either without MIG enabled or tells the number
    of its slots, every one of which answers with a handle, with "not
    found" or with "invalid argument". *)
Definition walkable (lib : Library) (q : Queries) (count : Z) : Prop :=
  forall i, 0 <= i < count ->
    exists gpu,
      DeviceGetHandleByIndex lib i = (gpu, SUCCESS)
      /\ (isMigEnabled lib gpu = (false, None)
          \/ (isMigEnabled lib gpu = (true, None)
              /\ exists maxCount,
                  GetMaxMigDeviceCount (q gpu) = (maxCount, SUCCESS)
                  /\ forall j, 0 <= j < maxCount ->
                       In (snd (GetMigDeviceHandleByIndex (q gpu) j))
                          [SUCCESS; ERROR_NOT_FOUND; ERROR_INVALID_ARGUMENT])).

(** The GPUs of a node in index order, each with the handle the library
    gives for it. *)
Definition gpuHandles (lib : Library) (count : Z) : list (Z * Nvml.Device) :=
  map (fun i => (i, fst (DeviceGetHandleByIndex lib i))) (upto count).

(** The characters [fmt.Sprintf("%d", n)] can produce. *)
Definition numericChar (a : ascii) : bool :=
  let n := nat_of_ascii a in
  ((Nat.leb 48 n && Nat.leb n 57) || Nat.eqb n 45)%bool.

Fixpoint allNumeric (s : string) : bool :=
  match s with
  | EmptyString => true
  | String a s' => numericChar a && allNumeric s'
  end.

(** The profiles of slot [j] of [gpu] are among [names]. *)
Definition slotCovered (lib : Library) (gpu : Nvml.Device) (names : list string)
           (j : Z) : Prop :=
  forall info,
    GetGpuInstanceProfileInfo (dev lib gpu) j = (info, SUCCESS) ->
    In (giProfileName (SliceCount info) (ProfileMemorySizeMB info)) names.

(** The profiles of the MIG-capable GPU with index [i], in the slots
    below [N], are among [names]. *)
Definition gpuCovered (lib : Library) (N : Z) (names : list string) (i : Z) : Prop :=
  forall gpu j,
    DeviceGetHandleByIndex lib i = (gpu, SUCCESS) ->
    isMigCapable lib gpu = (true, None) ->
    0 <= j < N ->
    slotCovered lib gpu names j.

(** [(i, j, d)] is a MIG device of the node: GPU [i] has MIG enabled
    and [d] is the handle in its slot [j]. *)
Definition migSlot (lib : Library) (q : Queries) (count : Z)
           (x : Z * Z * Nvml.Device) : Prop :=
  exists gpu maxCount,
    0 <= fst (fst x) < count
    /\ DeviceGetHandleByIndex lib (fst (fst x)) = (gpu, SUCCESS)
    /\ isMigEnabled lib gpu = (true, None)
    /\ GetMaxMigDeviceCount (q gpu) = (maxCount, SUCCESS)
    /\ 0 <= snd (fst x) < maxCount
    /\ GetMigDeviceHandleByIndex (q gpu) (snd (fst x)) = (snd x, SUCCESS).

(** No handle is started once [start] has returned or blocks. *)
Definition drainedStatus (st : Main.Status) : Prop :=
  match st with
  | Main.Waiting _ => True
  | Main.Exited _ tr => Main.started tr = []
  | Main.Blocked tr => Main.started tr = []
  end.

(** Reading the calls in order: [Some pending] while a failed [Start] is
    answered by arming the 30-second timer and the timer is armed for no
    other reason, [pending] telling that the last call was a failed
    [Start]; [None] once this is broken. *)
Definition backoffStep (st : option bool) (a : Main.Action) : option bool :=
  match st with
  | None => None
  | Some pending =>
      match a with
      | Main.ActArmTimer n => if pending && (n =? 30) then Some false else None
      | Main.ActStart _ _ false => if pending then None else Some true
      | _ => if pending then None else Some false
      end
  end.

Definition backoffFrom (st : option bool) (tr : list Main.Action) : option bool :=
  fold_left backoffStep tr st.

(** The rename an entry must have for
    [disableResourceRenamingInConfig] to leave it alone. *)
Definition acceptedRename (DefaultSharedRename : string -> string)
           (renameByDefault : bool) (r : Spec.TimeSlicedResource) : string :=
  if renameByDefault then DefaultSharedRename (Spec.Name r) else "".

(** The entry as [disableResourceRenamingInConfig] leaves it. *)
Definition normalEntry (DefaultSharedRename : string -> string)
           (renameByDefault : bool) (r : Spec.TimeSlicedResource)
  : Spec.TimeSlicedResource :=
  Spec.mkTimeSlicedResource
    (Spec.Name r)
    (acceptedRename DefaultSharedRename renameByDefault r)
    (if Spec.All (Spec.Devices r) then Spec.Devices r
     else Spec.mkTimeSlicedDevices true 0 None)
    (Spec.Replicas r).

(** A name that gets the suffix [.shared] by default, for evaluating. *)
Definition sharedSuffix (name : string) : string := (name ++ ".shared")%string.

Definition customConfig : Spec.Config string :=
  Spec.mkConfig
    (Some ["nvidia.com/gpu"]) None false
    [Spec.mkTimeSlicedResource "nvidia.com/gpu" "nvidia.com/shared-gpu"
                               (Spec.mkTimeSlicedDevices false 2 (Some ["0"; "1"])) 4;
     Spec.mkTimeSlicedResource "nvidia.com/mig-1g.5gb" ""
                               (Spec.mkTimeSlicedDevices true 0 None) 2].

(** A configuration whose resource lists are empty but not nil and whose
    one time-sliced entry is as the function leaves it. *)
Definition emptyListsConfig : Spec.Config string :=
  Spec.mkConfig
    (Some []) (Some []) false
    [Spec.mkTimeSlicedResource "nvidia.com/gpu" ""
                               (Spec.mkTimeSlicedDevices true 0 None) 2].

(** The node [twoGpus] with a driver library that lacks the symbol
    [nvmlDeviceIsMigDeviceHandle]. *)
Definition oldDriver : Library :=
  mkLibrary
    (mkDL true None
          (fun symbol =>
             if String.eqb symbol "nvmlDeviceIsMigDeviceHandle"
             then Some "undefined symbol" else None))
    (DeviceGetCount twoGpus) (DeviceGetHandleByIndex twoGpus) (dev twoGpus).

(* ================================================================= *)
(** * Properties *)

(* ----------------------------------------------------------------- *)
(** ** Device sets *)

Lemma lookup_Some (ds : Devices) (id : string) (d : Device) :
  lookup ds id = Some d -> In d ds /\ ID d = id.
Proof.
  unfold lookup; intros H.
  apply find_some in H as [Hin Heq].
  split; [assumption | now apply String.eqb_eq].
Qed.

Lemma Contains_In (ds : Devices) (id : string) :
  Contains ds id = true <-> In id (GetIDs ds).
Proof.
  unfold Contains, lookup, GetIDs; split.
  - destruct (find _ ds) as [d|] eqn:E; [intros _ | discriminate].
    apply find_some in E as [Hin Heq].
    apply String.eqb_eq in Heq.
    apply in_map_iff; eauto.
  - intros H; apply in_map_iff in H as (d & Hd & Hin).
    destruct (find _ ds) eqn:E; [reflexivity|].
    eapply find_none in E; [|exact Hin].
    simpl in E; rewrite Hd, String.eqb_refl in E; discriminate.
Qed.

Lemma Contains_false (ds : Devices) (id : string) :
  Contains ds id = false <-> ~ In id (GetIDs ds).
Proof.
  rewrite <- Contains_In.
  destruct (Contains ds id); split; congruence.
Qed.

Lemma Subset_fold (ds : Devices) (ids : list string) :
  Subset ds ids = fold_left (pick ds) ids [].
Proof. reflexivity. Qed.

Lemma pick_ids (ds res : Devices) (id : string) :
  GetIDs (pick ds res id) =
  if (Contains ds id && negb (Contains res id))%bool
  then GetIDs res ++ [id] else GetIDs res.
Proof.
  replace (Contains ds id)
    with (match lookup ds id with Some _ => true | None => false end)
    by reflexivity.
  unfold pick.
  destruct (lookup ds id) as [d|] eqn:E; simpl; [|reflexivity].
  apply lookup_Some in E as [_ <-].
  destruct (Contains res (ID d)); simpl; [reflexivity|].
  unfold GetIDs; rewrite map_app; reflexivity.
Qed.

Lemma fold_pick_In (ds : Devices) (ids : list string) :
  forall (acc : Devices) (id : string),
    In id (GetIDs (fold_left (pick ds) ids acc)) <->
    In id (GetIDs acc) \/ (In id ids /\ Contains ds id = true).
Proof.
  induction ids as [|a ids IH]; simpl; intros acc id.
  - tauto.
  - rewrite IH, pick_ids.
    destruct (Contains ds a) eqn:Ea; destruct (Contains acc a) eqn:Eb; simpl.
    + apply Contains_In in Eb.
      split; [tauto|].
      intros [H|[[->|H] Hc]]; auto.
    + rewrite in_app_iff; simpl.
      split.
      * intros [[H|[->|[]]]|H]; auto. tauto.
      * intros [H|[[->|H] Hc]]; auto.
    + split; [tauto|].
      intros [H|[[->|H] Hc]]; auto; congruence.
    + split; [tauto|].
      intros [H|[[->|H] Hc]]; auto; congruence.
Qed.

Lemma fold_pick_NoDup (ds : Devices) (ids : list string) :
  forall acc : Devices,
    NoDup (GetIDs acc) -> NoDup (GetIDs (fold_left (pick ds) ids acc)).
Proof.
  induction ids as [|a ids IH]; simpl; intros acc Hnd; [assumption|].
  apply IH; rewrite pick_ids.
  destruct (Contains ds a && negb (Contains acc a))%bool eqn:E; [|assumption].
  apply andb_true_iff in E as [_ E]; apply negb_true_iff in E.
  apply Contains_false in E.
  apply NoDup_app; [assumption | repeat constructor; intros [] |].
  intros x Hx [<-|[]]; contradiction.
Qed.

Lemma fold_pick_all (ds : Devices) (ids : list string) :
  forall acc : Devices,
    NoDup ids ->
    (forall id, In id ids -> Contains ds id = true) ->
    (forall id, In id ids -> ~ In id (GetIDs acc)) ->
    GetIDs (fold_left (pick ds) ids acc) = GetIDs acc ++ ids.
Proof.
  induction ids as [|a ids IH]; simpl; intros acc Hnd Hall Hfresh.
  - now rewrite app_nil_r.
  - inversion Hnd as [|? ? Ha Hnd']; subst.
    assert (Hp : GetIDs (pick ds acc a) = GetIDs acc ++ [a]).
    { rewrite pick_ids, (Hall a (or_introl eq_refl)).
      assert (E : Contains acc a = false)
        by (apply Contains_false, Hfresh; now left).
      now rewrite E. }
    rewrite IH; auto.
    + rewrite Hp, <- app_assoc; reflexivity.
    + intros id Hid; rewrite Hp, in_app_iff; simpl.
      intros [H|[->|[]]]; [|contradiction].
      apply (Hfresh id); auto.
Qed.

Lemma Subset_In (ds : Devices) (ids : list string) (id : string) :
  In id (GetIDs (Subset ds ids)) <-> In id ids /\ In id (GetIDs ds).
Proof.
  rewrite Subset_fold, fold_pick_In, Contains_In; simpl; tauto.
Qed.

Lemma Subset_NoDup (ds : Devices) (ids : list string) :
  NoDup (GetIDs (Subset ds ids)).
Proof. rewrite Subset_fold; apply fold_pick_NoDup; constructor. Qed.

Lemma Subset_all (ds : Devices) (ids : list string) :
  NoDup ids -> incl ids (GetIDs ds) -> GetIDs (Subset ds ids) = ids.
Proof.
  intros Hnd Hall.
  rewrite Subset_fold, fold_pick_all; auto.
  intros id Hid; apply Contains_In, Hall, Hid.
Qed.

(* ----------------------------------------------------------------- *)
(** ** The fallback policy's candidate list *)

Lemma remainder_filter (r : resourceManager) (available required : list string) :
  remainder r available required =
  filter (fun id => negb (Contains (Subset (devices r) required) id))
         (GetIDs (Subset (devices r) available)).
Proof.
  unfold remainder, Difference, GetIDs.
  now rewrite filter_map_swap.
Qed.

Lemma remainder_In (r : resourceManager) (available required : list string)
      (id : string) :
  In id (remainder r available required) <->
  In id available /\ In id (GetIDs (devices r)) /\ ~ In id required.
Proof.
  rewrite remainder_filter, filter_In, Subset_In, negb_true_iff,
    Contains_false, Subset_In.
  tauto.
Qed.

Lemma remainder_NoDup (r : resourceManager) (available required : list string) :
  NoDup (remainder r available required).
Proof. rewrite remainder_filter; apply NoDup_filter, Subset_NoDup. Qed.

Lemma candidates_NoDup (r : resourceManager) (available required : list string) :
  NoDup required -> NoDup (candidates r available required).
Proof.
  intros Hnd; unfold candidates.
  apply NoDup_app; [assumption | apply remainder_NoDup |].
  intros id Hin Hrem; apply remainder_In in Hrem; tauto.
Qed.

Lemma NoDup_firstn {A : Type} (n : nat) (l : list A) :
  NoDup l -> NoDup (firstn n l).
Proof.
  intros H; rewrite <- (firstn_skipn n l) in H.
  now apply NoDup_app_remove_r in H.
Qed.

(** Splitting a duplicate-free list by membership in a duplicate-free
    sub-list. *)
Lemma filter_out_length (req av : list string) :
  NoDup req -> NoDup av -> incl req av ->
  (List.length req
   + List.length (filter (fun id => negb (existsb (String.eqb id) req)) av)
   = List.length av)%nat.
Proof.
  intros Hr Ha Hincl.
  rewrite <- (filter_length (fun id => existsb (String.eqb id) req) av).
  f_equal.
  apply Permutation_length, NoDup_Permutation;
    [assumption | now apply NoDup_filter |].
  intros id; rewrite filter_In, existsb_exists; split.
  - intros H; split; [now apply Hincl|].
    exists id; split; [assumption | apply String.eqb_refl].
  - intros [_ (x & Hx & E)]; apply String.eqb_eq in E; now subst.
Qed.

Lemma candidates_full_length (r : resourceManager) (available required : list string) :
  NoDup required -> NoDup available -> incl required available ->
  incl available (GetIDs (devices r)) ->
  List.length (candidates r available required) = List.length available.
Proof.
  intros Hr Ha Hincl Hall.
  unfold candidates; rewrite length_app, remainder_filter, Subset_all by assumption.
  rewrite <- (filter_out_length required available) by assumption.
  f_equal; f_equal.
  apply filter_ext_in; intros id Hid; f_equal.
  destruct (existsb (String.eqb id) required) eqn:E.
  - apply Contains_In, Subset_In.
    apply existsb_exists in E as (x & Hx & E).
    apply String.eqb_eq in E; subst; split; auto.
  - apply Contains_false; rewrite Subset_In; intros [Hin _].
    assert (existsb (String.eqb id) required = true); [|congruence].
    apply existsb_exists; exists id; split; [assumption | apply String.eqb_refl].
Qed.

(* ----------------------------------------------------------------- *)
(** ** Policy selection *)

Lemma ContainsMigDevices_false (ds : Devices) :
  ContainsMigDevices ds = false <-> partitionFree ds.
Proof.
  unfold ContainsMigDevices, partitionFree.
  induction ds as [|d ds IH]; simpl.
  - split; [intros _ d [] | reflexivity].
  - rewrite orb_false_iff, IH; split.
    + intros [Hd Hds] x [<-|Hx]; auto.
    + intros H; split; [apply H | intros x Hx; apply H]; auto.
Qed.

Lemma AnyHasAnnotations_false (HasAnnotations : string -> bool)
      (available : list string) :
  AnyHasAnnotations HasAnnotations available = false <->
  unannotated HasAnnotations available.
Proof.
  unfold AnyHasAnnotations, unannotated.
  induction available as [|a l IH]; simpl.
  - split; [intros _ a [] | reflexivity].
  - rewrite orb_false_iff, IH; split.
    + intros [Ha Hl] x [<-|Hx]; auto.
    + intros H; split; [apply H | intros x Hx; apply H]; auto.
Qed.

Section PolicySelection.

Variable HasAnnotations : string -> bool.
Variable GDevice : Type.
Variable GDevice_UUID : GDevice -> string.
Variable NewDevicesFrom : list string -> list GDevice * option error.
Variable Allocate : list GDevice -> list GDevice -> Z -> list GDevice.

(** C1.  [getPreferredAllocation] runs the topology-aware
    [alignedAlloc] when the manager's device set has no partition and
    no element of [available] carries a qualifier, and it runs the
    fallback [alloc] in every other case; this holds for every device
    set and every [available], [required] and [size]. *)
Theorem getPreferredAllocation_policy
        (r : resourceManager) (available required : list string) (size : Z) :
  (partitionFree (Devices_of r) /\ unannotated HasAnnotations available ->
   getPreferredAllocation HasAnnotations GDevice GDevice_UUID NewDevicesFrom
                          Allocate r available required size
   = Returns (alignedAlloc GDevice GDevice_UUID NewDevicesFrom Allocate
                           r available required size))
  /\
  (~ (partitionFree (Devices_of r) /\ unannotated HasAnnotations available) ->
   getPreferredAllocation HasAnnotations GDevice GDevice_UUID NewDevicesFrom
                          Allocate r available required size
   = alloc r available required size).
Proof.
  unfold getPreferredAllocation; split.
  - intros [Hp Ha].
    apply ContainsMigDevices_false in Hp.
    apply AnyHasAnnotations_false in Ha.
    now rewrite Hp, Ha.
  - intros Hn.
    destruct (ContainsMigDevices (Devices_of r)) eqn:Ep; [reflexivity|].
    destruct (AnyHasAnnotations HasAnnotations available) eqn:Ea; [reflexivity|].
    exfalso; apply Hn; split.
    + now apply ContainsMigDevices_false.
    + now apply AnyHasAnnotations_false.
Qed.

(** One partition anywhere in the device set selects the fallback. *)
Lemma one_partition_selects_fallback
      (ds1 ds2 : Devices) (d : Device)
      (available required : list string) (size : Z) :
  isPartition d = true ->
  getPreferredAllocation HasAnnotations GDevice GDevice_UUID NewDevicesFrom
                         Allocate (mkRM (ds1 ++ d :: ds2)) available required size
  = alloc (mkRM (ds1 ++ d :: ds2)) available required size.
Proof.
  intros Hd; unfold getPreferredAllocation, Devices_of; simpl.
  unfold ContainsMigDevices; rewrite existsb_app; simpl.
  now rewrite Hd, orb_true_r.
Qed.

(** One qualified id anywhere in [available] selects the fallback. *)
Lemma one_annotation_selects_fallback
      (r : resourceManager) (av1 av2 : list string) (a : string)
      (required : list string) (size : Z) :
  HasAnnotations a = true ->
  getPreferredAllocation HasAnnotations GDevice GDevice_UUID NewDevicesFrom
                         Allocate r (av1 ++ a :: av2) required size
  = alloc r (av1 ++ a :: av2) required size.
Proof.
  intros Ha; unfold getPreferredAllocation.
  unfold AnyHasAnnotations; rewrite existsb_app; simpl.
  now rewrite Ha, orb_true_r, andb_false_r.
Qed.

End PolicySelection.

Lemma getPreferredAllocation_policy_witness :
  (partitionFree (Devices_of fleetAB) /\ unannotated qualified ["A"; "B"])
  /\ decideAB fleetAB ["A"; "B"] ["A"] 1 = Returns (["A"], None).
Proof.
  assert (H : partitionFree (Devices_of fleetAB) /\ unannotated qualified ["A"; "B"]).
  { split.
    - intros d [<-|[<-|[]]]; reflexivity.
    - intros a [<-|[<-|[]]]; reflexivity. }
  split; [exact H|].
  exact (proj1 (getPreferredAllocation_policy
                  qualified string (fun u => u) (fun ids => (ids, None))
                  takeFirst fleetAB ["A"; "B"] ["A"] 1) H).
Defined.

(* ----------------------------------------------------------------- *)
(** ** The fallback policy *)

(** C2 as stated fails: ids of [available] that are not members of the
    current device set do not count, and a [size] below [len(required)]
    cuts [required] short. *)
Lemma alloc_postconditions_counterexample :
  (NoDup (@nil string) /\ NoDup ["A"; "B"] /\ incl [] ["A"; "B"]
   /\ 2 <= Z.of_nat (List.length ["A"; "B"])
   /\ alloc (mkRM []) ["A"; "B"] [] 2 = Returns ([], Some insufficient)
   /\ ~ fallback_postconditions (mkRM []) ["A"; "B"] [] 2)
  /\
  (NoDup ["A"; "B"] /\ incl ["A"; "B"] ["A"; "B"]
   /\ 1 <= Z.of_nat (List.length ["A"; "B"])
   /\ alloc fleetAB ["A"; "B"] ["A"; "B"] 1 = Returns (["A"], None)
   /\ ~ fallback_postconditions fleetAB ["A"; "B"] ["A"; "B"] 1).
Proof.
  assert (Hab : NoDup ["A"; "B"]).
  { repeat constructor; simpl; intuition discriminate. }
  split.
  - split; [constructor|].
    split; [assumption|].
    split; [intros x []|].
    split; [simpl; lia|].
    split; [reflexivity|].
    intros (res & H & _); vm_compute in H; discriminate.
  - split; [assumption|].
    split; [apply incl_refl|].
    split; [simpl; lia|].
    split; [reflexivity|].
    intros (res & H & _ & Hincl & _).
    vm_compute in H; injection H as <-.
    destruct (Hincl "B") as [E|[]]; [simpl; auto | discriminate].
Qed.

(** C2 (amended).  For every device set and all duplicate-free
    [required] and [available] with [required] included in [available],
    every id of [available] a member of the current device set, and
    [len(required) <= size <= len(available)], the fallback [alloc]
    succeeds and its result has length [size], contains every id of
    [required], starts with [required] in the caller's order, and has no
    duplicate id. *)
Theorem alloc_postconditions
        (r : resourceManager) (available required : list string) (size : Z) :
  NoDup required -> NoDup available -> incl required available ->
  incl available (GetIDs (devices r)) ->
  Z.of_nat (List.length required) <= size <= Z.of_nat (List.length available) ->
  fallback_postconditions r available required size.
Proof.
  intros Hr Ha Hincl Hall [Hlo Hhi].
  pose proof (candidates_full_length r available required Hr Ha Hincl Hall) as Hlen.
  exists (firstn (Z.to_nat size) (candidates r available required)).
  unfold alloc; rewrite Hlen.
  destruct (Z.ltb_spec (Z.of_nat (List.length available)) size); [lia|].
  destruct (Z.ltb_spec size 0); [lia|].
  split; [reflexivity|].
  assert (Hsplit : firstn (Z.to_nat size) (candidates r available required)
                   = required ++ firstn (Z.to_nat size - List.length required)
                                        (remainder r available required)).
  { unfold candidates; rewrite firstn_app, firstn_all2 by lia; reflexivity. }
  repeat split.
  - rewrite length_firstn, Hlen; lia.
  - rewrite Hsplit; apply incl_appl, incl_refl.
  - rewrite Hsplit, firstn_app, Nat.sub_diag, firstn_all; simpl.
    apply app_nil_r.
  - apply NoDup_firstn, candidates_NoDup, Hr.
Qed.

Lemma alloc_postconditions_witness :
  fallback_postconditions fleetAB ["A"; "B"] ["B"] 2.
Proof.
  apply alloc_postconditions.
  - repeat constructor; simpl; intuition discriminate.
  - repeat constructor; simpl; intuition discriminate.
  - intros a [<-|[]]; simpl; auto.
  - intros a [<-|[<-|[]]]; simpl; auto.
  - simpl; lia.
Defined.

(** C3 as stated fails where [required] repeats an id: the candidate
    list is then longer than the union. *)
Lemma alloc_failure_counterexample :
  2 > union_size [] ["A"; "A"]
  /\ alloc (mkRM []) [] ["A"; "A"] 2 = Returns (["A"; "A"], None).
Proof. split; reflexivity. Qed.

(** C3 (amended).  The fallback [alloc] returns the insufficient-devices
    error exactly when the candidate list [required ++ remainder] is
    shorter than [size]; whenever it returns an error, that is the error
    and no id list comes with it; and for every input whose [required]
    has no duplicate it fails so when [size] exceeds the number of ids in
    the union of [available] and [required]. *)
Theorem alloc_failure
        (r : resourceManager) (available required : list string) (size : Z) :
  (alloc r available required size = Returns ([], Some insufficient)
   <-> Z.of_nat (List.length (candidates r available required)) < size)
  /\ (forall ids e,
         alloc r available required size = Returns (ids, Some e) ->
         ids = [] /\ e = insufficient)
  /\ (NoDup required ->
      size > union_size available required ->
      alloc r available required size = Returns ([], Some insufficient)).
Proof.
  assert (Hiff : alloc r available required size = Returns ([], Some insufficient)
                 <-> Z.of_nat (List.length (candidates r available required)) < size).
  { unfold alloc.
    destruct (Z.ltb_spec (Z.of_nat (List.length (candidates r available required))) size).
    - tauto.
    - destruct (size <? 0); split; intros; try discriminate; lia. }
  split; [exact Hiff|]; split.
  - intros ids e; unfold alloc.
    destruct (_ <? size); [intros H; injection H as <- <-; auto|].
    destruct (size <? 0); discriminate.
  - intros Hr Hsize; apply Hiff.
    unfold union_size in Hsize.
    assert (List.length (candidates r available required)
            <= List.length (nodup string_dec (available ++ required)))%nat; [|lia].
    apply NoDup_incl_length; [now apply candidates_NoDup|].
    intros id; unfold candidates; rewrite in_app_iff, nodup_In, in_app_iff.
    rewrite remainder_In; tauto.
Qed.

Lemma alloc_failure_witness :
  (NoDup ["B"] /\ 3 > union_size ["A"; "B"] ["B"])
  /\ alloc (mkRM [migDevice "A" "P"; fullDevice "B"]) ["A"; "B"] ["B"] 3
     = Returns ([], Some insufficient).
Proof.
  assert (H1 : NoDup ["B"]) by (repeat constructor; intros []).
  assert (H2 : 3 > union_size ["A"; "B"] ["B"]) by reflexivity.
  split; [split; assumption|].
  exact (proj2 (proj2 (alloc_failure
                         (mkRM [migDevice "A" "P"; fullDevice "B"])
                         ["A"; "B"] ["B"] 3)) H1 H2).
Defined.

(** C10.  The [required] list enters the candidate list unfiltered: a
    successful fallback [alloc] returns the first [size] entries of
    [required ++ remainder], so the ids of [required] that fall within
    the first [size] entries are in the result, in order, whether or not
    they are in [available] or in the device set; only the remainder is
    restricted to ids of [available] that are members of the device set
    and not in [required]; and a result can hold an id that is neither
    in [available] nor in the device set. *)
Theorem alloc_required_unfiltered
        (r : resourceManager) (available required : list string) (size : Z)
        (res : list string) :
  alloc r available required size = Returns (res, None) ->
  res = firstn (Z.to_nat size) (required ++ remainder r available required)
  /\ firstn (List.length required) res = firstn (Z.to_nat size) required
  /\ (forall id, In id (remainder r available required) <->
                 In id available /\ In id (GetIDs (devices r))
                 /\ ~ In id required)
  /\ (exists r' available' required' size' res' id,
         alloc r' available' required' size' = Returns (res', None)
         /\ In id res' /\ ~ In id available'
         /\ ~ In id (GetIDs (devices r'))).
Proof.
  intros H.
  assert (Hres : res = firstn (Z.to_nat size)
                              (required ++ remainder r available required)).
  { unfold alloc, candidates in H.
    destruct (_ <? size); [discriminate|].
    destruct (size <? 0); [discriminate|].
    now injection H as <-. }
  split; [exact Hres|]; split; [|split].
  - rewrite Hres, firstn_firstn, firstn_app.
    replace (Init.Nat.min (List.length required) (Z.to_nat size)
             - List.length required)%nat with 0%nat by lia.
    simpl; rewrite app_nil_r.
    destruct (Nat.le_ge_cases (Z.to_nat size) (List.length required)) as [Hle|Hge].
    + now rewrite Nat.min_r.
    + rewrite Nat.min_l by assumption.
      now rewrite !firstn_all2 by lia.
  - intros id; apply remainder_In.
  - exists (mkRM []), [], ["X"], 1, ["X"], "X".
    repeat split; simpl; auto.
Qed.

Lemma alloc_required_unfiltered_witness :
  alloc fleetAB ["A"] ["X"; "B"] 3 = Returns (["X"; "B"; "A"], None)
  /\ firstn 2 ["X"; "B"; "A"] = firstn 3 ["X"; "B"].
Proof.
  assert (H : alloc fleetAB ["A"] ["X"; "B"] 3 = Returns (["X"; "B"; "A"], None))
    by reflexivity.
  split; [exact H|].
  exact (proj1 (proj2 (alloc_required_unfiltered
                         fleetAB ["A"] ["X"; "B"] 3 ["X"; "B"; "A"] H))).
Defined.

(* ----------------------------------------------------------------- *)
(** ** Profile names *)

Lemma memGB_exact (memMB : Z) :
  0 <= memMB <= 2 ^ 64 - 1024 -> memGB memMB = (memMB + 1023) / 1024.
Proof.
  intros H; unfold memGB, wrap64.
  destruct (Z.eq_dec memMB (2 ^ 64 - 1024)) as [->|Hne]; [reflexivity|].
  rewrite (Z.mod_small (memMB + 1024)) by lia.
  rewrite Z.mod_small by lia.
  f_equal; lia.
Qed.

Lemma memGB_ceiling (memMB : Z) :
  0 <= memMB <= 2 ^ 64 - 1024 ->
  1024 * (memGB memMB - 1) < memMB <= 1024 * memGB memMB.
Proof.
  intros H; rewrite memGB_exact by assumption.
  pose proof (Z.div_mod (memMB + 1023) 1024 ltac:(lia)) as Hdm.
  pose proof (Z.mod_pos_bound (memMB + 1023) 1024 ltac:(lia)) as Hb.
  lia.
Qed.

Lemma getMigProfile_attributes (lib : Library) (d : nvmlDevice) (g c memMB : Z) :
  isMigDevice lib d = (true, None) ->
  GetAttributes (dev lib d) = (mkAttributes g c memMB, SUCCESS) ->
  getMigProfile lib d = (profileName g c (memGB memMB), None).
Proof.
  intros Hmig Hattr; unfold getMigProfile, profileName.
  rewrite Hmig, Hattr; simpl.
  now destruct (g =? c).
Qed.

(** C4 as stated fails at the top of the [uint64] range, where
    [memMB + 1024] wraps around: the rounded-up value of
    [2^64 - 1] MiB is [2^54] GiB, the code names it [0gb]. *)
Lemma getMigProfile_counterexample :
  getMigProfile (nodeWith 1 1 18446744073709551615) 1%nat = ("1g.0gb", None)
  /\ ~ (18446744073709551615 <= 1024 * 0).
Proof. split; [reflexivity | lia]. Qed.

(** C4 (amended).  For every partition with GPU-instance slice count
    [g], compute-instance slice count [c] and memory size [memMB] of at
    most [2^64 - 1024] MiB, [getMigProfile] returns ["{g}g.{memGB}gb"]
    when [g = c] and ["{c}c.{g}g.{memGB}gb"] otherwise, where [memGB] is
    [memMB / 1024] rounded up to the next integer. *)
Theorem getMigProfile_name (lib : Library) (d : nvmlDevice) (g c memMB : Z) :
  isMigDevice lib d = (true, None) ->
  GetAttributes (dev lib d) = (mkAttributes g c memMB, SUCCESS) ->
  0 <= memMB <= 2 ^ 64 - 1024 ->
  exists gb,
    1024 * (gb - 1) < memMB <= 1024 * gb
    /\ getMigProfile lib d
       = (if g =? c then (fmt_d g ++ "g." ++ fmt_d gb ++ "gb")%string
          else (fmt_d c ++ "c." ++ fmt_d g ++ "g." ++ fmt_d gb ++ "gb")%string,
          None).
Proof.
  intros Hmig Hattr Hrange.
  exists (memGB memMB); split; [now apply memGB_ceiling|].
  now rewrite (getMigProfile_attributes lib d g c memMB).
Qed.

Lemma getMigProfile_name_witness :
  exists gb,
    1024 * (gb - 1) < 10241 <= 1024 * gb
    /\ getMigProfile (nodeWith 2 1 10241) 1%nat
       = (if 2 =? 1 then (fmt_d 2 ++ "g." ++ fmt_d gb ++ "gb")%string
          else (fmt_d 1 ++ "c." ++ fmt_d 2 ++ "g." ++ fmt_d gb ++ "gb")%string,
          None).
Proof.
  apply (getMigProfile_name (nodeWith 2 1 10241) 1%nat 2 1 10241).
  - reflexivity.
  - reflexivity.
  - lia.
Defined.

Example getMigProfile_1g_10gb :
  getMigProfile (nodeWith 1 1 10240) 1%nat = ("1g.10gb", None).
Proof. reflexivity. Qed.

Example getMigProfile_1c_2g_20gb :
  getMigProfile (nodeWith 2 1 20480) 1%nat = ("1c.2g.20gb", None).
Proof. reflexivity. Qed.

Example memGB_10241 : memGB 10241 = 11.
Proof. reflexivity. Qed.

(* ----------------------------------------------------------------- *)
(** ** Walking the GPU-instance profiles *)

(** An invariant [P] of a loop holds after it when no error left it; a
    body that leaves with an error establishes [Q]. *)
Lemma forEach_inv {St I : Type} (body : I -> St -> St * option error)
      (P Q : St -> Prop) :
  (forall i st, P st ->
     match body i st with
     | (st', None) => P st'
     | (st', Some _) => Q st'
     end) ->
  forall idx st, P st ->
    match forEach body idx st with
    | (st', None) => P st'
    | (st', Some _) => Q st'
    end.
Proof.
  intros Hbody; induction idx as [|i idx IH]; simpl; intros st HP.
  - assumption.
  - specialize (Hbody i st HP).
    destruct (body i st) as [st' [e|]]; [assumption|].
    now apply IH.
Qed.

(** Two loops whose bodies keep a relation between their states, and
    agree on the error, end in related states with the same error. *)
Lemma forEach_sim {S1 S2 I : Type}
      (b1 : I -> S1 -> S1 * option error) (b2 : I -> S2 -> S2 * option error)
      (R : S1 -> S2 -> Prop) :
  (forall i s1 s2, R s1 s2 ->
     R (fst (b1 i s1)) (fst (b2 i s2)) /\ snd (b1 i s1) = snd (b2 i s2)) ->
  forall idx s1 s2, R s1 s2 ->
    R (fst (forEach b1 idx s1)) (fst (forEach b2 idx s2))
    /\ snd (forEach b1 idx s1) = snd (forEach b2 idx s2).
Proof.
  intros Hb; induction idx as [|i idx IH]; simpl; intros s1 s2 HR.
  - auto.
  - destruct (Hb i s1 s2 HR) as [HR' He].
    destruct (b1 i s1) as [s1' e1]; destruct (b2 i s2) as [s2' e2].
    simpl in *; subst e2.
    destruct e1; simpl; auto.
Qed.

Lemma mem_member_false (p : string) (visited : list string) :
  mem_member p visited = false -> ~ In p visited.
Proof.
  unfold mem_member; intros H Hin.
  assert (existsb (String.eqb p) visited = true); [|congruence].
  apply existsb_exists; exists p; split; [assumption | apply String.eqb_refl].
Qed.

Section WalkFacts.

Variable N : Z.
Context {St : Type}.
Variable f : string -> St -> St * option error.
Variable lib : Library.

Lemma walking_walked (vs : list string * (list string * St)) :
  walking lib vs -> walked lib vs.
Proof. unfold walking, walked; tauto. Qed.

Lemma walkProfileSlot_inv (gpu : Nvml.Device) (i : Z) vs :
  walking lib vs ->
  match walkProfileSlot (logged f) lib gpu i vs with
  | (vs', None) => walking lib vs'
  | (vs', Some _) => walked lib vs'
  end.
Proof.
  destruct vs as [visited [log st]]; intros Hw.
  pose proof (walking_walked _ Hw) as Hq.
  unfold walkProfileSlot.
  destruct (GetGpuInstanceProfileInfo (dev lib gpu) i) as [info ret] eqn:Einfo.
  destruct ret; try assumption.
  destruct (mem_member _ visited) eqn:Em; [assumption|].
  apply mem_member_false in Em.
  destruct Hw as (Hnd & Hincl & Hoff); simpl in Hnd, Hincl, Hoff.
  assert (Hoff' : offered lib (fmt_d (SliceCount info) ++ "g."
                                ++ fmt_d (memGB (ProfileMemorySizeMB info))
                                ++ "gb")%string)
    by (exists gpu, i, info; split; [assumption | reflexivity]).
  unfold logged.
  destruct (f _ st) as [st' [err|]]; simpl.
  - split; simpl; constructor; auto.
  - repeat split; simpl.
    + constructor; auto.
    + intros x [<-|Hx]; simpl; auto.
    + constructor; auto.
Qed.

Lemma walkMigProfiles_inv (st : St) :
  walked lib ([], fst (walkMigProfiles N (logged f) lib ([], st))).
Proof.
  unfold walkMigProfiles, walkGPUDevices.
  assert (H0 : walking lib ([], ([], st))).
  { repeat split; simpl; [constructor | intros x [] | constructor]. }
  destruct (DeviceGetCount lib) as [count ret].
  destruct (negb (isSuccess ret)).
  { simpl; now apply walking_walked in H0. }
  match goal with
  | |- context [forEach ?b ?idx ?s] =>
      pose proof (forEach_inv b (walking lib) (walked lib)) as Hloop;
      specialize (fun H => Hloop H idx s H0);
      destruct (forEach b idx s) as [[visited [log st']] err]
  end.
  assert (Hres : walked lib (visited, (log, st'))).
  { assert (Hm : match err with
                 | Some _ => walked lib (visited, (log, st'))
                 | None => walking lib (visited, (log, st'))
                 end).
    { apply Hloop; clear Hloop.
      intros i vs Hvs.
      destruct (DeviceGetHandleByIndex lib i) as [device r].
      destruct (negb (isSuccess r)); [now apply walking_walked|].
      destruct (isMigCapable lib device) as [[|] [e|]];
        [now apply walking_walked | | now apply walking_walked | assumption].
      apply (forEach_inv (walkProfileSlot (logged f) lib device)
                         (walking lib) (walked lib));
        [|assumption].
      intros j vs' Hvs'; now apply walkProfileSlot_inv. }
    destruct err; [assumption | now apply walking_walked]. }
  exact Hres.
Qed.

(** Logging the calls leaves the walk as it is. *)
Lemma walkProfileSlot_logged (gpu : Nvml.Device) (i : Z)
      (visited log : list string) (st : St) :
  let r1 := walkProfileSlot (logged f) lib gpu i (visited, (log, st)) in
  let r2 := walkProfileSlot f lib gpu i (visited, st) in
  (fst (fst r1) = fst (fst r2) /\ snd (snd (fst r1)) = snd (fst r2))
  /\ snd r1 = snd r2.
Proof.
  unfold walkProfileSlot.
  destruct (GetGpuInstanceProfileInfo (dev lib gpu) i) as [info ret].
  destruct ret; simpl; auto.
  destruct (mem_member _ visited); simpl; auto.
  unfold logged.
  destruct (f _ st) as [st' [err|]]; simpl; auto.
Qed.

Lemma walkMigProfiles_logged (st : St) :
  snd (fst (walkMigProfiles N (logged f) lib ([], st)))
  = fst (walkMigProfiles N f lib st)
  /\ snd (walkMigProfiles N (logged f) lib ([], st))
     = snd (walkMigProfiles N f lib st).
Proof.
  unfold walkMigProfiles, walkGPUDevices.
  destruct (DeviceGetCount lib) as [count ret].
  destruct (negb (isSuccess ret)); [simpl; auto|].
  set (R := fun (a : list string * (list string * St)) (b : list string * St) =>
              fst a = fst b /\ snd (snd a) = snd b).
  match goal with
  | |- context [forEach ?b1 ?idx (?v, (?l, ?s))] =>
      match goal with
      | |- context [forEach ?b2 idx (v, s)] =>
          pose proof (forEach_sim b1 b2 R) as Hsim;
          specialize (fun H => Hsim H idx (v, (l, s)) (v, s));
          destruct (forEach b1 idx (v, (l, s))) as [[v1 [l1 s1]] e1];
          destruct (forEach b2 idx (v, s)) as [[v2 s2] e2]
      end
  end.
  simpl in Hsim |- *.
  assert (Hr : R (v1, (l1, s1)) (v2, s2) /\ e1 = e2).
  { apply Hsim; [|split; reflexivity].
    intros i [va [la sa]] [vb sb] [Hv Hs]; simpl in Hv, Hs; subst vb sb.
    destruct (DeviceGetHandleByIndex lib i) as [device r].
    destruct (negb (isSuccess r)); [simpl; repeat split|].
    destruct (isMigCapable lib device) as [[|] [e|]];
      [simpl; repeat split | | simpl; repeat split | simpl; repeat split].
    apply (forEach_sim (walkProfileSlot (logged f) lib device)
                       (walkProfileSlot f lib device) R);
      [|split; reflexivity].
    intros j [vc [lc sc]] [vd sd] [Hv Hs]; simpl in Hv, Hs; subst vd sd.
    apply walkProfileSlot_logged. }
  destruct Hr as [[_ Hs] He]; simpl in Hs; auto.
Qed.

End WalkFacts.

(** C5 as stated fails: [walkMigProfiles] has no case split on the
    compute-instance slice count.  For the profile with [g = 2] and
    20480 MiB it passes ["2g.20gb"], while [getMigProfile] names the
    partition with the same [g] and memory and [c = 1] ["1c.2g.20gb"]. *)
Lemma walkMigProfiles_counterexample :
  walkMigProfiles 7 (logged accept) (nodeWith 2 1 20480) ([], tt)
  = ((["2g.20gb"], tt), None)
  /\ getMigProfile (nodeWith 2 1 20480) 1%nat = ("1c.2g.20gb", None).
Proof. split; reflexivity. Qed.

(** C5 (amended).  [walkMigProfiles] calls its callback at most once per
    distinct profile string, and each string it passes is
    ["{g}g.{memGB}gb"] for a GPU-instance profile some device reports,
    with the same rounding of the memory size as [getMigProfile]; this
    is the string [getMigProfile] gives to a partition with the same [g]
    and memory size whose compute-instance slice count equals [g].  The
    calls are those of the walk itself: recording them changes neither
    the callback's state nor the error returned. *)
Theorem walkMigProfiles_names (N : Z) (St : Type)
        (f : string -> St -> St * option error) (lib : Library) (st : St) :
  let run := walkMigProfiles N (logged f) lib ([], st) in
  NoDup (fst (fst run))
  /\ (forall p, In p (fst (fst run)) ->
        exists gpu i info,
          GetGpuInstanceProfileInfo (dev lib gpu) i = (info, SUCCESS)
          /\ p = giProfileName (SliceCount info) (ProfileMemorySizeMB info)
          /\ forall lib' d,
               isMigDevice lib' d = (true, None) ->
               GetAttributes (dev lib' d)
               = (mkAttributes (SliceCount info) (SliceCount info)
                               (ProfileMemorySizeMB info), SUCCESS) ->
               getMigProfile lib' d = (p, None))
  /\ snd (fst run) = fst (walkMigProfiles N f lib st)
  /\ snd run = snd (walkMigProfiles N f lib st).
Proof.
  intros run.
  pose proof (walkMigProfiles_inv N f lib st) as [Hnd Hoff]; simpl in Hnd, Hoff.
  split; [exact Hnd|]; split; [|apply walkMigProfiles_logged].
  intros p Hp.
  rewrite Forall_forall in Hoff.
  destruct (Hoff p Hp) as (gpu & i & info & Hinfo & ->).
  exists gpu, i, info; repeat split; try assumption.
  intros lib' d Hmig Hattr.
  rewrite (getMigProfile_attributes lib' d _ _ _ Hmig Hattr).
  unfold profileName, giProfileName; now rewrite Z.eqb_refl.
Qed.

Lemma walkMigProfiles_names_witness :
  In "2g.20gb" (fst (fst (walkMigProfiles 7 (logged accept)
                                          (nodeWith 2 1 20480) ([], tt))))
  /\ exists gpu i info,
      GetGpuInstanceProfileInfo (dev (nodeWith 2 1 20480) gpu) i = (info, SUCCESS)
      /\ "2g.20gb" = giProfileName (SliceCount info) (ProfileMemorySizeMB info)
      /\ forall lib' d,
          isMigDevice lib' d = (true, None) ->
          GetAttributes (dev lib' d)
          = (mkAttributes (SliceCount info) (SliceCount info)
                          (ProfileMemorySizeMB info), SUCCESS) ->
          getMigProfile lib' d = ("2g.20gb", None).
Proof.
  assert (H : In "2g.20gb"
                 (fst (fst (walkMigProfiles 7 (logged accept)
                                            (nodeWith 2 1 20480) ([], tt)))))
    by (left; reflexivity).
  split; [exact H|].
  exact (proj1 (proj2 (walkMigProfiles_names 7 unit accept
                                             (nodeWith 2 1 20480) tt))
               "2g.20gb" H).
Defined.

(* ----------------------------------------------------------------- *)
(** ** NUMA node of a device *)

Lemma getNumaNode_read (lib : Library) (fs : Os.FileSystem)
      (d target : nvmlDevice) (info : PciInfo) :
  pciTarget lib d target ->
  GetPciInfo (dev lib target) = (info, SUCCESS) ->
  getNumaNode lib fs d = numaOfFile (fs (numaNodePath (numaBusID info))).
Proof.
  intros Ht Hinfo; unfold getNumaNode, numaOfFile.
  destruct Ht as [[Hmig ->]|[Hmig Hparent]]; rewrite Hmig.
  - now rewrite Hinfo.
  - now rewrite Hparent; simpl; rewrite Hinfo.
Qed.

Lemma TrimPrefix_present (t p : string) : TrimPrefix (p ++ t) p = t.
Proof.
  unfold TrimPrefix.
  assert (H : HasPrefix (p ++ t) p = true /\ drop (String.length p) (p ++ t) = t).
  { induction p as [|a p IH]; simpl.
    - split; [now destruct t | reflexivity].
    - rewrite Ascii.eqb_refl; simpl; exact IH. }
  destruct H as [-> ->]; reflexivity.
Qed.

Lemma TrimPrefix_absent (s p : string) :
  HasPrefix s p = false -> TrimPrefix s p = s.
Proof. unfold TrimPrefix; now intros ->. Qed.

(** C6 as stated fails: only the four characters ["0000"] are removed,
    so the colon after a four-digit domain stays.  With the file under
    ["3b:00.0"] only, the lookup for bus id ["0000:3B:00.0"] misses. *)
Lemma getNumaNode_bus_key_counterexample :
  numaBusID (mkPciInfo (cString "0000:3B:00.0" 32)) = ":3b:00.0"
  /\ numaBusID (mkPciInfo (cString "0000:3B:00.0" 32)) <> "3b:00.0"
  /\ getNumaNode (nodeAt "0000:3B:00.0")
                 (fsWith "/sys/bus/pci/devices/3b:00.0/numa_node"
                         (Os.Content ("1" ++ newline)))
                 0%nat
     = (None, None)
  /\ getNumaNode (nodeAt "0000:3B:00.0")
                 (fsWith "/sys/bus/pci/devices/:3b:00.0/numa_node"
                         (Os.Content ("1" ++ newline)))
                 0%nat
     = (Some 1, None).
Proof. repeat split; try reflexivity; discriminate. Qed.

(** C6 (amended).  For every device whose bus address is ASCII text, the
    key of the PCI-topology lookup is the bus address without its first
    four characters when these are ["0000"], and the whole bus address
    otherwise, in lower case; and what [getNumaNode] returns is what it
    makes of the read of ["/sys/bus/pci/devices/{key}/numa_node"], the
    one file it reads.  So ["00000000:3B:00.0"] is looked up as
    ["0000:3b:00.0"] and ["0000:3B:00.0"] as [":3b:00.0"]. *)
Theorem getNumaNode_bus_key (lib : Library) (d target : nvmlDevice)
        (info : PciInfo) :
  pciTarget lib d target ->
  GetPciInfo (dev lib target) = (info, SUCCESS) ->
  isASCII (int8Slice_String (BusId info)) = true ->
  let s := int8Slice_String (BusId info) in
  let key := numaBusID info in
  (forall t, s = ("0000" ++ t)%string -> key = ToLower t)
  /\ (HasPrefix s "0000" = false -> key = ToLower s)
  /\ (forall fs : Os.FileSystem,
         getNumaNode lib fs d
         = numaOfFile (fs ("/sys/bus/pci/devices/" ++ key ++ "/numa_node")%string)).
Proof.
  intros Ht Hinfo _ s key; unfold key, numaBusID; fold s.
  split; [|split].
  - intros t ->; now rewrite TrimPrefix_present.
  - intros H; now rewrite TrimPrefix_absent.
  - intros fs; exact (getNumaNode_read lib fs d target info Ht Hinfo).
Qed.

Lemma getNumaNode_bus_key_witness :
  numaBusID (mkPciInfo (cString "00000000:3B:00.0" 32)) = ToLower "0000:3B:00.0"
  /\ numaBusID (mkPciInfo (cString "00000000:3B:00.0" 32)) = "0000:3b:00.0"
  /\ getNumaNode (nodeAt "00000000:3B:00.0")
                 (fsWith "/sys/bus/pci/devices/0000:3b:00.0/numa_node"
                         (Os.Content ("1" ++ newline)))
                 1%nat
     = (Some 1, None).
Proof.
  assert (Ht : pciTarget (nodeAt "00000000:3B:00.0") 1%nat 0%nat)
    by (right; split; reflexivity).
  assert (Hinfo : GetPciInfo (dev (nodeAt "00000000:3B:00.0") 0%nat)
                  = (mkPciInfo (cString "00000000:3B:00.0" 32), SUCCESS))
    by reflexivity.
  split; [|split; [reflexivity|]].
  - exact (proj1 (getNumaNode_bus_key (nodeAt "00000000:3B:00.0") 1%nat 0%nat
                                      _ Ht Hinfo eq_refl)
                 "0000:3B:00.0" eq_refl).
  - exact (proj2 (proj2 (getNumaNode_bus_key
                           (nodeAt "00000000:3B:00.0") 1%nat 0%nat
                           _ Ht Hinfo eq_refl))
                 (fsWith "/sys/bus/pci/devices/0000:3b:00.0/numa_node"
                         (Os.Content ("1" ++ newline)))).
Defined.

Lemma digits_nonneg (s : string) :
  forall acc v, 0 <= acc -> digits acc s = Some v -> 0 <= v.
Proof.
  induction s as [|a s IH]; intros acc v Hacc H; cbn [digits] in H.
  - now injection H as <-.
  - unfold digit in H.
    destruct (Nat.leb 48 (nat_of_ascii a) && Nat.leb (nat_of_ascii a) 57)%bool;
      [|discriminate].
    apply IH in H; [assumption | lia].
Qed.

Lemma parseUnsigned_nonneg (s : string) (v : Z) :
  parseUnsigned s = Some v -> 0 <= v.
Proof.
  destruct s; simpl; [discriminate|].
  apply (digits_nonneg (String a s) 0 v); lia.
Qed.

Lemma ParseInt10_int8 (s : string) (node : Z) :
  ParseInt10 s 8 = Some node -> -128 <= node <= 127.
Proof.
  unfold ParseInt10; change (2 ^ (8 - 1)) with 128.
  destruct s as [|a s]; [discriminate|].
  destruct (Ascii.eqb a "+"); [|destruct (Ascii.eqb a "-")].
  - destruct (parseUnsigned s) as [un|] eqn:E; [|discriminate].
    apply parseUnsigned_nonneg in E.
    destruct (Z.leb_spec 128 un) as [Hge|Hlt]; [discriminate|].
    intros H; injection H as <-; lia.
  - destruct (parseUnsigned s) as [un|] eqn:E; [|discriminate].
    apply parseUnsigned_nonneg in E.
    destruct (Z.ltb_spec 128 un) as [Hgt|Hle]; [discriminate|].
    intros H; injection H as <-; lia.
  - destruct (parseUnsigned (String a s)) as [un|] eqn:E; [|discriminate].
    apply parseUnsigned_nonneg in E.
    destruct (Z.leb_spec 128 un) as [Hge|Hlt]; [discriminate|].
    intros H; injection H as <-; lia.
Qed.

(** C7 as stated fails: a topology file that is present but cannot be
    read is reported as "no NUMA affinity", without an error. *)
Lemma getNumaNode_outcome_counterexample :
  Os.present (fsWith "/sys/bus/pci/devices/0000:3b:00.0/numa_node"
                     (Os.Fails Os.EACCES)
                     "/sys/bus/pci/devices/0000:3b:00.0/numa_node") = true
  /\ getNumaNode (nodeAt "00000000:3B:00.0")
                 (fsWith "/sys/bus/pci/devices/0000:3b:00.0/numa_node"
                         (Os.Fails Os.EACCES))
                 0%nat
     = (None, None).
Proof. split; reflexivity. Qed.

(** C7 (amended).  For every device whose PCI information is read there
    is one topology file, ["/sys/bus/pci/devices/{key}/numa_node"], such
    that: when reading it fails, for a missing file as for a present
    one, the result is "no NUMA affinity" and no error; when it is read
    and its content, trimmed of white space, is no signed 8-bit decimal
    number, the result is an error; when it is a negative number the
    result is "no NUMA affinity" and no error; and otherwise it is that
    number.  An error never comes with a node. *)
Theorem getNumaNode_outcome (lib : Library) (d target : nvmlDevice)
        (info : PciInfo) :
  pciTarget lib d target ->
  GetPciInfo (dev lib target) = (info, SUCCESS) ->
  exists key, forall fs : Os.FileSystem,
    let file := fs ("/sys/bus/pci/devices/" ++ key ++ "/numa_node")%string in
    (forall e, file = Os.Fails e -> getNumaNode lib fs d = (None, None))
    /\ (forall b, file = Os.Content b ->
          match ParseInt10 (TrimSpace b) 8 with
          | None => exists err, getNumaNode lib fs d = (None, Some err)
          | Some node =>
              -128 <= node <= 127
              /\ getNumaNode lib fs d
                 = (if node <? 0 then None else Some node, None)
          end)
    /\ (forall n err, getNumaNode lib fs d <> (Some n, Some err)).
Proof.
  intros Ht Hinfo; exists (numaBusID info); intros fs file.
  rewrite (getNumaNode_read lib fs d target info Ht Hinfo).
  change (fs (numaNodePath (numaBusID info))) with file.
  split; [|split].
  - now intros e ->.
  - intros b ->; simpl.
    destruct (ParseInt10 (TrimSpace b) 8) as [node|] eqn:E.
    + split; [exact (ParseInt10_int8 _ _ E)|].
      now destruct (node <? 0).
    + eexists; reflexivity.
  - intros n err; unfold numaOfFile.
    destruct file as [b|e]; [|discriminate].
    destruct (ParseInt10 (TrimSpace b) 8) as [node|]; [|discriminate].
    destruct (node <? 0); discriminate.
Qed.

Lemma getNumaNode_outcome_witness :
  getNumaNode (nodeAt "00000000:3B:00.0")
              (fun _ => Os.Content ("-1" ++ newline))
              1%nat
  = (None, None).
Proof.
  assert (Ht : pciTarget (nodeAt "00000000:3B:00.0") 1%nat 0%nat)
    by (right; split; reflexivity).
  assert (Hinfo : GetPciInfo (dev (nodeAt "00000000:3B:00.0") 0%nat)
                  = (mkPciInfo (cString "00000000:3B:00.0" 32), SUCCESS))
    by reflexivity.
  destruct (getNumaNode_outcome (nodeAt "00000000:3B:00.0") 1%nat 0%nat _ Ht Hinfo)
    as [key H].
  exact (proj2 (proj1 (proj2 (H (fun _ => Os.Content ("-1" ++ newline))))
                      ("-1" ++ newline)%string eq_refl)).
Defined.

Example getNumaNode_missing_file :
  getNumaNode (nodeAt "00000000:3B:00.0") (fun _ => Os.Fails Os.ENOENT) 0%nat
  = (None, None).
Proof. reflexivity. Qed.

Example getNumaNode_node_1 :
  getNumaNode (nodeAt "00000000:3B:00.0")
              (fsWith "/sys/bus/pci/devices/0000:3b:00.0/numa_node"
                      (Os.Content ("1" ++ newline)))
              0%nat
  = (Some 1, None).
Proof. reflexivity. Qed.

Example getNumaNode_corrupt_file :
  getNumaNode (nodeAt "00000000:3B:00.0")
              (fsWith "/sys/bus/pci/devices/0000:3b:00.0/numa_node"
                      (Os.Content "node0"))
              0%nat
  = (None, Some "eror parsing value for NUMA node").
Proof. reflexivity. Qed.

(** White space is trimmed as Unicode has it: a no-break space (the
    bytes C2 A0) before the number and a line separator (E2 80 A8)
    after it are dropped, a lone byte A0 is not. *)
Example TrimSpace_unicode :
  TrimSpace (String (ascii_of_nat 194) (String (ascii_of_nat 160)
               ("5" ++ String (ascii_of_nat 226) (String (ascii_of_nat 128)
                         (String (ascii_of_nat 168) newline)))))
  = "5"
  /\ TrimSpace (String (ascii_of_nat 160) "5")
     = String (ascii_of_nat 160) "5".
Proof. split; reflexivity. Qed.

Example getNumaNode_no_break_space :
  getNumaNode (nodeAt "00000000:3B:00.0")
              (fsWith "/sys/bus/pci/devices/0000:3b:00.0/numa_node"
                      (Os.Content (String (ascii_of_nat 194)
                                     (String (ascii_of_nat 160) ("5" ++ newline)))))
              0%nat
  = (Some 5, None).
Proof. reflexivity. Qed.

(* ----------------------------------------------------------------- *)
(** ** Decoding a hardware event *)

(** C8 as stated fails, whatever [uintPtr] makes of a number.  An event
    of a full GPU and an event of a MIG device whose data carry the id
    [0xFFFFFFFF] in both places are decoded to the same two fields,
    [uintPtr 4294967295]: if that is nil the fields of the MIG event are
    not populated, and if it is not the fields of the GPU event are not
    nil. *)
Lemma nvmlWaitForEvent_counterexample :
  IsMigDeviceHandle (dev (nodeWith 1 1 10240) 0%nat) = (false, SUCCESS)
  /\ IsMigDeviceHandle (dev (nodeWith 1 1 10240) 1%nat) = (true, SUCCESS)
  /\ (forall uintPtr : Z -> option Z,
         nvmlWaitForEvent uintPtr (nodeWith 1 1 10240)
                          (delivering (mkEventData 0%nat 8 79 0 0)) 5000
         = (mkEvent (Some "GPU-0") (uintPtr 4294967295) (uintPtr 4294967295) 8 79,
            None)
         /\ nvmlWaitForEvent uintPtr (nodeWith 1 1 10240)
                             (delivering (mkEventData 1%nat 8 79 4294967295 4294967295))
                             5000
            = (mkEvent (Some "MIG-0") (uintPtr 4294967295) (uintPtr 4294967295) 8 79,
               None))
  /\ (forall uintPtr : Z -> option Z, ~ populated_iff_mig uintPtr).
Proof.
  split; [reflexivity|]; split; [reflexivity|]; split.
  - intros uintPtr; split; reflexivity.
  - intros uintPtr H.
    destruct (H (nodeWith 1 1 10240) (delivering (mkEventData 0%nat 8 79 0 0)) 5000
                _ (mkEventData 0%nat 8 79 0 0) false eq_refl eq_refl eq_refl)
      as [_ Hgpu].
    destruct (H (nodeWith 1 1 10240)
                (delivering (mkEventData 1%nat 8 79 4294967295 4294967295)) 5000
                _ (mkEventData 1%nat 8 79 4294967295 4294967295) true
                eq_refl eq_refl eq_refl)
      as [Hmig _].
    destruct (Hgpu eq_refl) as [Hnil _].
    destruct (Hmig eq_refl) as [Hset _].
    exact (Hset Hnil).
Qed.

(** C8 (amended).  For every successful wait the event carries the UUID
    of the reporting handle, and its two instance ids are what [uintPtr]
    makes of a number: for a MIG handle of the ids of the event data,
    for any other handle of the placeholder [0xFFFFFFFF] (4294967295),
    whatever the event data holds.  Whether a field is nil is decided
    by that number alone, not by the kind of the handle. *)
Theorem nvmlWaitForEvent_instance_ids (uintPtr : Z -> option Z)
        (lib : Library) (es : EventSet) (timeout : Z) (ev : nvmlEvent) :
  nvmlWaitForEvent uintPtr lib es timeout = (ev, None) ->
  exists data uuid isMig,
    es (wrap32 timeout) = (data, SUCCESS)
    /\ GetUUID (dev lib (EventDevice data)) = (uuid, SUCCESS)
    /\ IsMigDeviceHandle (dev lib (EventDevice data)) = (isMig, SUCCESS)
    /\ UUID ev = Some uuid
    /\ GpuInstanceID ev
       = uintPtr (if isMig then GpuInstanceId data else 4294967295)
    /\ ComputeInstanceID ev
       = uintPtr (if isMig then ComputeInstanceId data else 4294967295)
    /\ Etype ev = EventType data /\ Edata ev = EventPayload data.
Proof.
  unfold nvmlWaitForEvent.
  destruct (es (wrap32 timeout)) as [data ret] eqn:Ewait.
  destruct ret; simpl; try discriminate.
  destruct (GetUUID (dev lib (EventDevice data))) as [uuid ret] eqn:Euuid.
  destruct ret; simpl; try discriminate.
  destruct (IsMigDeviceHandle (dev lib (EventDevice data))) as [isMig ret] eqn:Emig.
  destruct ret; simpl; try discriminate.
  intros H; injection H as <-.
  exists data, uuid, isMig; simpl.
  repeat split; try assumption; now destruct isMig.
Qed.

Lemma nvmlWaitForEvent_instance_ids_witness :
  exists data uuid isMig,
    delivering (mkEventData 1%nat 8 79 3 0) (wrap32 5000) = (data, SUCCESS)
    /\ GetUUID (dev (nodeWith 1 1 10240) (EventDevice data)) = (uuid, SUCCESS)
    /\ IsMigDeviceHandle (dev (nodeWith 1 1 10240) (EventDevice data))
       = (isMig, SUCCESS)
    /\ UUID (mkEvent (Some "MIG-0") (Some 3) (Some 0) 8 79) = Some uuid
    /\ GpuInstanceID (mkEvent (Some "MIG-0") (Some 3) (Some 0) 8 79)
       = Some (if isMig then GpuInstanceId data else 4294967295)
    /\ ComputeInstanceID (mkEvent (Some "MIG-0") (Some 3) (Some 0) 8 79)
       = Some (if isMig then ComputeInstanceId data else 4294967295)
    /\ Etype (mkEvent (Some "MIG-0") (Some 3) (Some 0) 8 79) = EventType data
    /\ Edata (mkEvent (Some "MIG-0") (Some 3) (Some 0) 8 79) = EventPayload data.
Proof.
  apply (nvmlWaitForEvent_instance_ids
           (fun c => Some c)
           (nodeWith 1 1 10240) (delivering (mkEventData 1%nat 8 79 3 0)) 5000).
  reflexivity.
Defined.

(* ----------------------------------------------------------------- *)
(** ** The supervisor *)

Section SupervisorFacts.

Import Main.

Lemma orderly_from_app (t1 t2 : list Action) :
  forall live,
    orderly_from live (t1 ++ t2)
    = (orderly_from live t1 && orderly_from (fold_left act t1 live) t2)%bool.
Proof.
  induction t1 as [|a t1 IH]; simpl; intros live; [reflexivity|].
  now rewrite IH, andb_assoc.
Qed.

Lemma orderly_separated (tr : list Action) :
  orderly_from [] tr = true -> separated tr.
Proof.
  intros H tr1 c k ok tr2 -> h Hh.
  rewrite orderly_from_app in H.
  apply andb_true_iff in H as [_ H]; simpl in H.
  apply andb_true_iff in H as [H _].
  rewrite forallb_forall in H.
  now apply Nat.eqb_eq, H.
Qed.

Lemma handle_eqb_eq (h : nat * nat) (c k : nat) :
  handle_eqb h (c, k) = true <-> fst h = c /\ snd h = k.
Proof.
  unfold handle_eqb; simpl.
  now rewrite andb_true_iff, !Nat.eqb_eq.
Qed.

(** Stopping the handles [a .. a+n-1] of cycle [c]. *)
Lemma stops_In (c n : nat) :
  forall a live h,
    In h (fold_left act (map (ActStop c) (seq a n)) live) <->
    In h live /\ ~ (fst h = c /\ (a <= snd h < a + n)%nat).
Proof.
  induction n as [|n IH]; simpl; intros a live h.
  - split; [intros H; split; [assumption | lia] | tauto].
  - rewrite IH, filter_In, negb_true_iff.
    destruct (handle_eqb h (c, a)) eqn:E.
    + apply handle_eqb_eq in E as [E1 E2].
      split; [intros [[_ H] _]; discriminate | intros [_ H]; exfalso; apply H; lia].
    + assert (Hne : ~ (fst h = c /\ snd h = a)).
      { intros H; apply handle_eqb_eq in H; congruence. }
      split.
      * intros [[Hin _] Hn]; split; [assumption|].
        intros [Hc Hk]; apply Hn; split; [assumption|].
        destruct (Nat.eq_dec (snd h) a); [tauto | lia].
      * intros [Hin Hn]; repeat split; auto.
        intros [Hc Hk]; apply Hn; split; [assumption | lia].
Qed.

Lemma stops_orderly (c n : nat) :
  forall a live, orderly_from live (map (ActStop c) (seq a n)) = true.
Proof. induction n as [|n IH]; simpl; intros a live; auto. Qed.

Lemma stops_no_start (c n a c' k : nat) (ok : bool) :
  ~ In (ActStart c' k ok) (map (ActStop c) (seq a n) ++ [ActShutdown]).
Proof.
  rewrite in_app_iff, in_map_iff.
  intros [(x & E & _)|[E|[]]]; discriminate.
Qed.

(** The start loop. *)
Lemma startLoop_actions (ps : list NvidiaDevicePlugin) :
  forall c k0 a,
    In a (fst (startLoop c k0 ps)) ->
    exists k ok p,
      a = ActStart c k ok /\ (k0 <= k)%nat
      /\ nth_error ps (k - k0) = Some p /\ Devices p <> [].
Proof.
  induction ps as [|p ps IH]; intros c k0 a; simpl; [intros []|].
  assert (Hshift : forall a,
             In a (fst (startLoop c (S k0) ps)) ->
             exists k ok q,
               a = ActStart c k ok /\ (k0 <= k)%nat
               /\ nth_error (p :: ps) (k - k0) = Some q /\ Devices q <> []).
  { intros b Hb; apply IH in Hb as (k & ok & q & -> & Hk & Hn & Hd).
    exists k, ok, q; repeat split; try lia; try assumption.
    replace (k - k0)%nat with (S (k - S k0)) by lia; exact Hn. }
  destruct (Nat.eqb (List.length (Devices p)) 0) eqn:Ez; [apply Hshift|].
  assert (Hd : Devices p <> []) by (intros E; rewrite E in Ez; discriminate).
  destruct (Start p) as [e|].
  - simpl; intros [<-|[]].
    exists k0, false, p; rewrite Nat.sub_diag; auto.
  - destruct (startLoop c (S k0) ps) as [acts r]; simpl in *.
    intros [<-|H]; [|now apply Hshift].
    exists k0, true, p; rewrite Nat.sub_diag; auto.
Qed.

Lemma startLoop_orderly (ps : list NvidiaDevicePlugin) :
  forall c k0 live,
    (forall h, In h live -> fst h = c) ->
    orderly_from live (fst (startLoop c k0 ps)) = true.
Proof.
  induction ps as [|p ps IH]; intros c k0 live Hlive; simpl; [reflexivity|].
  assert (Hall : forallb (fun h => Nat.eqb (fst h) c) live = true).
  { apply forallb_forall; intros h Hh; now apply Nat.eqb_eq, Hlive. }
  destruct (Nat.eqb (List.length (Devices p)) 0); [now apply IH|].
  destruct (Start p) as [e|]; simpl; [now rewrite Hall|].
  specialize (IH c (S k0) ((c, k0) :: live)).
  destruct (startLoop c (S k0) ps) as [acts r]; simpl in *.
  rewrite Hall; apply IH.
  intros h [<-|Hh]; auto.
Qed.

Lemma startLoop_live (ps : list NvidiaDevicePlugin) :
  forall c k0 live h,
    In h (fold_left act (fst (startLoop c k0 ps)) live) ->
    In h live \/ (fst h = c /\ (k0 <= snd h < k0 + List.length ps)%nat).
Proof.
  induction ps as [|p ps IH]; intros c k0 live h; simpl; [auto|].
  destruct (Nat.eqb (List.length (Devices p)) 0).
  { intros H; apply IH in H as [H|[Hc Hk]]; [auto | right; split; [assumption | lia]]. }
  destruct (Start p) as [e|]; simpl; [auto|].
  specialize (IH c (S k0) ((c, k0) :: live) h).
  destruct (startLoop c (S k0) ps) as [acts r]; simpl in *.
  intros H; apply IH in H as [[<-|H]|[Hc Hk]]; simpl; auto.
  - right; split; [reflexivity | lia].
  - right; split; [assumption | lia].
Qed.

(** A failed [Start] ends the start loop: it is the last call, the
    plugins before it that serve a device were started, and no other
    call was made. *)
Lemma startLoop_failed (ps : list NvidiaDevicePlugin) :
  forall c k0 k,
    In (ActStart c k false) (fst (startLoop c k0 ps)) ->
    (k0 <= k)%nat
    /\ (exists p, nth_error ps (k - k0) = Some p
                  /\ Devices p <> [] /\ Start p <> None)
    /\ (forall j q, (k0 <= j < k)%nat -> nth_error ps (j - k0) = Some q ->
                    Devices q <> [] -> Start q = None)
    /\ snd (startLoop c k0 ps) = true
    /\ exists acts,
        fst (startLoop c k0 ps) = acts ++ [ActStart c k false]
        /\ forall a, In a acts <->
                     exists j q, a = ActStart c j true /\ (k0 <= j < k)%nat
                                 /\ nth_error ps (j - k0) = Some q
                                 /\ Devices q <> [].
Proof.
  induction ps as [|p ps IH]; intros c k0 k; simpl; [intros []|].
  assert (Hshift : forall j, (S k0 <= j)%nat -> (j - k0 = S (j - S k0))%nat)
    by (intros; lia).
  destruct (Nat.eqb (List.length (Devices p)) 0) eqn:Ez.
  - assert (Hp : Devices p = [])
      by (destruct (Devices p); [reflexivity | discriminate]).
    intros H.
    apply IH in H as (Hk & (p' & Hn & Hd & Hs) & Hbefore & Hsnd & acts & Hacts & Hin).
    split; [lia|]; split.
    { exists p'; rewrite (Hshift k Hk); auto. }
    split.
    { intros j q Hj Hnq Hdq.
      destruct (Nat.eq_dec j k0) as [->|Hne].
      - rewrite Nat.sub_diag in Hnq; simpl in Hnq; injection Hnq as <-.
        contradiction.
      - rewrite (Hshift j) in Hnq by lia; simpl in Hnq.
        apply (Hbefore j q); [lia | assumption | assumption]. }
    split; [assumption|].
    exists acts; split; [assumption|].
    intros a; rewrite Hin; split.
    + intros (j & q & -> & Hj & Hnq & Hdq).
      exists j, q; rewrite (Hshift j) by lia; simpl.
      repeat split; auto; lia.
    + intros (j & q & -> & Hj & Hnq & Hdq).
      destruct (Nat.eq_dec j k0) as [->|Hne].
      * rewrite Nat.sub_diag in Hnq; simpl in Hnq; injection Hnq as <-.
        contradiction.
      * exists j, q; rewrite (Hshift j) in Hnq by lia; simpl in Hnq.
        repeat split; auto; lia.
  - assert (Hd : Devices p <> []) by (intros E; rewrite E in Ez; discriminate).
    destruct (Start p) as [e|] eqn:Es.
    + simpl; intros [E|[]]; injection E as <-.
      split; [lia|]; split.
      { exists p; rewrite Nat.sub_diag; simpl; repeat split; auto; congruence. }
      split; [intros; lia|]; split; [reflexivity|].
      exists []; split; [reflexivity|].
      intros a; split; [intros [] | intros (j & q & _ & Hj & _); lia].
    + specialize (IH c (S k0) k).
      destruct (startLoop c (S k0) ps) as [acts0 r]; simpl in *.
      intros [E|H]; [discriminate|].
      apply IH in H as (Hk & (p' & Hn & Hd' & Hs) & Hbefore & Hsnd & acts & Hacts & Hin).
      split; [lia|]; split.
      { exists p'; rewrite (Hshift k Hk); auto. }
      split.
      { intros j q Hj Hnq Hdq.
        destruct (Nat.eq_dec j k0) as [->|Hne].
        - rewrite Nat.sub_diag in Hnq; simpl in Hnq; injection Hnq as <-.
          exact Es.
        - rewrite (Hshift j) in Hnq by lia; simpl in Hnq.
          apply (Hbefore j q); [lia | assumption | assumption]. }
      split; [assumption|].
      exists (ActStart c k0 true :: acts); split; [simpl; now rewrite Hacts|].
      intros a; simpl; rewrite Hin; split.
      * intros [<-|(j & q & -> & Hj & Hnq & Hdq)].
        -- exists k0, p; rewrite Nat.sub_diag; simpl; repeat split; auto; lia.
        -- exists j, q; rewrite (Hshift j) by lia; simpl.
           repeat split; auto; lia.
      * intros (j & q & -> & Hj & Hnq & Hdq).
        destruct (Nat.eq_dec j k0) as [->|Hne]; [now left|right].
        exists j, q; rewrite (Hshift j) in Hnq by lia; simpl in Hnq.
        repeat split; auto; lia.
Qed.

(** The handles started by calls of [Start] alone. *)
Lemma starts_In (acts : list Action) :
  (forall a, In a acts -> exists c k ok, a = ActStart c k ok) ->
  forall live h,
    In h (fold_left act acts live) <->
    In h live \/ In (ActStart (fst h) (snd h) true) acts.
Proof.
  induction acts as [|a acts IH]; intros Hall live h; simpl; [tauto|].
  rewrite IH by (intros b Hb; apply Hall; now right).
  destruct (Hall a (or_introl eq_refl)) as (c & k & ok & ->).
  destruct h as [hc hk]; destruct ok; simpl.
  - split.
    + intros [[E|H]|H]; auto.
      injection E as <- <-; auto.
    + intros [H|[E|H]]; auto.
      injection E as <- <-; auto.
  - split.
    + intros [H|H]; auto.
    + intros [H|[E|H]]; auto; discriminate.
Qed.

Lemma started_app (t1 t2 : list Action) :
  started (t1 ++ t2) = fold_left act t2 (started t1).
Proof. unfold started; apply fold_left_app. Qed.

Variable env : Env.

Lemma supervised_handles (s : Supervisor) :
  supervised env s ->
  forall h, In h (started (trace s)) ->
            fst h = (cycle s - 1)%nat /\ (snd h < List.length (plugins s))%nat.
Proof.
  intros (_ & _ & Hst & _) h Hh.
  rewrite Hst in Hh; unfold started in Hh.
  apply startLoop_live in Hh as [[]|[Hc Hk]]; split; [assumption | lia].
Qed.

(** After [stopPlugins] no handle is started. *)
Lemma teardown_clears (s : Supervisor) :
  supervised env s -> started (trace s ++ teardown s) = [].
Proof.
  intros Hs; unfold teardown.
  rewrite started_app, fold_left_app; simpl.
  destruct (fold_left act _ (started (trace s))) as [|h l] eqn:E; [reflexivity|].
  assert (Hin : In h (fold_left act
                        (map (ActStop (cycle s - 1))
                             (seq 0 (List.length (plugins s))))
                        (started (trace s))))
    by (rewrite E; now left).
  apply stops_In in Hin as [Hin Hn].
  apply (supervised_handles s Hs) in Hin as [Hc Hk].
  exfalso; apply Hn; split; [assumption | lia].
Qed.

Lemma teardown_orderly (s : Supervisor) :
  orderly_from [] (trace s) = true ->
  orderly_from [] (trace s ++ teardown s) = true.
Proof.
  intros H; unfold teardown.
  rewrite orderly_from_app, H, orderly_from_app, stops_orderly; reflexivity.
Qed.

Lemma teardown_serves (s : Supervisor) :
  servesDevices env (trace s) -> servesDevices env (trace s ++ teardown s).
Proof.
  intros H c k ok Hin; apply in_app_iff in Hin as [Hin|Hin];
    [exact (H c k ok Hin)|].
  now apply stops_no_start in Hin.
Qed.

Lemma startLoop_serves (c : nat) (ps : list NvidiaDevicePlugin) :
  setup env c = Plugins ps ->
  servesDevices env (fst (startLoop c 0 ps)).
Proof.
  intros Hsetup c' k ok Hin.
  apply startLoop_actions in Hin as (k' & ok' & p & E & _ & Hn & Hd).
  injection E as -> -> ->.
  exists p; unfold pluginsOf; rewrite Hsetup.
  rewrite Nat.sub_0_r in Hn; auto.
Qed.

Lemma servesDevices_app (t1 t2 : list Action) :
  servesDevices env t1 -> servesDevices env t2 -> servesDevices env (t1 ++ t2).
Proof.
  intros H1 H2 c k ok Hin; apply in_app_iff in Hin as [Hin|Hin];
    [exact (H1 c k ok Hin) | exact (H2 c k ok Hin)].
Qed.

(** The code from [restart] to the loop, after the previous handles, if
    any, were stopped: [tr] holds the calls so far and nothing is
    started. *)
Lemma cycle_supervised (timeout : bool) (c n : nat) (tr : list Action) :
  started tr = [] -> orderly_from [] tr = true -> servesDevices env tr ->
  supervisedStatus env
    match startPlugins env c with
    | None => Blocked tr
    | Some (acts, (_, _, Some err)) =>
        Exited (Some ("error starting plugins: " ++ err)%string) (tr ++ acts)
    | Some (acts, (ps, restartPlugins, None)) =>
        Waiting
          (mkSup (if restartPlugins then true else timeout) ps (S c) n
                 (tr ++ acts ++ (if restartPlugins then [ActArmTimer 30] else [])))
    end.
Proof.
  intros Hclear Hord Hserve; unfold startPlugins.
  destruct (setup env c) as [err| |ps] eqn:Hsetup; simpl.
  - rewrite app_nil_r; auto.
  - auto.
  - pose proof (startLoop_orderly ps c 0 [] (fun h (H : In h []) => match H with end)) as Ho.
    pose proof (startLoop_serves c ps Hsetup) as Hsv.
    destruct (startLoop c 0 ps) as [acts r] eqn:Eloop; simpl in *.
    assert (Hst : started (tr ++ acts ++ (if r then [ActArmTimer 30] else []))
                  = started acts).
    { rewrite started_app, Hclear; unfold started.
      rewrite fold_left_app; now destruct r. }
    assert (Hor : orderly_from [] (tr ++ acts ++ (if r then [ActArmTimer 30] else []))
                  = true).
    { rewrite orderly_from_app, Hord; fold (started tr); rewrite Hclear.
      rewrite orderly_from_app, Ho; now destruct r. }
    assert (Hse : servesDevices env
                    (tr ++ acts ++ (if r then [ActArmTimer 30] else []))).
    { apply servesDevices_app; [assumption|].
      apply servesDevices_app; [assumption|].
      intros c' k ok Hin; destruct r; [destruct Hin as [E|[]]; discriminate | destruct Hin]. }
    split.
    + unfold supervised; simpl; rewrite Nat.sub_0_r, Hsetup, Eloop; simpl.
      repeat split; try assumption; lia.
    + unfold backingOff, failedCycle; simpl; rewrite Nat.sub_0_r, Eloop; simpl.
      intros ->; split; [reflexivity|].
      exists (tr ++ acts); now rewrite <- app_assoc.
Qed.

Lemma restart_first_supervised :
  supervisedStatus env (restart env false initial).
Proof.
  unfold restart, initial; simpl.
  pose proof (cycle_supervised false 0 0 [] eq_refl eq_refl
                               (fun c k ok (H : In _ []) => match H with end)) as H.
  destruct (startPlugins env 0) as [[acts [[ps r] [err|]]]|]; exact H.
Qed.

Lemma restart_supervised (s : Supervisor) :
  supervised env s -> supervisedStatus env (restart env true s).
Proof.
  intros Hs.
  pose proof (teardown_clears s Hs) as Hclear.
  destruct Hs as (Hc & Hsetup & Hst & Hord & Hserve).
  pose proof (teardown_orderly s Hord) as Hord'.
  pose proof (teardown_serves s Hserve) as Hserve'.
  unfold restart, stopPlugins; fold (teardown s).
  destruct (Shutdown env (shutdowns s)) as [err|]; simpl; [auto|].
  pose proof (cycle_supervised (restartTimeout s) (cycle s) (S (shutdowns s))
                               (trace s ++ teardown s) Hclear Hord' Hserve') as H.
  destruct (startPlugins env (cycle s)) as [[acts [[ps r] [err|]]]|];
    rewrite <- ?app_assoc in H; exact H.
Qed.

Lemma exit_supervised (s : Supervisor) :
  supervised env s -> supervisedStatus env (exit env s).
Proof.
  intros (Hc & Hsetup & Hst & Hord & Hserve).
  unfold exit, stopPlugins; fold (teardown s).
  destruct (Shutdown env (shutdowns s)); simpl;
    (split; [now apply teardown_orderly | now apply teardown_serves]).
Qed.

Lemma step_supervised (s : Supervisor) (ev : Event) :
  supervised env s /\ backingOff s -> supervisedStatus env (step env s ev).
Proof.
  intros [Hs Hb]; destruct ev as [|name create|err|sig]; simpl.
  - destruct (restartTimeout s); [|simpl; auto].
    apply restart_supervised; exact Hs.
  - destruct (String.eqb name KubeletSocket && create)%bool; [|simpl; auto].
    now apply restart_supervised.
  - auto.
  - destruct sig; try now apply exit_supervised.
    now apply restart_supervised.
Qed.

Lemma loop_supervised (evs : list Event) :
  forall st, supervisedStatus env st -> supervisedStatus env (loop env st evs).
Proof.
  induction evs as [|ev evs IH]; intros st Hst; simpl; [now destruct st|].
  destruct st as [s|err tr|tr]; try assumption.
  apply IH, step_supervised, Hst.
Qed.

Lemma start_supervised (evs : list Event) :
  supervisedStatus env (start env evs).
Proof. apply loop_supervised, restart_first_supervised. Qed.

Lemma supervisedStatus_trace (st : Status) :
  supervisedStatus env st ->
  orderly_from [] (trace_of st) = true /\ servesDevices env (trace_of st).
Proof.
  destruct st as [s|err tr|tr]; simpl; [|auto|auto].
  intros [(_ & _ & _ & Hord & Hserve) _]; auto.
Qed.

(** The calls of the cycle the supervisor waits in come last. *)
Lemma cycleLast_past (s : Supervisor) :
  cycleLast s ->
  forall c k ok, In (ActStart c k ok) (trace s) -> (c < cycle s)%nat.
Proof.
  intros (Hc & pre & Htr & Hpre) c k ok Hin.
  rewrite Htr in Hin.
  apply in_app_iff in Hin as [Hin|Hin]; [apply Hpre in Hin; lia|].
  apply in_app_iff in Hin as [Hin|Hin].
  - apply startLoop_actions in Hin as (k' & ok' & p & E & _).
    injection E as -> _ _; lia.
  - destruct (snd (startLoop (cycle s - 1) 0 (plugins s)));
      [destruct Hin as [E|[]]; discriminate | destruct Hin].
Qed.

Lemma restart_cycleLast (restarting : bool) (s : Supervisor) :
  (forall c k ok, In (ActStart c k ok) (trace s) -> (c < cycle s)%nat) ->
  cycleLastStatus (restart env restarting s).
Proof.
  intros Hpast; unfold restart, stopPlugins, startPlugins.
  assert (Hnew : forall stops n,
             (forall c k ok, ~ In (ActStart c k ok) stops) ->
             cycleLastStatus
               match
                 match setup env (cycle s) with
                 | SetupFails err => Some ([], ([], false, Some err))
                 | InitBlocks => None
                 | Plugins ps =>
                     let '(acts, restartPlugins) := startLoop (cycle s) 0 ps in
                     Some (acts, (ps, restartPlugins, None))
                 end
               with
               | None => Blocked (trace s ++ stops)
               | Some (acts, (_, _, Some err)) =>
                   Exited (Some ("error starting plugins: " ++ err)%string)
                          (trace s ++ stops ++ acts)
               | Some (acts, (ps, restartPlugins, None)) =>
                   Waiting
                     (mkSup (if restartPlugins then true else restartTimeout s)
                            ps (S (cycle s)) n
                            (trace s ++ stops ++ acts
                               ++ (if restartPlugins then [ActArmTimer 30] else [])))
               end).
  { intros stops n Hstops.
    destruct (setup env (cycle s)) as [err| |ps]; simpl; auto.
    destruct (startLoop (cycle s) 0 ps) as [acts r] eqn:E; simpl.
    unfold cycleLast; simpl; split; [lia|].
    exists (trace s ++ stops); rewrite Nat.sub_0_r, E; simpl.
    split; [now rewrite <- app_assoc|].
    intros c k ok Hin; apply in_app_iff in Hin as [Hin|Hin];
      [now apply Hpast in Hin | now apply Hstops in Hin]. }
  destruct restarting.
  - destruct (Shutdown env (shutdowns s)); simpl; [exact I|].
    apply Hnew; intros c k ok; apply stops_no_start.
  - apply Hnew; intros c k ok [].
Qed.

Lemma step_cycleLast (s : Supervisor) (ev : Event) :
  cycleLast s -> cycleLastStatus (step env s ev).
Proof.
  intros Hs; pose proof (cycleLast_past s Hs) as Hpast.
  destruct ev as [|name create|err|sig]; simpl.
  - destruct (restartTimeout s); [|exact Hs].
    apply restart_cycleLast; exact Hpast.
  - destruct (String.eqb name KubeletSocket && create)%bool; [|exact Hs].
    now apply restart_cycleLast.
  - exact Hs.
  - destruct sig; try (unfold exit, stopPlugins;
                       destruct (Shutdown env (shutdowns s)); exact I).
    now apply restart_cycleLast.
Qed.

Lemma loop_cycleLast (evs : list Event) :
  forall st, cycleLastStatus st -> cycleLastStatus (loop env st evs).
Proof.
  induction evs as [|ev evs IH]; intros st Hst; simpl; [now destruct st|].
  destruct st as [s|err tr|tr]; try assumption.
  apply IH, step_cycleLast, Hst.
Qed.

Lemma start_cycleLast (evs : list Event) :
  cycleLastStatus (start env evs).
Proof.
  apply loop_cycleLast, restart_cycleLast.
  intros c k ok [].
Qed.

(** What a failed [Start] in the cycle the supervisor waits in tells of
    the calls made. *)
Lemma failed_cycle_calls (s : Supervisor) (k : nat) :
  cycleLast s ->
  In (ActStart (cycle s - 1) k false) (trace s) ->
  failedCycle s
  /\ (exists p, nth_error (plugins s) k = Some p
                /\ Devices p <> [] /\ Start p <> None)
  /\ (forall j q, (j < k)%nat -> nth_error (plugins s) j = Some q ->
                  Devices q <> [] -> Start q = None)
  /\ exists pre acts,
      trace s = pre ++ acts ++ [ActStart (cycle s - 1) k false; ActArmTimer 30]
      /\ fst (startLoop (cycle s - 1) 0 (plugins s))
         = acts ++ [ActStart (cycle s - 1) k false]
      /\ (forall c j ok, In (ActStart c j ok) pre -> (c < cycle s - 1)%nat)
      /\ forall a, In a acts <->
                   exists j q, a = ActStart (cycle s - 1) j true /\ (j < k)%nat
                               /\ nth_error (plugins s) j = Some q
                               /\ Devices q <> [].
Proof.
  intros (Hc & pre & Htr & Hpre) Hin.
  assert (Hloop : In (ActStart (cycle s - 1) k false)
                     (fst (startLoop (cycle s - 1) 0 (plugins s)))).
  { rewrite Htr in Hin.
    apply in_app_iff in Hin as [Hin|Hin]; [apply Hpre in Hin; lia|].
    apply in_app_iff in Hin as [Hin|Hin]; [exact Hin|].
    destruct (snd (startLoop (cycle s - 1) 0 (plugins s)));
      [destruct Hin as [E|[]]; discriminate | destruct Hin]. }
  apply startLoop_failed in Hloop
    as (_ & Hp & Hbefore & Hsnd & acts & Hacts & Hin').
  rewrite Nat.sub_0_r in Hp.
  split; [exact Hsnd|]; split; [exact Hp|]; split.
  { intros j q Hj Hn; apply (Hbefore j q); [lia | now rewrite Nat.sub_0_r]. }
  exists pre, acts; split.
  { rewrite Htr, Hsnd, Hacts, <- app_assoc; reflexivity. }
  split; [exact Hacts|]; split; [exact Hpre|].
  intros a; rewrite Hin'; split.
  - intros (j & q & -> & Hj & Hn & Hd); rewrite Nat.sub_0_r in Hn.
    exists j, q; repeat split; auto; lia.
  - intros (j & q & -> & Hj & Hn & Hd).
    exists j, q; rewrite Nat.sub_0_r; repeat split; auto; lia.
Qed.

End SupervisorFacts.

Lemma timer_step (env : Main.Env) (s : Main.Supervisor) :
  Main.restartTimeout s = true ->
  Main.step env s Main.TimerFired =
  match Main.Shutdown env (Main.shutdowns s) with
  | Some err =>
      Main.Exited
        (Some ("error stopping plugins from previous run: "
               ++ ("error shutting down NVML: " ++ err))%string)
        (Main.trace s ++ teardown s)
  | None =>
      match Main.startPlugins env (Main.cycle s) with
      | None => Main.Blocked (Main.trace s ++ teardown s)
      | Some (acts, (_, _, Some err)) =>
          Main.Exited (Some ("error starting plugins: " ++ err)%string)
                      (Main.trace s ++ teardown s ++ acts)
      | Some (acts, (ps, restartPlugins, None)) =>
          Main.Waiting
            (Main.mkSup (if restartPlugins then true else false) ps
                        (S (Main.cycle s)) (S (Main.shutdowns s))
                        (Main.trace s ++ teardown s ++ acts
                           ++ (if restartPlugins then [Main.ActArmTimer 30] else [])))
      end
  end.
Proof.
  intros H; simpl; rewrite H.
  unfold Main.restart, Main.stopPlugins, Main.drained, teardown; simpl.
  destruct (Main.Shutdown env (Main.shutdowns s)); reflexivity.
Qed.

(** C9 as stated fails twice.  When a [Start] fails, the handles already
    started in that cycle are not stopped: they stay started while the
    supervisor waits for the timer.  And when the timer fires, Starting
    is not re-entered if shutting NVML down fails: [start] returns. *)
Lemma start_failed_cycle_counterexample :
  Main.start stuckEnv []
  = Main.Waiting
      (Main.mkSup true threePlugins 1 0
                  [Main.ActStart 0 0 true; Main.ActStart 0 1 false;
                   Main.ActArmTimer 30])
  /\ Main.started [Main.ActStart 0 0 true; Main.ActStart 0 1 false;
                   Main.ActArmTimer 30]
     = [(0%nat, 0%nat)]
  /\ Main.start stuckEnv [Main.TimerFired]
     = Main.Exited
         (Some "error stopping plugins from previous run: error shutting down NVML: driver not loaded")
         [Main.ActStart 0 0 true; Main.ActStart 0 1 false; Main.ActArmTimer 30;
          Main.ActStop 0 0; Main.ActStop 0 1; Main.ActStop 0 2; Main.ActShutdown].
Proof. repeat split. Qed.

(** C9 (amended).  Whenever the [Start] of plugin [k] fails in the cycle
    the supervisor waits in: that plugin serves a device and every
    plugin before it that serves one was started; the failed [Start] is
    the last call of the cycle but for the arming of a 30-second timer,
    so no further handle of the cycle is started; and the handles
    started in the cycle, those of the plugins before [k] that serve a
    device, stay started while the supervisor waits.  When the timer
    fires, every handle created in that cycle is stopped and NVML is
    shut down first, after which no handle is started; if the shutdown
    fails [start] returns that error, and otherwise Starting is
    re-entered with the next plugin list.  Over every run, whenever a
    handle is started all handles started and not yet stopped belong to
    the same cycle, and a handle with zero devices is never started. *)
Theorem start_failed_cycle (env : Main.Env) (evs : list Main.Event) :
  (forall s k,
      Main.start env evs = Main.Waiting s ->
      In (Main.ActStart (Main.cycle s - 1) k false) (Main.trace s) ->
      (exists p, nth_error (Main.plugins s) k = Some p
                 /\ Main.Devices p <> [] /\ Main.Start p <> None)
      /\ (forall j q, (j < k)%nat -> nth_error (Main.plugins s) j = Some q ->
                      Main.Devices q <> [] ->
                      Main.Start q = None
                      /\ In (Main.ActStart (Main.cycle s - 1) j true) (Main.trace s))
      /\ (exists tr,
             Main.trace s
             = tr ++ [Main.ActStart (Main.cycle s - 1) k false; Main.ActArmTimer 30])
      /\ (forall j ok,
             In (Main.ActStart (Main.cycle s - 1) j ok) (Main.trace s) ->
             ((j < k)%nat /\ ok = true) \/ (j = k /\ ok = false))
      /\ Main.restartTimeout s = true
      /\ (forall h,
             In h (Main.started (Main.trace s)) <->
             fst h = (Main.cycle s - 1)%nat /\ (snd h < k)%nat
             /\ exists q, nth_error (Main.plugins s) (snd h) = Some q
                          /\ Main.Devices q <> [])
      /\ Main.started (Main.trace s ++ teardown s) = []
      /\ (exists rest,
             Main.trace_of (Main.step env s Main.TimerFired)
             = Main.trace s ++ teardown s ++ rest)
      /\ (forall err,
             Main.Shutdown env (Main.shutdowns s) = Some err ->
             exists e,
               Main.step env s Main.TimerFired
               = Main.Exited (Some e) (Main.trace s ++ teardown s))
      /\ (forall ps,
             Main.Shutdown env (Main.shutdowns s) = None ->
             Main.setup env (Main.cycle s) = Main.Plugins ps ->
             exists s' acts,
               Main.step env s Main.TimerFired = Main.Waiting s'
               /\ Main.cycle s' = S (Main.cycle s)
               /\ Main.plugins s' = ps
               /\ Main.trace s' = Main.trace s ++ teardown s ++ acts
               /\ forall a, In a acts ->
                            a = Main.ActArmTimer 30
                            \/ exists j ok, a = Main.ActStart (Main.cycle s) j ok))
  /\ separated (Main.trace_of (Main.start env evs))
  /\ servesDevices env (Main.trace_of (Main.start env evs)).
Proof.
  pose proof (start_supervised env evs) as Hsup.
  pose proof (start_cycleLast env evs) as Hlast.
  split.
  - intros s k Hs Hin; rewrite Hs in Hsup, Hlast.
    destruct Hsup as [Hsv Hb]; simpl in Hlast.
    destruct (failed_cycle_calls s k Hlast Hin)
      as (Hfail & Hp & Hbefore & pre & acts & Htr & Hloop & Hpre & Hacts).
    destruct (Hb Hfail) as [Htimeout _].
    pose proof (timer_step env s Htimeout) as Hstep.
    assert (Hc : (1 <= Main.cycle s)%nat) by apply Hlast.
    split; [exact Hp|]; split.
    { intros j q Hj Hn Hd; split; [exact (Hbefore j q Hj Hn Hd)|].
      rewrite Htr; apply in_app_iff; right; apply in_app_iff; left.
      apply Hacts; exists j, q; auto. }
    split; [exists (pre ++ acts); now rewrite Htr, <- app_assoc|]; split.
    { intros j ok Hj; rewrite Htr in Hj.
      apply in_app_iff in Hj as [Hj|Hj]; [apply Hpre in Hj; lia|].
      apply in_app_iff in Hj as [Hj|[E|[E|[]]]]; [| |discriminate].
      - apply Hacts in Hj as (j' & q & E & Hj' & _).
        injection E as -> ->; auto.
      - injection E as -> <-; auto. }
    split; [exact Htimeout|]; split.
    { intros h.
      destruct Hsv as (_ & _ & Hst & _); rewrite Hst, Hloop.
      unfold Main.started; rewrite fold_left_app; simpl.
      rewrite starts_In.
      - rewrite Hacts; destruct h as [hc hk]; simpl; split.
        + intros [[]|(j & q & E & Hj & Hn & Hd)].
          injection E as -> ->; split; [reflexivity|]; split; [exact Hj|].
          now exists q.
        + intros (-> & Hj & q & Hn & Hd); right; exists hk, q; auto.
      - intros a Ha; apply Hacts in Ha as (j & q & -> & _); eauto. }
    split; [now apply teardown_clears with (env := env)|].
    split; [|split].
    + rewrite Hstep.
      destruct (Main.Shutdown env (Main.shutdowns s)); simpl.
      * exists []; now rewrite app_nil_r.
      * destruct (Main.startPlugins env (Main.cycle s))
          as [[acts0 [[ps r] [err|]]]|]; simpl.
        -- now exists acts0.
        -- eexists; reflexivity.
        -- exists []; now rewrite app_nil_r.
    + intros err Herr; rewrite Hstep, Herr; eexists; reflexivity.
    + intros ps Hok Hsetup; rewrite Hstep, Hok.
      unfold Main.startPlugins; rewrite Hsetup.
      pose proof (startLoop_actions ps (Main.cycle s) 0) as Hact.
      destruct (Main.startLoop (Main.cycle s) 0 ps) as [acts0 r]; simpl in *.
      eexists; exists (acts0 ++ (if r then [Main.ActArmTimer 30] else [])).
      split; [reflexivity|]; repeat split.
      intros a Ha; apply in_app_iff in Ha as [Ha|Ha].
      * apply Hact in Ha as (j & ok & _ & -> & _); right; eauto.
      * destruct r; [destruct Ha as [<-|[]]; now left | destruct Ha].
  - apply supervisedStatus_trace in Hsup.
    split; [apply orderly_separated|]; apply Hsup.
Qed.

Lemma start_failed_cycle_witness :
  (Main.start recoveringEnv [] = Main.Waiting failedOnce
   /\ In (Main.ActStart 0 1 false) (Main.trace failedOnce))
  /\ (exists tr,
         Main.trace failedOnce
         = tr ++ [Main.ActStart 0 1 false; Main.ActArmTimer 30])
  /\ (forall j ok,
         In (Main.ActStart 0 j ok) (Main.trace failedOnce) ->
         ((j < 1)%nat /\ ok = true) \/ (j = 1%nat /\ ok = false))
  /\ Main.restartTimeout failedOnce = true
  /\ Main.started (Main.trace failedOnce ++ teardown failedOnce) = []
  /\ exists s' acts,
      Main.step recoveringEnv failedOnce Main.TimerFired = Main.Waiting s'
      /\ Main.cycle s' = 2%nat
      /\ Main.trace s' = Main.trace failedOnce ++ teardown failedOnce ++ acts.
Proof.
  assert (H1 : Main.start recoveringEnv [] = Main.Waiting failedOnce) by reflexivity.
  assert (H2 : In (Main.ActStart 0 1 false) (Main.trace failedOnce))
    by (right; left; reflexivity).
  split; [split; assumption|].
  destruct (proj1 (start_failed_cycle recoveringEnv []) failedOnce 1%nat H1 H2)
    as (_ & _ & Htr & Hlast & Ht & _ & Hc & _ & _ & Hnext).
  split; [exact Htr|]; split; [exact Hlast|]; split; [exact Ht|]; split; [exact Hc|].
  destruct (Hnext _ eq_refl eq_refl) as (s' & acts & Hs & Hcyc & _ & Htr' & _).
  exists s', acts; auto.
Defined.

Example start_restart_cycles :
  Main.trace_of
    (Main.start recoveringEnv
                [Main.FsError "overflow"; Main.TimerFired; Main.TimerFired;
                 Main.OsSignal Main.SIGHUP; Main.OsSignal Main.SIGTERM])
  = [Main.ActStart 0 0 true; Main.ActStart 0 1 false; Main.ActArmTimer 30;
     Main.ActStop 0 0; Main.ActStop 0 1; Main.ActStop 0 2; Main.ActShutdown;
     Main.ActStart 1 0 true; Main.ActStart 1 2 true;
     Main.ActStop 1 0; Main.ActStop 1 1; Main.ActStop 1 2; Main.ActShutdown;
     Main.ActStart 2 0 true; Main.ActStart 2 2 true;
     Main.ActStop 2 0; Main.ActStop 2 1; Main.ActStop 2 2; Main.ActShutdown].
Proof. reflexivity. Qed.

(* ================================================================= *)
(** * Further properties of the code *)

(* ----------------------------------------------------------------- *)
(** ** allocate.go *)

(** X1.  The fallback [alloc] panics exactly when [size] is negative:
    a negative [size] never fails the length test and reaches
    [devices[:size]]. *)
Theorem alloc_panics_iff
        (r : resourceManager) (available required : list string) (size : Z) :
  (exists msg, alloc r available required size = Panics msg) <-> size < 0.
Proof.
  unfold alloc.
  destruct (Z.ltb_spec (Z.of_nat (List.length (candidates r available required))) size)
    as [Hlt|Hge].
  - split; [intros [msg H]; discriminate | lia].
  - destruct (Z.ltb_spec size 0) as [Hneg|Hpos].
    + split; [auto | intros _; eexists; reflexivity].
    + split; [intros [msg H]; discriminate | lia].
Qed.

(** X2.  Whatever [available] and the device set hold, a successful
    fallback allocation with a duplicate-free [required] has no
    duplicate id. *)
Theorem alloc_no_duplicates
        (r : resourceManager) (available required : list string) (size : Z)
        (res : list string) :
  NoDup required ->
  alloc r available required size = Returns (res, None) ->
  NoDup res.
Proof.
  intros Hnd H; unfold alloc in H.
  destruct (_ <? size); [discriminate|].
  destruct (size <? 0); [discriminate|].
  injection H as <-.
  now apply NoDup_firstn, candidates_NoDup.
Qed.

Lemma alloc_no_duplicates_witness :
  alloc fleetAB ["B"; "A"; "B"; "Z"] ["A"] 2 = Returns (["A"; "B"], None)
  /\ NoDup ["A"; "B"].
Proof.
  assert (H : alloc fleetAB ["B"; "A"; "B"; "Z"] ["A"] 2 = Returns (["A"; "B"], None))
    by reflexivity.
  split; [exact H|].
  apply (alloc_no_duplicates fleetAB ["B"; "A"; "B"; "Z"] ["A"] 2 ["A"; "B"]);
    [|exact H].
  repeat constructor; intros [].
Defined.

(* ----------------------------------------------------------------- *)
(** ** nvml.go: waiting for an event *)

(** X4.  When [nvmlWaitForEvent] returns an error the event is the zero
    value: its UUID and both instance ids are nil and its type and data
    are 0. *)
Theorem nvmlWaitForEvent_failure (uintPtr : Z -> option Z)
        (lib : Library) (es : EventSet) (timeout : Z) (ev : nvmlEvent) (e : error) :
  nvmlWaitForEvent uintPtr lib es timeout = (ev, Some e) ->
  ev = nvmlEvent_zero
  /\ UUID ev = None /\ GpuInstanceID ev = None /\ ComputeInstanceID ev = None.
Proof.
  unfold nvmlWaitForEvent.
  destruct (es (wrap32 timeout)) as [data ret].
  destruct (negb (isSuccess ret));
    [intros H; injection H as <- _; repeat split|].
  destruct (GetUUID (dev lib (EventDevice data))) as [uuid ret'].
  destruct (negb (isSuccess ret'));
    [intros H; injection H as <- _; repeat split|].
  destruct (IsMigDeviceHandle (dev lib (EventDevice data))) as [isMig ret''].
  destruct (negb (isSuccess ret''));
    [intros H; injection H as <- _; repeat split|].
  discriminate.
Qed.

Lemma nvmlWaitForEvent_failure_witness :
  nvmlWaitForEvent (fun c => Some c) (nodeWith 1 1 10240)
                   (fun _ => (mkEventData 0%nat 0 0 0 0, ERROR_TIMEOUT)) 5000
  = (nvmlEvent_zero, Some "ERROR_TIMEOUT")
  /\ nvmlEvent_zero = nvmlEvent_zero.
Proof.
  assert (H : nvmlWaitForEvent (fun c => Some c) (nodeWith 1 1 10240)
                (fun _ => (mkEventData 0%nat 0 0 0 0, ERROR_TIMEOUT)) 5000
              = (nvmlEvent_zero, Some "ERROR_TIMEOUT")) by reflexivity.
  split; [exact H|].
  exact (proj1 (nvmlWaitForEvent_failure _ _ _ _ _ _ H)).
Defined.

(** X5.  The timeout reaches the event set cut to 32 bits: two timeouts
    that differ by a multiple of [2^32] milliseconds wait alike. *)
Theorem nvmlWaitForEvent_timeout_wraps (uintPtr : Z -> option Z)
        (lib : Library) (es : EventSet) (timeout k : Z) :
  nvmlWaitForEvent uintPtr lib es (timeout + k * 2 ^ 32)
  = nvmlWaitForEvent uintPtr lib es timeout.
Proof.
  unfold nvmlWaitForEvent, wrap32.
  now rewrite Z.mod_add by lia.
Qed.

(* ----------------------------------------------------------------- *)
(** ** nvml.go: registering for events *)

Lemma upto_In (n i : Z) : In i (upto n) <-> 0 <= i < n.
Proof.
  unfold upto; rewrite in_map_iff; split.
  - intros (k & <- & Hk); apply in_seq in Hk; lia.
  - intros H; exists (Z.to_nat i); split; [lia|].
    apply in_seq; lia.
Qed.

(** The indices before an index of a counted loop are those below it. *)
Lemma upto_split (n i : Z) (pre post : list Z) :
  upto n = pre ++ i :: post -> pre = upto i.
Proof.
  unfold upto; intros H.
  assert (Hlen : (List.length pre < Z.to_nat n)%nat).
  { apply (f_equal (@List.length Z)) in H.
    rewrite length_map, length_seq, length_app in H; simpl in H; lia. }
  assert (Hi : i = Z.of_nat (List.length pre)).
  { apply (f_equal (fun l => nth (List.length pre) l 0)) in H.
    rewrite app_nth2, Nat.sub_diag in H by lia; simpl in H.
    rewrite <- H.
    change 0 with (Z.of_nat 0); rewrite map_nth, seq_nth by lia.
    reflexivity. }
  assert (Hseq : seq 0 (Z.to_nat n)
                 = seq 0 (List.length pre)
                     ++ seq (List.length pre) (Z.to_nat n - List.length pre)).
  { rewrite <- seq_app; f_equal; lia. }
  rewrite Hseq, map_app in H.
  apply (f_equal (firstn (List.length pre))) in H.
  rewrite !firstn_app, length_map, length_seq, !Nat.sub_diag in H.
  rewrite firstn_all, (firstn_all2 (map _ _)) in H
    by (rewrite length_map, length_seq; lia).
  simpl in H; rewrite !app_nil_r in H.
  now rewrite Hi, Nat2Z.id.
Qed.

Lemma registerScan_success (lib : Library) (q : Queries) (event : Z)
      (uuid : string) (idx : list Z) :
  forall regs,
    registerScan lib q event uuid idx = (regs, None) ->
    exists pre i post d,
      idx = pre ++ i :: post
      /\ (forall j, In j pre -> passedOver lib uuid j)
      /\ DeviceGetHandleByIndex lib i = (d, SUCCESS)
      /\ GetUUID (dev lib d) = (uuid, SUCCESS)
      /\ RegisterEvents (q d) (wrap64 event) = SUCCESS
      /\ regs = [(d, wrap64 event)].
Proof.
  induction idx as [|i idx IH]; intros regs; simpl; [discriminate|].
  destruct (DeviceGetHandleByIndex lib i) as [d ret] eqn:Eh.
  destruct ret; simpl; try discriminate.
  destruct (GetUUID (dev lib d)) as [duuid ret] eqn:Eu.
  destruct ret; simpl; try discriminate.
  destruct (String.eqb_spec duuid uuid) as [->|Hne]; simpl.
  - destruct (RegisterEvents (q d) (wrap64 event)) eqn:Er; simpl; try discriminate.
    intros H; injection H as <-.
    exists [], i, idx, d; repeat split; auto.
    intros j [].
  - intros H; apply IH in H as (pre & i' & post & d' & -> & Hpre & H').
    exists (i :: pre), i', post, d'; split; [reflexivity|]; split; [|exact H'].
    intros j [<-|Hj]; [exists d, duuid; auto | now apply Hpre].
Qed.

Lemma registerScan_not_found (lib : Library) (q : Queries) (event : Z)
      (uuid : string) (idx : list Z) :
  (forall j, In j idx -> passedOver lib uuid j) ->
  registerScan lib q event uuid idx = ([], Some "nvml: device not found").
Proof.
  induction idx as [|i idx IH]; intros H; simpl; [reflexivity|].
  destruct (H i (or_introl eq_refl)) as (d & u & Eh & Eu & Hne).
  rewrite Eh; simpl; rewrite Eu; simpl.
  destruct (String.eqb_spec u uuid) as [E|_]; [contradiction|]; simpl.
  apply IH; intros j Hj; apply H; now right.
Qed.

Lemma registerScan_calls (lib : Library) (q : Queries) (event : Z)
      (uuid : string) (idx : list Z) :
  forall regs err,
    registerScan lib q event uuid idx = (regs, err) ->
    (List.length regs <= 1)%nat
    /\ forall d mask,
        In (d, mask) regs ->
        GetUUID (dev lib d) = (uuid, SUCCESS) /\ mask = wrap64 event.
Proof.
  induction idx as [|i idx IH]; intros regs err; simpl.
  - intros H; injection H as <- _; split; [auto | intros d mask []].
  - destruct (DeviceGetHandleByIndex lib i) as [d ret] eqn:Eh.
    destruct (negb (isSuccess ret));
      [intros H; injection H as <- _; split; [auto | intros ? ? []]|].
    destruct (GetUUID (dev lib d)) as [duuid ret'] eqn:Eu.
    destruct ret'; simpl;
      try (intros H; injection H as <- _; split; [auto | intros ? ? []]).
    destruct (String.eqb_spec duuid uuid) as [->|Hne]; simpl; [|apply IH].
    destruct (negb (isSuccess (RegisterEvents (q d) (wrap64 event))));
      intros H; injection H as <- _;
      (split; [auto | intros d' mask [E|[]]; injection E as <- <-; auto]).
Qed.

(** X6.  When [nvmlRegisterEventForDevice] succeeds it has registered
    the event mask, as a [uint64], on exactly one device: the one with
    the lowest index whose UUID is the requested one, every device
    before it having answered with another UUID. *)
Theorem nvmlRegisterEventForDevice_success
        (lib : Library) (q : Queries) (event : Z) (uuid : string)
        (regs : list (Nvml.Device * Z)) :
  nvmlRegisterEventForDevice lib q event uuid = (regs, None) ->
  exists count i d,
    DeviceGetCount lib = (count, SUCCESS)
    /\ 0 <= i < count
    /\ DeviceGetHandleByIndex lib i = (d, SUCCESS)
    /\ GetUUID (dev lib d) = (uuid, SUCCESS)
    /\ RegisterEvents (q d) (wrap64 event) = SUCCESS
    /\ regs = [(d, wrap64 event)]
    /\ forall j, 0 <= j < i -> passedOver lib uuid j.
Proof.
  unfold nvmlRegisterEventForDevice.
  destruct (DeviceGetCount lib) as [count ret].
  destruct ret; simpl; try discriminate.
  intros H; apply registerScan_success in H
    as (pre & i & post & d & Hidx & Hpre & Hh & Hu & Hr & ->).
  exists count, i, d.
  assert (Hi : In i (upto count)) by (rewrite Hidx, in_app_iff; simpl; auto).
  apply upto_In in Hi.
  repeat split; try assumption; try lia.
  intros j Hj; apply Hpre.
  rewrite (upto_split _ _ _ _ Hidx); apply upto_In, Hj.
Qed.

(** X7.  When every device in range answers with a UUID other than the
    requested one, [nvmlRegisterEventForDevice] registers nothing and
    fails with "nvml: device not found"; so it does on a node without
    devices. *)
Theorem nvmlRegisterEventForDevice_not_found
        (lib : Library) (q : Queries) (event : Z) (uuid : string) (count : Z) :
  DeviceGetCount lib = (count, SUCCESS) ->
  (forall j, 0 <= j < count -> passedOver lib uuid j) ->
  nvmlRegisterEventForDevice lib q event uuid
  = ([], Some "nvml: device not found").
Proof.
  intros Hc H; unfold nvmlRegisterEventForDevice; rewrite Hc; simpl.
  apply registerScan_not_found.
  intros j Hj; apply H, upto_In, Hj.
Qed.

(** X8.  Whatever it returns, [nvmlRegisterEventForDevice] calls
    [RegisterEvents] at most once, and only on a device whose UUID is
    the requested one. *)
Theorem nvmlRegisterEventForDevice_calls
        (lib : Library) (q : Queries) (event : Z) (uuid : string)
        (regs : list (Nvml.Device * Z)) (err : option error) :
  nvmlRegisterEventForDevice lib q event uuid = (regs, err) ->
  (List.length regs <= 1)%nat
  /\ forall d mask,
      In (d, mask) regs ->
      GetUUID (dev lib d) = (uuid, SUCCESS) /\ mask = wrap64 event.
Proof.
  unfold nvmlRegisterEventForDevice.
  destruct (DeviceGetCount lib) as [count ret].
  destruct (negb (isSuccess ret));
    [intros H; injection H as <- _; split; [auto | intros ? ? []]|].
  apply registerScan_calls.
Qed.

Lemma nvmlRegisterEventForDevice_success_witness :
  nvmlRegisterEventForDevice twoGpus twoGpusQueries 8 "GPU-1" = ([(1%nat, 8)], None)
  /\ exists count i d,
      DeviceGetCount twoGpus = (count, SUCCESS)
      /\ 0 <= i < count
      /\ DeviceGetHandleByIndex twoGpus i = (d, SUCCESS)
      /\ GetUUID (dev twoGpus d) = ("GPU-1", SUCCESS)
      /\ RegisterEvents (twoGpusQueries d) (wrap64 8) = SUCCESS
      /\ [(1%nat, 8)] = [(d, wrap64 8)]
      /\ forall j, 0 <= j < i -> passedOver twoGpus "GPU-1" j.
Proof.
  assert (H : nvmlRegisterEventForDevice twoGpus twoGpusQueries 8 "GPU-1"
              = ([(1%nat, 8)], None)) by reflexivity.
  split; [exact H|].
  exact (nvmlRegisterEventForDevice_success twoGpus twoGpusQueries 8 "GPU-1" _ H).
Defined.

Lemma nvmlRegisterEventForDevice_not_found_witness :
  nvmlRegisterEventForDevice twoGpus twoGpusQueries 8 "MIG-1-0"
  = ([], Some "nvml: device not found").
Proof.
  apply (nvmlRegisterEventForDevice_not_found twoGpus twoGpusQueries 8 "MIG-1-0" 2).
  - reflexivity.
  - intros j Hj.
    assert (E : j = 0 \/ j = 1) by lia.
    destruct E as [-> | ->].
    + exists 0%nat, "GPU-0"; repeat split; discriminate.
    + exists 1%nat, "GPU-1"; repeat split; discriminate.
Defined.

Lemma nvmlRegisterEventForDevice_calls_witness :
  (List.length [(0%nat, 8)] <= 1)%nat
  /\ forall d mask,
      In (d, mask) [(0%nat, 8)] ->
      GetUUID (dev twoGpus d) = ("GPU-0", SUCCESS) /\ mask = wrap64 8.
Proof.
  apply (nvmlRegisterEventForDevice_calls twoGpus twoGpusQueries 8 "GPU-0"
                                          [(0%nat, 8)] None).
  reflexivity.
Defined.

(* ----------------------------------------------------------------- *)
(** ** nvml.go: walking the GPUs *)

Lemma walkGPUDevices_body_order {St : Type} (lib : Library)
      (f : Z -> Nvml.Device -> St -> St * option error) (idx : list Z) :
  forall log st,
    let r := forEach
               (fun i vs =>
                  let '(device, ret) := DeviceGetHandleByIndex lib i in
                  if negb (isSuccess ret) then
                    (vs, Some ("error getting device handle for index '" ++ fmt_d i
                               ++ "': " ++ ErrorString ret)%string)
                  else loggedGPU f i device vs)
               idx (log, st) in
    exists new,
      fst (fst r) = log ++ new
      /\ (exists n,
             map fst new
             = firstn n (map (fun i => (i, fst (DeviceGetHandleByIndex lib i))) idx))
      /\ (snd r = None ->
          map fst new = map (fun i => (i, fst (DeviceGetHandleByIndex lib i))) idx)
      /\ (forall i d e, In (i, d, e) new ->
                        DeviceGetHandleByIndex lib i = (d, SUCCESS))
      /\ (forall pre x post,
             new = pre ++ x :: post -> snd x <> None ->
             post = [] /\ snd r = snd x)
      /\ (forall pre i post,
             idx = pre ++ i :: post ->
             isSuccess (snd (DeviceGetHandleByIndex lib i)) = false ->
             (List.length new <= List.length pre)%nat).
Proof.
  induction idx as [|i idx IH]; intros log st; simpl.
  - exists []; rewrite app_nil_r; split; [reflexivity|].
    split; [exists 0%nat; reflexivity|]; split; [reflexivity|].
    split; [intros ? ? ? []|]; split.
    + intros pre x post E; now apply app_cons_not_nil in E.
    + intros pre j post E; now apply app_cons_not_nil in E.
  - destruct (DeviceGetHandleByIndex lib i) as [d ret] eqn:Eh.
    assert (Hstop : forall e : error,
               isSuccess ret = false ->
               exists new : list (Z * Nvml.Device * option error),
                 log = log ++ new
                 /\ (exists n,
                        map fst new
                        = firstn n ((i, d)
                                      :: map (fun i => (i, fst (DeviceGetHandleByIndex lib i)))
                                             idx))
                 /\ (Some e = None ->
                     map fst new
                     = (i, d) :: map (fun i => (i, fst (DeviceGetHandleByIndex lib i))) idx)
                 /\ (forall i d e, In (i, d, e) new ->
                                   DeviceGetHandleByIndex lib i = (d, SUCCESS))
                 /\ (forall pre x post,
                        new = pre ++ x :: post -> snd x <> None ->
                        post = [] /\ Some e = snd x)
                 /\ (forall pre j post,
                        i :: idx = pre ++ j :: post ->
                        isSuccess (snd (DeviceGetHandleByIndex lib j)) = false ->
                        (List.length new <= List.length pre)%nat)).
    { intros e _; exists []; rewrite app_nil_r; split; [reflexivity|].
      split; [exists 0%nat; reflexivity|]; split; [discriminate|].
      split; [intros ? ? ? []|]; split.
      - intros pre x post E; now apply app_cons_not_nil in E.
      - intros; simpl; lia. }
    destruct ret; simpl; try (apply Hstop; reflexivity).
    clear Hstop.
    destruct (f i d st) as [st' [e|]] eqn:Ef; simpl.
    + exists [(i, d, Some e)]; split; [reflexivity|].
      split; [exists 1%nat; reflexivity|]; split; [discriminate|]; split.
      { intros i' d' e' [E|[]]; injection E as <- <- _; exact Eh. }
      split.
      * intros pre x post E _; destruct pre as [|a pre]; simpl in E.
        -- injection E as <- <-; auto.
        -- injection E as _ E; now apply app_cons_not_nil in E.
      * intros pre j post E Hj; destruct pre as [|a pre]; simpl in *; [|lia].
        injection E as <- _; rewrite Eh in Hj; discriminate.
    + destruct (IH (log ++ [(i, d, None)]) st')
        as (new & Hlog & (n & Hn) & Hall & Hok & Hlast & Hfail).
      exists ((i, d, None) :: new); split.
      { rewrite <- app_assoc in Hlog; exact Hlog. }
      split; [exists (S n); simpl; now rewrite Hn|]; split.
      { intros E; simpl; now rewrite (Hall E). }
      split.
      { intros i' d' e' [E|Hin]; [injection E as <- <- _; exact Eh|].
        now apply (Hok i' d' e'). }
      split.
      * intros pre x post E Hx; destruct pre as [|a pre]; simpl in E.
        -- injection E as <- _; now contradiction Hx.
        -- injection E as _ E; exact (Hlast pre x post E Hx).
      * intros pre j post E Hj; destruct pre as [|a pre]; simpl in *.
        -- injection E as <- _; rewrite Eh in Hj; discriminate.
        -- injection E as _ E; specialize (Hfail pre j post E Hj); lia.
Qed.

(** X9.  [walkGPUDevices] calls its callback on the GPUs in index order
    from 0, each with the handle the library gave for it: the calls are
    an initial part of the list of GPUs, and all of it when no error is
    returned.  It stops at the first failing callback, whose error it
    returns: a call that answered an error is the last call.  And it
    stops at the first failing handle query: when the handle of GPU [i]
    cannot be read, at most the [i] GPUs before it are passed to the
    callback and an error is returned.  The calls are those of the walk
    itself: recording them changes neither the callback's state nor the
    error. *)
Theorem walkGPUDevices_order (St : Type) (lib : Library)
        (f : Z -> Nvml.Device -> St -> St * option error) (st : St) (count : Z) :
  DeviceGetCount lib = (count, SUCCESS) ->
  let run := walkGPUDevices lib (loggedGPU f) ([], st) in
  let calls := fst (fst run) in
  (exists n, map fst calls = firstn n (gpuHandles lib count))
  /\ (snd run = None -> map fst calls = gpuHandles lib count)
  /\ (forall i d e, In (i, d, e) calls ->
                    DeviceGetHandleByIndex lib i = (d, SUCCESS))
  /\ (forall pre x post,
         calls = pre ++ x :: post -> snd x <> None ->
         post = [] /\ snd run = snd x)
  /\ (forall i, 0 <= i < count ->
                isSuccess (snd (DeviceGetHandleByIndex lib i)) = false ->
                (List.length calls <= Z.to_nat i)%nat /\ snd run <> None)
  /\ snd (fst run) = fst (walkGPUDevices lib f st)
  /\ snd run = snd (walkGPUDevices lib f st).
Proof.
  intros Hc run calls; unfold calls, run, walkGPUDevices; rewrite Hc; simpl.
  destruct (walkGPUDevices_body_order lib f (upto count) [] st)
    as (new & Hlog & Hn & Hall & Hok & Hlast & Hfail); simpl in Hlog.
  rewrite Hlog.
  split; [exact Hn|].
  split; [exact Hall|].
  split; [exact Hok|].
  split; [exact Hlast|].
  split.
  - intros i Hi Hbad.
    assert (Hlen : (List.length new <= Z.to_nat i)%nat).
    { destruct (in_split i (upto count) (proj2 (upto_In count i) Hi))
        as (pre & post & E).
      pose proof (Hfail pre i post E Hbad) as Hle.
      apply upto_split in E; subst pre.
      unfold upto in Hle; rewrite length_map, length_seq in Hle; exact Hle. }
    split; [exact Hlen|].
    intros Hnone; apply Hall in Hnone.
    apply (f_equal (@List.length (Z * Nvml.Device))) in Hnone.
    unfold upto in Hnone; rewrite !length_map, length_seq in Hnone; lia.
  - apply (forEach_sim _ _ (fun (a : list (Z * Nvml.Device * option error) * St)
                                (b : St) => snd a = b));
      [|reflexivity].
    intros i [log s1] s2 E; simpl in E; subst s2.
    destruct (DeviceGetHandleByIndex lib i) as [d ret].
    destruct (negb (isSuccess ret)); [simpl; auto|].
    unfold loggedGPU; destruct (f i d s1) as [s' e]; simpl; auto.
Qed.

Lemma walkGPUDevices_order_witness :
  fst (fst (walkGPUDevices twoGpus
                           (loggedGPU (fun i _ (st : unit) =>
                                         (st, if i =? 0 then Some "busy" else None)))
                           ([], tt)))
  = [(0, 0%nat, Some "busy")]
  /\ snd (walkGPUDevices twoGpus
                         (loggedGPU (fun i _ (st : unit) =>
                                       (st, if i =? 0 then Some "busy" else None)))
                         ([], tt))
     = Some "busy".
Proof.
  split; [reflexivity|].
  exact (proj2 (proj1 (proj2 (proj2 (proj2
           (walkGPUDevices_order unit twoGpus
              (fun i _ st => (st, if i =? 0 then Some "busy" else None))
              tt 2 eq_refl))))
           [] (0, 0%nat, Some "busy") [] eq_refl
           (fun E => eq_ind (Some "busy")
                            (fun o => match o with Some _ => True | None => False end)
                            I None E))).
Defined.

(* ----------------------------------------------------------------- *)
(** ** nvml.go: profile names are unambiguous *)

Lemma string_of_uint_numeric (d : Decimal.uint) :
  allNumeric (NilEmpty.string_of_uint d) = true.
Proof. induction d; simpl; auto. Qed.

Lemma fmt_d_numeric (n : Z) : allNumeric (fmt_d n) = true.
Proof.
  unfold fmt_d; destruct (Z.to_int n); simpl; apply string_of_uint_numeric.
Qed.

Lemma fmt_d_inj (a b : Z) : fmt_d a = fmt_d b -> a = b.
Proof.
  unfold fmt_d; intros H.
  apply DecimalZ.to_int_inj.
  apply (f_equal NilEmpty.int_of_string) in H.
  rewrite !NilEmpty.isi in H; now injection H.
Qed.

(** A number followed by a character no number holds ends where that
    character stands. *)
Lemma numeric_split (u : string) :
  forall (v : string) (x y : ascii) (s t : string),
    allNumeric u = true -> allNumeric v = true ->
    numericChar x = false -> numericChar y = false ->
    (u ++ String x s)%string = (v ++ String y t)%string ->
    u = v /\ x = y /\ s = t.
Proof.
  induction u as [|a u IH]; intros v x y s t Hu Hv Hx Hy H.
  - destruct v as [|b v]; simpl in H.
    + injection H as -> ->; auto.
    + injection H as -> _; simpl in Hv.
      apply andb_true_iff in Hv as [Hb _]; congruence.
  - destruct v as [|b v]; simpl in H.
    + injection H as -> _; simpl in Hu.
      apply andb_true_iff in Hu as [Ha _]; congruence.
    + injection H as -> H; simpl in Hu, Hv.
      apply andb_true_iff in Hu as [_ Hu]; apply andb_true_iff in Hv as [_ Hv].
      destruct (IH v x y s t Hu Hv Hx Hy H) as (-> & -> & ->); auto.
Qed.

Lemma number_then (a b : Z) (x y : ascii) (s t : string) :
  numericChar x = false -> numericChar y = false ->
  (fmt_d a ++ String x s)%string = (fmt_d b ++ String y t)%string ->
  a = b /\ x = y /\ s = t.
Proof.
  intros Hx Hy H.
  apply numeric_split in H as (E & -> & ->); auto using fmt_d_numeric.
  apply fmt_d_inj in E; auto.
Qed.

(** X10.  The names [walkMigProfiles] uses to tell profiles apart are
    unambiguous: two GPU-instance profiles get the same name only if
    they have the same slice count and the same rounded-up memory size,
    so the walk never drops a profile that differs in either. *)
Theorem giProfileName_inj (g g' memMB memMB' : Z) :
  giProfileName g memMB = giProfileName g' memMB' ->
  g = g' /\ memGB memMB = memGB memMB'.
Proof.
  unfold giProfileName; intros H.
  change (fmt_d g ++ String "g" (String "." (fmt_d (memGB memMB) ++ "gb"))
          = fmt_d g' ++ String "g" (String "." (fmt_d (memGB memMB') ++ "gb")))%string
    in H.
  apply number_then in H as (-> & _ & H); [|reflexivity|reflexivity].
  injection H as H.
  change (fmt_d (memGB memMB) ++ String "g" "b"
          = fmt_d (memGB memMB') ++ String "g" "b")%string in H.
  apply number_then in H as (-> & _ & _); [auto|reflexivity|reflexivity].
Qed.

Lemma giProfileName_inj_witness :
  (7 = 7 /\ memGB 40192 = memGB 40960)
  /\ giProfileName 7 40192 = "7g.40gb".
Proof.
  split; [|reflexivity].
  apply (giProfileName_inj 7 7 40192 40960); reflexivity.
Defined.

Lemma profileName_inj (g c gb g' c' gb' : Z) :
  profileName g c gb = profileName g' c' gb' ->
  g = g' /\ c = c' /\ gb = gb'.
Proof.
  unfold profileName.
  destruct (Z.eqb_spec g c) as [<-|Hne]; destruct (Z.eqb_spec g' c') as [<-|Hne'];
    intros H.
  - change (fmt_d g ++ String "g" (String "." (fmt_d gb ++ "gb"))
            = fmt_d g' ++ String "g" (String "." (fmt_d gb' ++ "gb")))%string in H.
    apply number_then in H as (-> & _ & H); [|reflexivity|reflexivity].
    injection H as H.
    change (fmt_d gb ++ String "g" "b" = fmt_d gb' ++ String "g" "b")%string in H.
    apply number_then in H as (-> & _ & _); [auto|reflexivity|reflexivity].
  - change (fmt_d g ++ String "g" (String "." (fmt_d gb ++ "gb"))
            = fmt_d c' ++ String "c"
                (String "." (fmt_d g' ++ "g." ++ fmt_d gb' ++ "gb")))%string in H.
    apply number_then in H as (_ & E & _); [discriminate|reflexivity|reflexivity].
  - change (fmt_d c ++ String "c"
                (String "." (fmt_d g ++ "g." ++ fmt_d gb ++ "gb"))
            = fmt_d g' ++ String "g" (String "." (fmt_d gb' ++ "gb")))%string in H.
    apply number_then in H as (_ & E & _); [discriminate|reflexivity|reflexivity].
  - change (fmt_d c ++ String "c"
                (String "." (fmt_d g ++ String "g" (String "." (fmt_d gb ++ "gb"))))
            = fmt_d c' ++ String "c"
                (String "." (fmt_d g' ++ String "g"
                                      (String "." (fmt_d gb' ++ "gb")))))%string in H.
    apply number_then in H as (-> & _ & H); [|reflexivity|reflexivity].
    injection H as H.
    apply number_then in H as (-> & _ & H); [|reflexivity|reflexivity].
    injection H as H.
    change (fmt_d gb ++ String "g" "b" = fmt_d gb' ++ String "g" "b")%string in H.
    apply number_then in H as (-> & _ & _); [auto|reflexivity|reflexivity].
Qed.

Lemma getMigProfile_success (lib : Library) (d : nvmlDevice) (p : string) :
  getMigProfile lib d = (p, None) ->
  exists attr,
    isMigDevice lib d = (true, None)
    /\ GetAttributes (dev lib d) = (attr, SUCCESS)
    /\ p = profileName (GpuInstanceSliceCount attr)
                       (ComputeInstanceSliceCount attr)
                       (memGB (MemorySizeMB attr)).
Proof.
  unfold getMigProfile, profileName.
  destruct (isMigDevice lib d) as [[|] [e|]]; try discriminate.
  destruct (GetAttributes (dev lib d)) as [attr ret].
  destruct ret; simpl; try discriminate.
  intros H; exists attr; repeat split.
  destruct (_ =? _); now injection H as <-.
Qed.

(** X11.  [getMigProfile] gives two MIG devices the same profile name
    only if they have the same GPU-instance slice count, the same
    compute-instance slice count and the same rounded-up memory size. *)
Theorem getMigProfile_inj
        (lib lib' : Library) (d d' : nvmlDevice) (p : string)
        (attr attr' : DeviceAttributes) :
  getMigProfile lib d = (p, None) ->
  getMigProfile lib' d' = (p, None) ->
  GetAttributes (dev lib d) = (attr, SUCCESS) ->
  GetAttributes (dev lib' d') = (attr', SUCCESS) ->
  GpuInstanceSliceCount attr = GpuInstanceSliceCount attr'
  /\ ComputeInstanceSliceCount attr = ComputeInstanceSliceCount attr'
  /\ memGB (MemorySizeMB attr) = memGB (MemorySizeMB attr').
Proof.
  intros H H' Ha Ha'.
  apply getMigProfile_success in H as (a & _ & E & ->).
  apply getMigProfile_success in H' as (a' & _ & E' & Hp).
  rewrite Ha in E; rewrite Ha' in E'.
  injection E as <-; injection E' as <-.
  now apply profileName_inj.
Qed.

Lemma getMigProfile_inj_witness :
  GpuInstanceSliceCount (mkAttributes 2 1 20480)
  = GpuInstanceSliceCount (mkAttributes 2 1 19968)
  /\ ComputeInstanceSliceCount (mkAttributes 2 1 20480)
     = ComputeInstanceSliceCount (mkAttributes 2 1 19968)
  /\ memGB (MemorySizeMB (mkAttributes 2 1 20480))
     = memGB (MemorySizeMB (mkAttributes 2 1 19968)).
Proof.
  apply (getMigProfile_inj (nodeWith 2 1 20480) (nodeWith 2 1 19968)
                           1%nat 1%nat "1c.2g.20gb");
    reflexivity.
Defined.

(** X12.  [getMigProfile] returns the empty name with every error and a
    name that is not empty with none: for a handle that is no MIG
    device, and when the attributes cannot be read, the name is empty;
    on success the handle is a MIG device whose attributes were read. *)
Theorem getMigProfile_result (lib : Library) (d : nvmlDevice) :
  match getMigProfile lib d with
  | (p, Some _) =>
      p = ""
      /\ (isMigDevice lib d <> (true, None)
          \/ snd (GetAttributes (dev lib d)) <> SUCCESS)
  | (p, None) =>
      p <> ""
      /\ isMigDevice lib d = (true, None)
      /\ snd (GetAttributes (dev lib d)) = SUCCESS
  end.
Proof.
  destruct (getMigProfile lib d) as [p [e|]] eqn:E.
  - unfold getMigProfile in E.
    destruct (isMigDevice lib d) as [[|] [e'|]];
      try (injection E as <- _; split; [reflexivity | left; discriminate]).
    destruct (GetAttributes (dev lib d)) as [attr ret].
    destruct ret; simpl in *;
      try (injection E as <- _; split; [reflexivity | right; discriminate]).
    destruct (_ =? _); discriminate.
  - apply getMigProfile_success in E as (attr & Hmig & Hattr & ->).
    rewrite Hattr; repeat split; auto.
    unfold profileName.
    destruct (_ =? _).
    + destruct (fmt_d (GpuInstanceSliceCount attr)); discriminate.
    + destruct (fmt_d (ComputeInstanceSliceCount attr)); discriminate.
Qed.

(* ----------------------------------------------------------------- *)
(** ** nvml.go: the profile walk misses nothing *)

Lemma forEach_ok {St I : Type} (body : I -> St -> St * option error)
      (idx : list I) :
  (forall i st, In i idx -> snd (body i st) = None) ->
  forall st, snd (forEach body idx st) = None.
Proof.
  induction idx as [|i idx IH]; intros Hok st; simpl; [reflexivity|].
  pose proof (Hok i st (or_introl eq_refl)) as Hi.
  destruct (body i st) as [st' [e|]]; [discriminate Hi|].
  apply IH; intros j s Hj; apply Hok; now right.
Qed.

(** A property of the rounds done so far holds after a loop that ends
    without error. *)
Lemma forEach_done {St I : Type} (body : I -> St -> St * option error)
      (P : list I -> St -> Prop) :
  (forall done i st st',
      P done st -> body i st = (st', None) -> P (done ++ [i]) st') ->
  forall idx done st st',
    P done st -> forEach body idx st = (st', None) -> P (done ++ idx) st'.
Proof.
  intros Hbody; induction idx as [|i idx IH]; simpl; intros done st st' HP H.
  - injection H as <-; now rewrite app_nil_r.
  - destruct (body i st) as [st1 [e|]] eqn:Eb; [discriminate|].
    replace (done ++ i :: idx) with ((done ++ [i]) ++ idx)
      by (rewrite <- app_assoc; reflexivity).
    eapply IH; [|exact H].
    eapply Hbody; eauto.
Qed.

Lemma mem_member_true (p : string) (visited : list string) :
  mem_member p visited = true -> In p visited.
Proof.
  unfold mem_member; intros H.
  apply existsb_exists in H as (x & Hx & E).
  apply String.eqb_eq in E; now subst.
Qed.

Section WalkComplete.

Variable N : Z.
Context {St : Type}.
Variable f : string -> St -> St * option error.
Variable lib : Library.

Lemma walkProfileSlot_covers (gpu : Nvml.Device) (v0 : list string)
      (done : list Z) (j : Z) (vs vs' : list string * (list string * St)) :
  (incl v0 (fst vs) /\ incl (fst vs) (fst (snd vs))
   /\ forall k, In k done -> slotCovered lib gpu (fst vs) k) ->
  walkProfileSlot (logged f) lib gpu j vs = (vs', None) ->
  incl v0 (fst vs') /\ incl (fst vs') (fst (snd vs'))
  /\ forall k, In k (done ++ [j]) -> slotCovered lib gpu (fst vs') k.
Proof.
  destruct vs as [visited [log st]]; simpl.
  intros (H0 & Hlog & Hcov); unfold walkProfileSlot.
  destruct (GetGpuInstanceProfileInfo (dev lib gpu) j) as [info ret] eqn:Einfo.
  assert (Hskip : ret <> SUCCESS ->
                  forall k, In k (done ++ [j]) -> slotCovered lib gpu visited k).
  { intros Hret k Hk; apply in_app_iff in Hk as [Hk|[<-|[]]]; [now apply Hcov|].
    intros info' E; rewrite Einfo in E; injection E as _ E; congruence. }
  destruct ret; try discriminate;
    try (intros H; injection H as <-; simpl; repeat split; auto;
         apply Hskip; discriminate).
  destruct (mem_member _ visited) eqn:Em.
  - intros H; injection H as <-; simpl; repeat split; auto.
    intros k Hk; apply in_app_iff in Hk as [Hk|[<-|[]]]; [now apply Hcov|].
    intros info' E; rewrite Einfo in E; injection E as <-.
    apply mem_member_true in Em; exact Em.
  - unfold logged.
    destruct (f _ st) as [st' [e|]]; [discriminate|].
    intros H; injection H as <-; simpl; repeat split.
    + intros x Hx; right; now apply H0.
    + intros x [<-|Hx]; [now left | right; now apply Hlog].
    + intros k Hk; apply in_app_iff in Hk as [Hk|[<-|[]]].
      * intros info' E; right; now apply (Hcov k Hk).
      * intros info' E; rewrite Einfo in E; injection E as <-; now left.
Qed.

Lemma walkMigProfiles_covers (count : Z) (st : St)
      (visited log : list string) (st' : St) :
  forEach
    (fun i vs =>
       let '(device, ret) := DeviceGetHandleByIndex lib i in
       if negb (isSuccess ret) then
         (vs, Some ("error getting device handle for index '" ++ fmt_d i
                    ++ "': " ++ ErrorString ret)%string)
       else
         match isMigCapable lib device with
         | (_, Some err) =>
             (vs, Some ("error checking if GPU " ++ fmt_d i
                        ++ " is MIG capable: " ++ err)%string)
         | (false, None) => (vs, None)
         | (true, None) =>
             forEach (walkProfileSlot (logged f) lib device) (upto N) vs
         end)
    (upto count) ([], ([], st))
  = ((visited, (log, st')), None) ->
  incl visited log
  /\ forall i, In i (upto count) -> gpuCovered lib N visited i.
Proof.
  intros H.
  apply (forEach_done _
           (fun done (vs : list string * (list string * St)) =>
              incl (fst vs) (fst (snd vs))
              /\ forall i, In i done -> gpuCovered lib N (fst vs) i)
           ) with (done := []) in H; simpl in *.
  - exact H.
  - clear H; intros done i [vis [lg s]] vs1 [Hlog Hcov]; simpl in *.
    destruct (DeviceGetHandleByIndex lib i) as [gpu ret] eqn:Eh.
    destruct ret; simpl; try discriminate.
    destruct (isMigCapable lib gpu) as [[|] [e|]] eqn:Ecap; try discriminate.
    + intros Hin.
      apply (forEach_done _
               (fun dn (vs : list string * (list string * St)) =>
                  incl vis (fst vs) /\ incl (fst vs) (fst (snd vs))
                  /\ forall k, In k dn -> slotCovered lib gpu (fst vs) k))
        with (done := []) in Hin.
      * destruct Hin as (Hmono & Hlog' & Hslots); simpl in Hslots.
        split; [exact Hlog'|].
        intros i' Hi'; apply in_app_iff in Hi' as [Hi'|[<-|[]]].
        -- intros g j Hg Hc Hj info E.
           apply Hmono; exact (Hcov i' Hi' g j Hg Hc Hj info E).
        -- intros g j Hg Hc Hj.
           rewrite Eh in Hg; injection Hg as <-.
           apply Hslots, upto_In, Hj.
      * intros dn j vs vs' Hp Hb.
        exact (walkProfileSlot_covers gpu vis dn j vs vs' Hp Hb).
      * simpl; repeat split; [apply incl_refl | exact Hlog | intros k []].
    + intros Hin; injection Hin as <-; simpl.
      split; [exact Hlog|].
      intros i' Hi'; apply in_app_iff in Hi' as [Hi'|[<-|[]]]; [now apply Hcov|].
      intros g j Hg Hc Hj.
      rewrite Eh in Hg; injection Hg as <-; congruence.
  - split; [intros x [] | intros i []].
Qed.

End WalkComplete.

(** X13.  When [walkMigProfiles] returns no error it has passed to its
    callback the name of every GPU-instance profile that a MIG-capable
    GPU of the node reports in a slot below
    [GPU_INSTANCE_PROFILE_COUNT]: no profile is left out. *)
Theorem walkMigProfiles_complete (N : Z) (St : Type)
        (f : string -> St -> St * option error) (lib : Library) (st : St)
        (count i j : Z) (gpu : Nvml.Device) (info : GpuInstanceProfileInfo) :
  DeviceGetCount lib = (count, SUCCESS) ->
  snd (walkMigProfiles N (logged f) lib ([], st)) = None ->
  0 <= i < count ->
  DeviceGetHandleByIndex lib i = (gpu, SUCCESS) ->
  isMigCapable lib gpu = (true, None) ->
  0 <= j < N ->
  GetGpuInstanceProfileInfo (dev lib gpu) j = (info, SUCCESS) ->
  In (giProfileName (SliceCount info) (ProfileMemorySizeMB info))
     (fst (fst (walkMigProfiles N (logged f) lib ([], st)))).
Proof.
  intros Hc Herr Hi Hg Hcap Hj Hinfo.
  unfold walkMigProfiles, walkGPUDevices in *; rewrite Hc in *; simpl in *.
  match goal with
  | |- context [forEach ?b ?idx ?s] =>
      destruct (forEach b idx s) as [[visited [log st']] err] eqn:E
  end.
  simpl in *; subst err.
  apply walkMigProfiles_covers in E as [Hlog Hcov].
  apply Hlog.
  exact (Hcov i (proj2 (upto_In count i) Hi) gpu j Hg Hcap Hj info Hinfo).
Qed.

Lemma walkMigProfiles_complete_witness :
  In (giProfileName (SliceCount (mkProfileInfo 1 5120))
                    (ProfileMemorySizeMB (mkProfileInfo 1 5120)))
     (fst (fst (walkMigProfiles 7 (logged accept) twoGpus ([], tt))))
  /\ fst (fst (walkMigProfiles 7 (logged accept) twoGpus ([], tt)))
     = ["1g.5gb"; "7g.40gb"].
Proof.
  split; [|reflexivity].
  apply (walkMigProfiles_complete 7 unit accept twoGpus tt 2 1 0 1%nat);
    try reflexivity; lia.
Defined.

(* ----------------------------------------------------------------- *)
(** ** nvml.go: walking the MIG devices *)

(** [forEach_inv] for a body that keeps [P] on the indices of the loop. *)
Lemma forEach_inv_in {St I : Type} (body : I -> St -> St * option error)
      (P : St -> Prop) (idx : list I) :
  (forall i st, In i idx -> P st -> P (fst (body i st))) ->
  forall st, P st -> P (fst (forEach body idx st)).
Proof.
  induction idx as [|i idx IH]; simpl; intros Hbody st HP; [assumption|].
  pose proof (Hbody i st (or_introl eq_refl) HP) as H1.
  destruct (body i st) as [st' [e|]]; simpl in *; [assumption|].
  apply IH; auto.
Qed.

(** X14.  [isMigEnabled] answers true only for a device that
    [isMigCapable] accepts, the two fail on the same devices, and a
    device that is not MIG capable is not MIG enabled. *)
Theorem isMigEnabled_capable (lib : Library) (d : nvmlDevice) :
  (fst (isMigEnabled lib d) = true -> isMigCapable lib d = (true, None))
  /\ snd (isMigEnabled lib d) = snd (isMigCapable lib d)
  /\ (isMigCapable lib d = (false, None) -> isMigEnabled lib d = (false, None)).
Proof.
  unfold isMigEnabled, isMigCapable.
  destruct (nvmlLookupSymbol lib "nvmlDeviceGetMigMode"); simpl;
    [repeat split; auto; discriminate|].
  destruct (GetMigMode (dev lib d)) as [[mode pending] ret].
  destruct ret; simpl; repeat split; auto; discriminate.
Qed.

Lemma isMigEnabled_capable_witness :
  isMigCapable twoGpus 1%nat = (true, None)
  /\ isMigEnabled twoGpus 0%nat = (false, None)
  /\ isMigCapable twoGpus 0%nat = (true, None).
Proof.
  split; [|split; reflexivity].
  exact (proj1 (isMigEnabled_capable twoGpus 1%nat) eq_refl).
Defined.

Section WalkMigDevices.

Context {St : Type}.
Variable f : Z -> Z -> Nvml.Device -> St -> St * option error.
Variable lib : Library.
Variable q : Queries.
Variable count : Z.

Let outer :=
  fun (i : Z) (vs : list (Z * Z * Nvml.Device) * St) =>
    let '(device, ret) := DeviceGetHandleByIndex lib i in
    if negb (isSuccess ret) then
      (vs, Some ("error getting device handle for GPU with index '"
                 ++ fmt_d i ++ "': " ++ ErrorString ret)%string)
    else
      match isMigEnabled lib device with
      | (_, Some err) =>
          (vs, Some ("error checking if MIG is enabled on GPU with index '"
                     ++ fmt_d i ++ "': " ++ err)%string)
      | (false, None) => (vs, None)
      | (true, None) =>
          match nvmlDevice_walkMigDevices q device
                  (fun j device => loggedMig f i j device) vs with
          | (st', Some err) =>
              (st', Some ("error walking MIG devices on GPU with index '"
                          ++ fmt_d i ++ "': " ++ err)%string)
          | (st', None) => (st', None)
          end
      end.

Lemma walkMigDevices_unfold (st : St) :
  DeviceGetCount lib = (count, SUCCESS) ->
  walkMigDevices lib q (loggedMig f) ([], st)
  = forEach outer (upto count) ([], st).
Proof. intros Hc; unfold walkMigDevices; rewrite Hc; reflexivity. Qed.

Lemma outer_sound (i : Z) (vs : list (Z * Z * Nvml.Device) * St) :
  In i (upto count) ->
  (forall x, In x (fst vs) -> migSlot lib q count x) ->
  forall x, In x (fst (fst (outer i vs))) -> migSlot lib q count x.
Proof.
  intros Hi Hvs; unfold outer.
  destruct (DeviceGetHandleByIndex lib i) as [gpu ret] eqn:Eh.
  destruct ret; simpl; try assumption.
  destruct (isMigEnabled lib gpu) as [[|] [e|]] eqn:Een; simpl; try assumption.
  unfold nvmlDevice_walkMigDevices.
  destruct (GetMaxMigDeviceCount (q gpu)) as [maxCount ret] eqn:Emax.
  destruct ret; simpl; try assumption.
  match goal with
  | |- context [forEach ?b ?idx vs] =>
      assert (Hinner : forall x, In x (fst (fst (forEach b idx vs))) ->
                                 migSlot lib q count x);
      [|destruct (forEach b idx vs) as [vs' [e|]]; exact Hinner]
  end.
  apply (forEach_inv_in _ (fun vs => forall x, In x (fst vs) -> migSlot lib q count x));
    [|exact Hvs].
  intros j [log s] Hj Hlog.
  destruct (GetMigDeviceHandleByIndex (q gpu) j) as [d r] eqn:Ed.
  destruct r; try exact Hlog.
  unfold loggedMig; destruct (f i j d s) as [s' e']; cbn [fst snd] in *.
  intros x Hx; apply in_app_iff in Hx as [Hx|[<-|[]]]; [now apply Hlog|].
  apply upto_In in Hi; apply upto_In in Hj.
  exists gpu, maxCount; cbn [fst snd]; auto 10.
Qed.

Lemma inner_complete (i : Z) (gpu : Nvml.Device) (idx : list Z)
      (vs vs' : list (Z * Z * Nvml.Device) * St) :
  forEach
    (fun j st =>
       let '(device, ret) := GetMigDeviceHandleByIndex (q gpu) j in
       match ret with
       | ERROR_NOT_FOUND => (st, None)
       | ERROR_INVALID_ARGUMENT => (st, None)
       | SUCCESS => loggedMig f i j device st
       | _ =>
           (st, Some ("error getting MIG device handle at index '" ++ fmt_d j
                      ++ "': " ++ ErrorString ret)%string)
       end)
    idx vs = (vs', None) ->
  incl (fst vs) (fst vs')
  /\ forall j d, In j idx ->
                 GetMigDeviceHandleByIndex (q gpu) j = (d, SUCCESS) ->
                 In (i, j, d) (fst vs').
Proof.
  intros H.
  apply (forEach_done _
           (fun done (s : list (Z * Z * Nvml.Device) * St) =>
              incl (fst vs) (fst s)
              /\ forall j d, In j done ->
                             GetMigDeviceHandleByIndex (q gpu) j = (d, SUCCESS) ->
                             In (i, j, d) (fst s)))
    with (done := []) in H; simpl in *; [exact H| |].
  - clear H; intros done j [log s] s1 [Hmono Hcov]; simpl in *.
    destruct (GetMigDeviceHandleByIndex (q gpu) j) as [d r] eqn:Ed.
    destruct r; simpl; try discriminate.
    + destruct (f i j d s) as [s' [e|]]; [discriminate|].
      intros H; injection H as <-; simpl; split.
      * intros x Hx; apply in_app_iff; left; now apply Hmono.
      * intros j' d' Hj' Hd'; apply in_app_iff.
        apply in_app_iff in Hj' as [Hj'|[<-|[]]]; [left; now apply Hcov|].
        right; rewrite Ed in Hd'; injection Hd' as <-; now left.
    + intros H; injection H as <-; simpl; split; [exact Hmono|].
      intros j' d' Hj' Hd'.
      apply in_app_iff in Hj' as [Hj'|[<-|[]]]; [now apply Hcov|].
      rewrite Ed in Hd'; discriminate.
    + intros H; injection H as <-; simpl; split; [exact Hmono|].
      intros j' d' Hj' Hd'.
      apply in_app_iff in Hj' as [Hj'|[<-|[]]]; [now apply Hcov|].
      rewrite Ed in Hd'; discriminate.
  - split; [apply incl_refl | intros j d []].
Qed.

Lemma outer_complete (vs' : list (Z * Z * Nvml.Device) * St) (st : St) :
  forEach outer (upto count) ([], st) = (vs', None) ->
  forall x, migSlot lib q count x -> In x (fst vs').
Proof.
  intros H [[i j] d] (gpu & maxCount & Hi & Hg & Hen & Hmax & Hj & Hd);
    cbn [fst snd] in *.
  set (P := fun (done : list Z) (s : list (Z * Z * Nvml.Device) * St) =>
              forall i, In i done ->
                forall gpu maxCount j d,
                  DeviceGetHandleByIndex lib i = (gpu, SUCCESS) ->
                  isMigEnabled lib gpu = (true, None) ->
                  GetMaxMigDeviceCount (q gpu) = (maxCount, SUCCESS) ->
                  0 <= j < maxCount ->
                  GetMigDeviceHandleByIndex (q gpu) j = (d, SUCCESS) ->
                  In (i, j, d) (fst s)).
  assert (Hstep : forall done i st st',
             P done st -> outer i st = (st', None) -> P (done ++ [i]) st').
  { clear; intros done i vs vs1 Hcov; unfold outer.
    destruct (DeviceGetHandleByIndex lib i) as [gpu ret] eqn:Eh.
    destruct ret; cbn [negb isSuccess]; try discriminate.
    destruct (isMigEnabled lib gpu) as [[|] [e|]] eqn:Een; try discriminate.
    - unfold nvmlDevice_walkMigDevices.
      destruct (GetMaxMigDeviceCount (q gpu)) as [maxCount ret] eqn:Emax.
      destruct ret; cbn [negb isSuccess]; try discriminate.
      match goal with
      | |- context [forEach ?b ?idx vs] =>
          destruct (forEach b idx vs) as [s1 [e|]] eqn:Ein
      end; [discriminate|].
      intros H; injection H as <-.
      apply inner_complete in Ein as [Hmono Hin].
      intros i' Hi' g m j d Hg Hen' Hm Hj Hd.
      apply in_app_iff in Hi' as [Hi'|[<-|[]]].
      + apply Hmono; exact (Hcov i' Hi' g m j d Hg Hen' Hm Hj Hd).
      + rewrite Eh in Hg; injection Hg as <-.
        rewrite Emax in Hm; injection Hm as <-.
        apply Hin; [apply upto_In, Hj | exact Hd].
    - intros H; injection H as <-.
      intros i' Hi' g m j d Hg Hen' Hm Hj Hd.
      apply in_app_iff in Hi' as [Hi'|[<-|[]]];
        [exact (Hcov i' Hi' g m j d Hg Hen' Hm Hj Hd)|].
      rewrite Eh in Hg; injection Hg as <-; congruence. }
  assert (H0 : P [] ([], st)) by (intros i0 []).
  pose proof (forEach_done outer P Hstep (upto count) [] _ _ H0 H) as Hall.
  exact (Hall i (proj2 (upto_In count i) Hi) gpu maxCount j d Hg Hen Hmax Hj Hd).
Qed.

(** Logging the calls leaves the walk as it is. *)
Lemma walkMigDevices_logged (st : St) :
  snd (fst (walkMigDevices lib q (loggedMig f) ([], st)))
  = fst (walkMigDevices lib q f st)
  /\ snd (walkMigDevices lib q (loggedMig f) ([], st))
     = snd (walkMigDevices lib q f st).
Proof.
  unfold walkMigDevices.
  destruct (DeviceGetCount lib) as [c ret].
  destruct (negb (isSuccess ret)); [simpl; auto|].
  apply (forEach_sim _ _ (fun (a : list (Z * Z * Nvml.Device) * St) (b : St) =>
                            snd a = b));
    [|reflexivity].
  intros i [log s1] s2 E; cbn [snd] in E; subst s2.
  destruct (DeviceGetHandleByIndex lib i) as [gpu r].
  destruct (negb (isSuccess r)); [cbn [fst snd]; auto|].
  destruct (isMigEnabled lib gpu) as [[|] [e|]]; cbn [fst snd]; auto.
  unfold nvmlDevice_walkMigDevices.
  destruct (GetMaxMigDeviceCount (q gpu)) as [m r'].
  destruct (negb (isSuccess r')); [cbn [fst snd]; auto|].
  match goal with
  | |- context [forEach ?b1 ?idx (log, s1)] =>
      match goal with
      | |- context [forEach ?b2 idx s1] =>
          pose proof (forEach_sim b1 b2
                        (fun (a : list (Z * Z * Nvml.Device) * St) (b : St) =>
                           snd a = b)) as Hsim;
          specialize (fun H => Hsim H idx (log, s1) s1 eq_refl);
          destruct (forEach b1 idx (log, s1)) as [[l1 t1] e1];
          destruct (forEach b2 idx s1) as [t2 e2]
      end
  end.
  cbn [fst snd] in Hsim.
  assert (Hr : t1 = t2 /\ e1 = e2).
  { apply Hsim.
    intros j [lg sa] sb E; cbn [snd] in E; subst sb.
    destruct (GetMigDeviceHandleByIndex (q gpu) j) as [d rj].
    destruct rj; cbn [fst snd]; auto.
    unfold loggedMig; destruct (f i j d sa) as [s' e']; cbn [fst snd]; auto. }
  destruct Hr as [-> ->]; destruct e2; cbn [fst snd]; auto.
Qed.

(** Answers that are passed over do not stop the walk. *)
Lemma walkMigDevices_walkable (st : St) :
  walkable lib q count ->
  (forall i j d s, snd (f i j d s) = None) ->
  snd (forEach outer (upto count) ([], st)) = None.
Proof.
  intros Hw Hf; apply forEach_ok; intros i vs Hi.
  apply upto_In in Hi; unfold outer.
  destruct (Hw i Hi) as (gpu & -> & [Hen|(Hen & maxCount & Hmax & Hslots)]);
    cbn [negb isSuccess]; rewrite Hen; [reflexivity|].
  unfold nvmlDevice_walkMigDevices; rewrite Hmax; cbn [negb isSuccess].
  match goal with
  | |- context [forEach ?b ?idx vs] =>
      assert (Hinner : snd (forEach b idx vs) = None);
      [|destruct (forEach b idx vs) as [vs' [e|]];
        [discriminate Hinner | reflexivity]]
  end.
  apply forEach_ok; intros j [log s] Hj.
  apply upto_In in Hj; specialize (Hslots j Hj).
  destruct (GetMigDeviceHandleByIndex (q gpu) j) as [d r]; cbn [snd] in Hslots.
  destruct Hslots as [<-|[<-|[<-|[]]]]; try reflexivity.
  unfold loggedMig; specialize (Hf i j d s).
  destruct (f i j d s) as [s' e]; exact Hf.
Qed.

(** X15.  With the device count read, [walkMigDevices] calls its
    callback only on MIG devices of the node: on a slot of a GPU that
    has MIG enabled, with the handle the library gives for that slot.
    When it returns no error it has called the callback on every such
    MIG device.  A GPU without MIG enabled and a slot that answers "not
    found" or "invalid argument" are passed over without error: when
    every GPU is read and is either without MIG enabled or has slots
    that all answer with a handle, "not found" or "invalid argument",
    and the callback does not fail, no error is returned.  The calls
    are those of the walk itself: recording them changes neither the
    callback's state nor the error. *)
Theorem walkMigDevices_calls (st : St) :
  DeviceGetCount lib = (count, SUCCESS) ->
  let run := walkMigDevices lib q (loggedMig f) ([], st) in
  (forall x, In x (fst (fst run)) -> migSlot lib q count x)
  /\ (snd run = None -> forall x, migSlot lib q count x -> In x (fst (fst run)))
  /\ (walkable lib q count -> (forall i j d s, snd (f i j d s) = None) ->
      snd run = None)
  /\ snd (fst run) = fst (walkMigDevices lib q f st)
  /\ snd run = snd (walkMigDevices lib q f st).
Proof.
  intros Hc run; unfold run.
  split; [|split; [|split; [|apply walkMigDevices_logged]]];
    rewrite (walkMigDevices_unfold st Hc).
  - apply (forEach_inv_in outer
             (fun vs => forall x, In x (fst vs) -> migSlot lib q count x)).
    + intros i vs Hi Hvs; now apply outer_sound.
    + intros x [].
  - destruct (forEach outer (upto count) ([], st)) as [vs' err] eqn:E; simpl.
    intros ->; exact (outer_complete vs' st E).
  - apply walkMigDevices_walkable.
Qed.

End WalkMigDevices.

Lemma walkMigDevices_calls_witness :
  walkMigDevices twoGpus sparseQueries
                 (loggedMig (fun _ _ _ (st : unit) => (st, None)))
                 ([], tt)
  = ([(1, 1, 2%nat)], tt, None)
  /\ migSlot twoGpus sparseQueries 2 (1, 1, 2%nat)
  /\ snd (GetMigDeviceHandleByIndex (sparseQueries 1%nat) 0) = ERROR_INVALID_ARGUMENT.
Proof.
  split; [reflexivity|]; split; [|reflexivity].
  apply (proj1 (walkMigDevices_calls (fun _ _ _ (st : unit) => (st, None))
                                     twoGpus sparseQueries 2 tt eq_refl)).
  left; reflexivity.
Defined.

(* ----------------------------------------------------------------- *)
(** ** nvml.go: device nodes *)

Section PathsFacts.

Variable GetMigDeviceNodePaths : string -> list string * option error.
Variable lib : Library.
Variable q : Queries.

(** X16.  [getPaths] never returns paths together with an error: with
    every error the path list is nil. *)
Theorem getPaths_error (d : nvmlDevice) (paths : list string) (e : error) :
  getPaths GetMigDeviceNodePaths lib q d = (paths, Some e) -> paths = [].
Proof.
  unfold getPaths.
  destruct (isMigDevice lib d) as [[|] [e'|]];
    try (intros H; injection H as <- _; reflexivity).
  - destruct (GetUUID (dev lib d)) as [uuid ret].
    destruct (negb (isSuccess ret)); [intros H; injection H as <- _; reflexivity|].
    destruct (GetMigDeviceNodePaths uuid) as [ps [e'|]];
      [intros H; injection H as <- _; reflexivity | discriminate].
  - destruct (GetMinorNumber (q d)) as [minor ret].
    destruct (negb (isSuccess ret));
      [intros H; injection H as <- _; reflexivity | discriminate].
Qed.

(** X17.  For a handle that is no MIG device and whose minor number is
    read, [getPaths] returns the single path ["/dev/nvidia{minor}"], and
    two such devices get the same path only if they have the same minor
    number. *)
Theorem getPaths_full_device (d d' : nvmlDevice) (minor minor' : Z) :
  isMigDevice lib d = (false, None) ->
  GetMinorNumber (q d) = (minor, SUCCESS) ->
  isMigDevice lib d' = (false, None) ->
  GetMinorNumber (q d') = (minor', SUCCESS) ->
  getPaths GetMigDeviceNodePaths lib q d
  = ([("/dev/nvidia" ++ fmt_d minor)%string], None)
  /\ (getPaths GetMigDeviceNodePaths lib q d
      = getPaths GetMigDeviceNodePaths lib q d' -> minor = minor').
Proof.
  intros Hm Hn Hm' Hn'; unfold getPaths.
  rewrite Hm, Hn, Hm', Hn'; simpl; split; [reflexivity|].
  intros H; injection H as H.
  now apply fmt_d_inj.
Qed.

End PathsFacts.

Lemma getPaths_error_witness :
  getPaths (fun _ => (["/dev/nvidia-caps/nvidia-cap1"], Some "no capability"))
           twoGpus twoGpusQueries 2%nat
  = ([], Some "error getting MIG device paths: no capability")
  /\ @nil string = [].
Proof.
  assert (H : getPaths (fun _ => (["/dev/nvidia-caps/nvidia-cap1"],
                                  Some "no capability"))
                       twoGpus twoGpusQueries 2%nat
              = ([], Some "error getting MIG device paths: no capability"))
    by reflexivity.
  split; [exact H | exact (getPaths_error _ _ _ _ _ _ H)].
Defined.

Lemma getPaths_full_device_witness :
  getPaths (fun _ => ([], None)) twoGpus twoGpusQueries 1%nat
  = (["/dev/nvidia1"], None).
Proof.
  exact (proj1 (getPaths_full_device (fun _ => ([], None)) twoGpus twoGpusQueries
                                     1%nat 0%nat 1 0
                                     eq_refl eq_refl eq_refl eq_refl)).
Defined.

(* ----------------------------------------------------------------- *)
(** ** nvml.go: NUMA node *)

(** X18.  A MIG device has the NUMA node of its parent: when the parent
    handle is read and is itself no MIG device, [getNumaNode] returns
    for the MIG device what it returns for the parent. *)
Theorem getNumaNode_of_parent (lib : Library) (fs : Os.FileSystem)
        (d parent : nvmlDevice) :
  isMigDevice lib d = (true, None) ->
  GetDeviceHandleFromMigDeviceHandle (dev lib d) = (parent, SUCCESS) ->
  isMigDevice lib parent = (false, None) ->
  getNumaNode lib fs d = getNumaNode lib fs parent.
Proof.
  intros Hd Hp Hparent; unfold getNumaNode.
  rewrite Hd, Hp, Hparent; reflexivity.
Qed.

Lemma getNumaNode_of_parent_witness :
  getNumaNode twoGpus
              (fsWith "/sys/bus/pci/devices/0000:af:00.0/numa_node"
                      (Os.Content ("1" ++ newline)))
              2%nat
  = getNumaNode twoGpus
                (fsWith "/sys/bus/pci/devices/0000:af:00.0/numa_node"
                        (Os.Content ("1" ++ newline)))
                1%nat
  /\ getNumaNode twoGpus
                 (fsWith "/sys/bus/pci/devices/0000:af:00.0/numa_node"
                         (Os.Content ("1" ++ newline)))
                 2%nat
     = (Some 1, None).
Proof.
  split; [|reflexivity].
  apply getNumaNode_of_parent; reflexivity.
Defined.

(** X19.  A NUMA node that [getNumaNode] returns lies between 0 and 127
    and comes without an error. *)
Theorem getNumaNode_range (lib : Library) (fs : Os.FileSystem) (d : nvmlDevice)
        (n : Z) (err : option error) :
  getNumaNode lib fs d = (Some n, err) -> 0 <= n <= 127 /\ err = None.
Proof.
  unfold getNumaNode.
  destruct (isMigDevice lib d) as [isMig [e|]]; [discriminate|].
  match goal with
  | |- context [match ?step with inl _ => _ | inr _ => _ end] =>
      destruct step as [t|e]
  end; [|discriminate].
  destruct (GetPciInfo (dev lib t)) as [info ret].
  destruct (negb (isSuccess ret)); [discriminate|].
  destruct (fs _) as [b|e]; [|discriminate].
  destruct (ParseInt10 (TrimSpace b) 8) as [node|] eqn:E; [|discriminate].
  apply ParseInt10_int8 in E.
  destruct (Z.ltb_spec node 0) as [Hneg|Hpos]; [discriminate|].
  intros H; injection H as <- <-; split; [lia | reflexivity].
Qed.

Lemma getNumaNode_range_witness : 0 <= 1 <= 127 /\ @None error = None.
Proof.
  apply (getNumaNode_range
           twoGpus
           (fsWith "/sys/bus/pci/devices/0000:af:00.0/numa_node"
                   (Os.Content ("1" ++ newline)))
           2%nat 1 None).
  reflexivity.
Defined.

(* ----------------------------------------------------------------- *)
(** ** main: what [start] leaves behind *)

Section SupervisorMore.

Import Main.

Variable env : Env.

Lemma restart_drained (s : Supervisor) :
  supervised env s -> drainedStatus (restart env true s).
Proof.
  intros Hs; pose proof (teardown_clears env s Hs) as Hclear.
  unfold restart, stopPlugins; fold (teardown s).
  destruct (Shutdown env (shutdowns s)) as [err|]; simpl; [exact Hclear|].
  unfold startPlugins.
  destruct (setup env (cycle s)) as [err| |ps]; simpl.
  - now rewrite app_nil_r.
  - exact Hclear.
  - destruct (startLoop (cycle s) 0 ps); exact I.
Qed.

Lemma exit_drained (s : Supervisor) :
  supervised env s -> drainedStatus (exit env s).
Proof.
  intros Hs; pose proof (teardown_clears env s Hs) as Hclear.
  unfold exit, stopPlugins; fold (teardown s).
  destruct (Shutdown env (shutdowns s)); exact Hclear.
Qed.

Lemma step_drained (s : Supervisor) (ev : Event) :
  supervised env s -> drainedStatus (step env s ev).
Proof.
  intros Hs; destruct ev as [|name create|err|sig]; simpl.
  - destruct (restartTimeout s); [|exact I].
    now apply restart_drained.
  - destruct (String.eqb name KubeletSocket && create)%bool; [|exact I].
    now apply restart_drained.
  - exact I.
  - destruct sig; try now apply exit_drained.
    now apply restart_drained.
Qed.

Lemma loop_drained (evs : list Event) :
  forall st,
    supervisedStatus env st -> drainedStatus st ->
    drainedStatus (loop env st evs).
Proof.
  induction evs as [|ev evs IH]; intros st Hst Hd; simpl; [now destruct st|].
  destruct st as [s|err tr|tr]; try assumption.
  apply IH; [now apply step_supervised | apply step_drained, Hst].
Qed.

Lemma restart_first_drained : drainedStatus (restart env false initial).
Proof.
  unfold restart, initial, startPlugins; simpl.
  destruct (setup env 0) as [err| |ps]; simpl; try reflexivity.
  destruct (startLoop 0 0 ps); exact I.
Qed.

(** The backoff discipline along the calls. *)
Lemma backoffFrom_app (t1 t2 : list Action) (st : option bool) :
  backoffFrom st (t1 ++ t2) = backoffFrom (backoffFrom st t1) t2.
Proof. apply fold_left_app. Qed.

Lemma backoffFrom_None (tr : list Action) : backoffFrom None tr = None.
Proof. induction tr as [|a tr IH]; simpl; auto. Qed.

Lemma backoff_stops (c n a : nat) :
  backoffFrom (Some false) (map (ActStop c) (seq a n) ++ [ActShutdown])
  = Some false.
Proof.
  revert a; induction n as [|n IH]; intros a; simpl; [reflexivity|].
  apply IH.
Qed.

Lemma backoff_startLoop (ps : list NvidiaDevicePlugin) :
  forall c k,
    backoffFrom (Some false) (fst (startLoop c k ps))
    = Some (snd (startLoop c k ps)).
Proof.
  induction ps as [|p ps IH]; intros c k; simpl; [reflexivity|].
  destruct (Nat.eqb (List.length (Devices p)) 0); [apply IH|].
  destruct (Start p) as [e|]; simpl; [reflexivity|].
  specialize (IH c (S k)).
  destruct (startLoop c (S k) ps) as [acts r]; simpl in *; exact IH.
Qed.

Lemma backoff_teardown (s : Supervisor) (tr : list Action) :
  backoffFrom (Some false) tr = Some false ->
  backoffFrom (Some false) (tr ++ teardown s) = Some false.
Proof.
  intros H; rewrite backoffFrom_app, H; apply backoff_stops.
Qed.

Lemma backoff_cycle (timeout : bool) (c n : nat) (tr : list Action) :
  backoffFrom (Some false) tr = Some false ->
  backoffFrom (Some false)
    (trace_of
       match startPlugins env c with
       | None => Blocked tr
       | Some (acts, (_, _, Some err)) =>
           Exited (Some ("error starting plugins: " ++ err)%string) (tr ++ acts)
       | Some (acts, (ps, restartPlugins, None)) =>
           Waiting
             (mkSup (if restartPlugins then true else timeout) ps (S c) n
                    (tr ++ acts ++ (if restartPlugins then [ActArmTimer 30] else [])))
       end)
  = Some false.
Proof.
  intros H; unfold startPlugins.
  destruct (setup env c) as [err| |ps]; simpl.
  - now rewrite app_nil_r.
  - exact H.
  - pose proof (backoff_startLoop ps c 0) as Hl.
    destruct (startLoop c 0 ps) as [acts r]; simpl in *.
    rewrite backoffFrom_app, H, backoffFrom_app, Hl.
    now destruct r.
Qed.

Lemma restart_backoff (restarting : bool) (s : Supervisor) :
  backoffFrom (Some false) (trace s) = Some false ->
  backoffFrom (Some false) (trace_of (restart env restarting s)) = Some false.
Proof.
  intros H; unfold restart.
  destruct restarting.
  - unfold stopPlugins; fold (teardown s).
    pose proof (backoff_teardown s (trace s) H) as Ht.
    destruct (Shutdown env (shutdowns s)) as [err|]; simpl; [exact Ht|].
    pose proof (backoff_cycle (restartTimeout s) (cycle s) (S (shutdowns s))
                              (trace s ++ teardown s) Ht) as Hc.
    destruct (startPlugins env (cycle s)) as [[acts [[ps r] [err|]]]|];
      rewrite <- ?app_assoc in Hc; exact Hc.
  - pose proof (backoff_cycle (restartTimeout s) (cycle s) (shutdowns s)
                              (trace s) H) as Hc.
    simpl.
    destruct (startPlugins env (cycle s)) as [[acts [[ps r] [err|]]]|];
      simpl in *; rewrite ?app_nil_r; exact Hc.
Qed.

Lemma step_backoff (s : Supervisor) (ev : Event) :
  backoffFrom (Some false) (trace s) = Some false ->
  backoffFrom (Some false) (trace_of (step env s ev)) = Some false.
Proof.
  intros H; destruct ev as [|name create|err|sig]; simpl.
  - destruct (restartTimeout s); [|exact H].
    now apply (restart_backoff true (drained s)).
  - destruct (String.eqb name KubeletSocket && create)%bool; [|exact H].
    now apply restart_backoff.
  - exact H.
  - destruct sig; try now apply restart_backoff.
    all: unfold exit, stopPlugins; fold (teardown s);
      destruct (Shutdown env (shutdowns s)); simpl;
      now apply backoff_teardown.
Qed.

Lemma loop_backoff (evs : list Event) :
  forall st,
    backoffFrom (Some false) (trace_of st) = Some false ->
    backoffFrom (Some false) (trace_of (loop env st evs)) = Some false.
Proof.
  induction evs as [|ev evs IH]; intros st H; simpl; [now destruct st|].
  destruct st as [s|err tr|tr]; try assumption.
  apply IH, step_backoff, H.
Qed.

Lemma backoff_pending (tr : list Action) :
  backoffFrom (Some false) tr = Some true ->
  exists tr0 c k, tr = tr0 ++ [ActStart c k false].
Proof.
  induction tr as [|a0 tr0 _] using rev_ind; [discriminate|].
  rewrite backoffFrom_app; simpl.
  destruct (backoffFrom (Some false) tr0) as [[|]|]; simpl;
    destruct a0 as [c k [|]|c k| |n]; simpl; try discriminate.
  - destruct (n =? 30); discriminate.
  - intros _; now exists tr0, c, k.
Qed.

End SupervisorMore.

(** X20.  Whenever [start] returns, with or without an error, and
    whenever it blocks in [startPlugins], no plugin is left started:
    every plugin started before has been stopped. *)
Theorem start_leaves_nothing_started (env : Main.Env) (evs : list Main.Event) :
  (forall err tr, Main.start env evs = Main.Exited err tr -> Main.started tr = [])
  /\ (forall tr, Main.start env evs = Main.Blocked tr -> Main.started tr = []).
Proof.
  pose proof (loop_drained env evs _ (restart_first_supervised env)
                           (restart_first_drained env)) as H.
  fold (Main.start env evs) in H.
  split; intros; destruct (Main.start env evs); try discriminate;
    simpl in H; congruence.
Qed.

Lemma start_leaves_nothing_started_witness :
  Main.started
    [Main.ActStart 0 0 true; Main.ActStart 0 1 false; Main.ActArmTimer 30;
     Main.ActStop 0 0; Main.ActStop 0 1; Main.ActShutdown]
  = [].
Proof.
  apply (proj1 (start_leaves_nothing_started flakyEnv [Main.OsSignal Main.SIGTERM])
               (Some "error stopping plugins: error shutting down NVML: driver not loaded")).
  reflexivity.
Defined.

(** X21.  Over every run of [start] the timer is armed only directly
    after a failed [Start], and then for 30 seconds; and every failed
    [Start] is directly followed by arming it, so no further plugin is
    started in that cycle. *)
Theorem start_backoff_discipline (env : Main.Env) (evs : list Main.Event)
        (tr1 tr2 : list Main.Action) (a : Main.Action) :
  Main.trace_of (Main.start env evs) = tr1 ++ a :: tr2 ->
  (forall n, a = Main.ActArmTimer n ->
             n = 30 /\ exists tr0 c k, tr1 = tr0 ++ [Main.ActStart c k false])
  /\ (forall c k, a = Main.ActStart c k false ->
                  exists rest, tr2 = Main.ActArmTimer 30 :: rest).
Proof.
  intros Htr.
  assert (H : backoffFrom (Some false) (Main.trace_of (Main.start env evs))
              = Some false).
  { apply loop_backoff.
    apply (restart_backoff env false Main.initial); reflexivity. }
  rewrite Htr, backoffFrom_app in H; simpl in H.
  destruct (backoffFrom (Some false) tr1) as [pending|] eqn:E1;
    [|simpl in H; now rewrite backoffFrom_None in H].
  split.
  - intros n ->; simpl in H.
    destruct pending; simpl in H; [|now rewrite backoffFrom_None in H].
    destruct (Z.eqb_spec n 30) as [->|Hne]; [|now rewrite backoffFrom_None in H].
    split; [reflexivity | now apply backoff_pending].
  - intros c k ->; simpl in H.
    destruct pending; [now rewrite backoffFrom_None in H|].
    destruct tr2 as [|b rest]; [discriminate|].
    simpl in H.
    destruct b as [c' k' [|]|c' k'| |n]; simpl in H;
      try (now rewrite backoffFrom_None in H).
    destruct (Z.eqb_spec n 30) as [->|Hne]; [|now rewrite backoffFrom_None in H].
    now exists rest.
Qed.

Lemma start_backoff_discipline_witness :
  exists rest,
    [Main.ActArmTimer 30] = Main.ActArmTimer 30 :: rest.
Proof.
  apply (proj2 (start_backoff_discipline
                  flakyEnv [] [Main.ActStart 0 0 true] [Main.ActArmTimer 30]
                  (Main.ActStart 0 1 false) eq_refl) 0%nat 1%nat).
  reflexivity.
Defined.

(* ----------------------------------------------------------------- *)
(** ** main: disabling resource renaming *)

Section DisableFacts.

Variable D : string -> string.

Lemma disableEntry_spec (renameByDefault : bool)
      (done : list Spec.TimeSlicedResource) (nd sd : bool)
      (r : Spec.TimeSlicedResource) :
  Main.disableEntry D renameByDefault (done, nd, sd) r
  = (done ++ [normalEntry D renameByDefault r],
     (nd || negb (String.eqb (Spec.Rename r) (acceptedRename D renameByDefault r)))%bool,
     (sd || negb (Spec.All (Spec.Devices r)))%bool).
Proof.
  destruct r as [name rename [all cnt lst] replicas].
  unfold Main.disableEntry, normalEntry, acceptedRename; simpl.
  destruct renameByDefault; simpl.
  - destruct (String.eqb_spec rename (D name)) as [->|Hne]; simpl;
      destruct all; simpl; rewrite ?orb_true_r, ?orb_false_r; reflexivity.
  - destruct (String.eqb_spec rename "") as [->|Hne]; simpl;
      destruct all; simpl; rewrite ?orb_true_r, ?orb_false_r; reflexivity.
Qed.

Lemma disable_fold (renameByDefault : bool) (rs : list Spec.TimeSlicedResource) :
  forall done nd sd,
    fold_left (Main.disableEntry D renameByDefault) rs (done, nd, sd)
    = (done ++ map (normalEntry D renameByDefault) rs,
       (nd || existsb (fun r => negb (String.eqb (Spec.Rename r)
                                        (acceptedRename D renameByDefault r))) rs)%bool,
       (sd || existsb (fun r => negb (Spec.All (Spec.Devices r))) rs)%bool).
Proof.
  induction rs as [|r rs IH]; intros done nd sd; cbn [fold_left map existsb].
  - now rewrite app_nil_r, !orb_false_r.
  - rewrite disableEntry_spec, IH, <- app_assoc, <- !orb_assoc; reflexivity.
Qed.

Lemma disable_spec {R : Type} (config : Spec.Config R) :
  Main.disableResourceRenamingInConfig D config
  = (Spec.mkConfig None None (Spec.RenameByDefault config)
                   (map (normalEntry D (Spec.RenameByDefault config))
                        (Spec.Resources config)),
     (if (0 <? len (Spec.GPUs config)) || (0 <? len (Spec.MIGs config))
      then [Main.resourcesWarning] else [])
       ++ (if existsb (fun r => negb (String.eqb (Spec.Rename r)
                                        (acceptedRename D (Spec.RenameByDefault config) r)))
                      (Spec.Resources config)
           then [Main.renameWarning] else [])
       ++ (if existsb (fun r => negb (Spec.All (Spec.Devices r)))
                      (Spec.Resources config)
           then [Main.devicesWarning] else [])).
Proof.
  unfold Main.disableResourceRenamingInConfig.
  rewrite disable_fold; reflexivity.
Qed.

Lemma normalEntry_accepted (renameByDefault : bool) (r : Spec.TimeSlicedResource) :
  String.eqb (Spec.Rename (normalEntry D renameByDefault r))
             (acceptedRename D renameByDefault (normalEntry D renameByDefault r))
  = true
  /\ Spec.All (Spec.Devices (normalEntry D renameByDefault r)) = true.
Proof.
  unfold normalEntry, acceptedRename; simpl; split.
  - apply String.eqb_refl.
  - now destruct (Spec.All (Spec.Devices r)) eqn:E.
Qed.

Lemma normalEntry_fixed (renameByDefault : bool) (r : Spec.TimeSlicedResource) :
  normalEntry D renameByDefault r = r <->
  String.eqb (Spec.Rename r) (acceptedRename D renameByDefault r) = true
  /\ Spec.All (Spec.Devices r) = true.
Proof.
  destruct r as [name rename [all cnt lst] replicas].
  unfold normalEntry, acceptedRename; simpl; split.
  - intros H; injection H as Hr Hd; split; [rewrite Hr; apply String.eqb_refl|].
    destruct all; [reflexivity | now injection Hd].
  - intros [Hr ->]; apply String.eqb_eq in Hr; now rewrite <- Hr.
Qed.

Lemma map_fixed {A : Type} (g : A -> A) (l : list A) :
  map g l = l <-> forall x, In x l -> g x = x.
Proof.
  induction l as [|a l IH]; simpl; split; auto.
  - intros _ x [].
  - intros H; injection H as Ha Hl; intros x [<-|Hx]; [exact Ha | now apply IH].
  - intros H; f_equal; [apply H; now left | apply IH; intros x Hx; apply H; now right].
Qed.

(** X22.  After [disableResourceRenamingInConfig] the resource lists
    are nil, every time-sliced entry has [Devices.All] set and carries
    the default rename (the default shared name with [renameByDefault],
    none without it), and the entries keep their names, their replica
    counts and their order. *)
Theorem disableResourceRenamingInConfig_result {R : Type} (config : Spec.Config R) :
  let config' := fst (Main.disableResourceRenamingInConfig D config) in
  Spec.GPUs config' = None /\ Spec.MIGs config' = None
  /\ Spec.RenameByDefault config' = Spec.RenameByDefault config
  /\ map Spec.Name (Spec.Resources config') = map Spec.Name (Spec.Resources config)
  /\ map Spec.Replicas (Spec.Resources config')
     = map Spec.Replicas (Spec.Resources config)
  /\ forall r, In r (Spec.Resources config') ->
               Spec.All (Spec.Devices r) = true
               /\ Spec.Rename r
                  = (if Spec.RenameByDefault config then D (Spec.Name r) else "").
Proof.
  rewrite disable_spec; simpl.
  repeat split; try (rewrite map_map; reflexivity).
  - apply in_map_iff in H as (r0 & <- & _); apply normalEntry_accepted.
  - apply in_map_iff in H as (r0 & <- & _); reflexivity.
Qed.

(** X23.  [disableResourceRenamingInConfig] is idempotent and then
    silent: run on the configuration it has left, it changes nothing and
    logs nothing. *)
Theorem disableResourceRenamingInConfig_idempotent {R : Type}
        (config : Spec.Config R) :
  Main.disableResourceRenamingInConfig
    D (fst (Main.disableResourceRenamingInConfig D config))
  = (fst (Main.disableResourceRenamingInConfig D config), []).
Proof.
  rewrite (disable_spec config); simpl.
  rewrite disable_spec; simpl.
  set (rbd := Spec.RenameByDefault config).
  assert (Hfix : map (normalEntry D rbd) (map (normalEntry D rbd) (Spec.Resources config))
                 = map (normalEntry D rbd) (Spec.Resources config)).
  { apply map_fixed; intros x Hx.
    apply in_map_iff in Hx as (r & <- & _).
    apply normalEntry_fixed, normalEntry_accepted. }
  assert (Hr : forall rs,
             existsb (fun r => negb (String.eqb (Spec.Rename r) (acceptedRename D rbd r)))
                     (map (normalEntry D rbd) rs) = false).
  { induction rs as [|r rs IH]; cbn [map existsb]; [reflexivity|].
    rewrite IH, (proj1 (normalEntry_accepted rbd r)); reflexivity. }
  assert (Hd : forall rs,
             existsb (fun r => negb (Spec.All (Spec.Devices r)))
                     (map (normalEntry D rbd) rs) = false).
  { induction rs as [|r rs IH]; cbn [map existsb]; [reflexivity|].
    rewrite IH, (proj2 (normalEntry_accepted rbd r)); reflexivity. }
  now rewrite Hfix, Hr, Hd.
Qed.

(** X24.  [disableResourceRenamingInConfig] logs nothing if and only if
    both resource lists are empty, nil or not, and it leaves every
    time-sliced entry as it was.  So a configuration that it leaves
    unchanged is not warned about; and when nothing is logged the
    configuration is unchanged but for the two resource lists, which
    are nil afterwards whether they were nil or empty. *)
Theorem disableResourceRenamingInConfig_warns {R : Type} (config : Spec.Config R) :
  (snd (Main.disableResourceRenamingInConfig D config) = []
   <-> len (Spec.GPUs config) = 0 /\ len (Spec.MIGs config) = 0
       /\ Spec.Resources (fst (Main.disableResourceRenamingInConfig D config))
          = Spec.Resources config)
  /\ (fst (Main.disableResourceRenamingInConfig D config) = config
      <-> snd (Main.disableResourceRenamingInConfig D config) = []
          /\ Spec.GPUs config = None /\ Spec.MIGs config = None).
Proof.
  rewrite disable_spec; simpl.
  destruct config as [gpus migs rbd rs]; simpl.
  set (nr := existsb (fun r => negb (String.eqb (Spec.Rename r) (acceptedRename D rbd r))) rs).
  set (nd := existsb (fun r => negb (Spec.All (Spec.Devices r))) rs).
  assert (Hmap : map (normalEntry D rbd) rs = rs <-> nr = false /\ nd = false).
  { unfold nr, nd; rewrite map_fixed; split.
    - intros H; split; apply not_true_is_false; intros E;
        apply existsb_exists in E as (r & Hr & E);
        destruct (proj1 (normalEntry_fixed rbd r) (H r Hr)) as [H1 H2];
        rewrite ?H1, ?H2 in E; discriminate.
    - intros [H1 H2] r Hr; apply normalEntry_fixed; split.
      + destruct (String.eqb (Spec.Rename r) (acceptedRename D rbd r)) eqn:E;
          [reflexivity|].
        assert (nr = true); [|unfold nr in *; congruence].
        apply existsb_exists; exists r; now rewrite E.
      + destruct (Spec.All (Spec.Devices r)) eqn:E; [reflexivity|].
        assert (nd = true); [|unfold nd in *; congruence].
        apply existsb_exists; exists r; now rewrite E. }
  assert (Hlen : forall l : option (list R), 0 <= len l)
    by (intros [l|]; simpl; lia).
  assert (Hlog : (if (0 <? len gpus) || (0 <? len migs)
                  then [Main.resourcesWarning] else [])
                   ++ (if nr then [Main.renameWarning] else [])
                   ++ (if nd then [Main.devicesWarning] else []) = []
                 <-> len gpus = 0 /\ len migs = 0
                     /\ map (normalEntry D rbd) rs = rs).
  { rewrite Hmap.
    pose proof (Hlen gpus) as Hg; pose proof (Hlen migs) as Hm.
    destruct (Z.ltb_spec 0 (len gpus)) as [Hg'|Hg'];
      destruct (Z.ltb_spec 0 (len migs)) as [Hm'|Hm'];
      destruct nr; destruct nd; simpl;
      (split; [try discriminate; intros _; repeat split; lia
              | intros (H1 & H2 & H3 & H4);
                try discriminate; try lia; reflexivity]). }
  split; [exact Hlog|].
  rewrite Hlog; split.
  - intros H; injection H as Hg Hm H; subst gpus migs; simpl; auto.
  - intros ((_ & _ & H) & -> & ->); now rewrite H.
Qed.

End DisableFacts.

Example disableResourceRenamingInConfig_custom :
  Main.disableResourceRenamingInConfig sharedSuffix customConfig
  = (Spec.mkConfig
       None None false
       [Spec.mkTimeSlicedResource "nvidia.com/gpu" ""
                                  (Spec.mkTimeSlicedDevices true 0 None) 4;
        Spec.mkTimeSlicedResource "nvidia.com/mig-1g.5gb" ""
                                  (Spec.mkTimeSlicedDevices true 0 None) 2],
     [Main.resourcesWarning; Main.renameWarning; Main.devicesWarning]).
Proof. reflexivity. Qed.

(** Empty resource lists that are not nil are made nil without a
    warning. *)
Example disableResourceRenamingInConfig_empty_lists :
  Main.disableResourceRenamingInConfig sharedSuffix emptyListsConfig
  = (Spec.mkConfig None None false (Spec.Resources emptyListsConfig), [])
  /\ fst (Main.disableResourceRenamingInConfig sharedSuffix emptyListsConfig)
     <> emptyListsConfig.
Proof. split; [reflexivity | discriminate]. Qed.

Lemma disableResourceRenamingInConfig_result_witness :
  Spec.All (Spec.Devices
              (Spec.mkTimeSlicedResource "nvidia.com/gpu" ""
                                         (Spec.mkTimeSlicedDevices true 0 None) 4))
  = true
  /\ Spec.Rename (Spec.mkTimeSlicedResource "nvidia.com/gpu" ""
                                            (Spec.mkTimeSlicedDevices true 0 None) 4)
     = (if Spec.RenameByDefault customConfig
        then sharedSuffix "nvidia.com/gpu" else "").
Proof.
  apply (proj2 (proj2 (proj2 (proj2 (proj2
           (disableResourceRenamingInConfig_result sharedSuffix customConfig)))))).
  left; reflexivity.
Defined.

(* ----------------------------------------------------------------- *)
(** ** nvml.go: a driver without the MIG symbols *)

(** X25.  When the driver library lacks
    [nvmlDeviceIsMigDeviceHandle], every handle is taken for a full GPU
    and no function fails for that reason: [isMigDevice] answers false
    without error, [getMigProfile] fails with "device handle is not a
    MIG device", [getNumaNode] reads the PCI information of the handle
    itself, and [getPaths] returns ["/dev/nvidia{minor}"]. *)
Theorem without_mig_symbol
        (GetMigDeviceNodePaths : string -> list string * option error)
        (lib : Library) (q : Queries) (fs : Os.FileSystem) (d : nvmlDevice)
        (e : error) :
  nvmlLookupSymbol lib "nvmlDeviceIsMigDeviceHandle" = Some e ->
  isMigDevice lib d = (false, None)
  /\ getMigProfile lib d = ("", Some "device handle is not a MIG device")
  /\ (forall info,
         GetPciInfo (dev lib d) = (info, SUCCESS) ->
         getNumaNode lib fs d = numaOfFile (fs (numaNodePath (numaBusID info))))
  /\ (forall minor,
         GetMinorNumber (q d) = (minor, SUCCESS) ->
         getPaths GetMigDeviceNodePaths lib q d
         = ([("/dev/nvidia" ++ fmt_d minor)%string], None)).
Proof.
  intros H.
  assert (Hmig : isMigDevice lib d = (false, None))
    by (unfold isMigDevice; now rewrite H).
  split; [exact Hmig|]; split; [|split].
  - unfold getMigProfile; now rewrite Hmig.
  - intros info Hinfo.
    apply (getNumaNode_read lib fs d d info); [left; auto | exact Hinfo].
  - intros minor Hminor; unfold getPaths; now rewrite Hmig, Hminor.
Qed.

Lemma without_mig_symbol_witness :
  isMigDevice oldDriver 2%nat = (false, None)
  /\ getMigProfile oldDriver 2%nat = ("", Some "device handle is not a MIG device").
Proof.
  destruct (without_mig_symbol (fun _ => ([], None)) oldDriver twoGpusQueries
                               (fun _ => Os.Fails Os.ENOENT) 2%nat
                               "undefined symbol" eq_refl)
    as (H1 & H2 & _).
  split; assumption.
Defined.
